(** * Root-Cause-Analyzer: the in-memory telemetry store

    A shallow embedding of [app/core/models.py] (the [Trace] constructor) and
    of [app/ingestion/repository.py] (class [TelemetryStore]), followed by the
    properties of the store that the specification states.

    Conventions of the embedding.
    - A Python [int] is a [Z].  [len(...)] is a [nat], injected into [Z]
      where the source compares it with an [int].
    - A naive [datetime] is the number of microseconds since [datetime.min];
      a [timedelta] is a number of microseconds.  Every timestamp that reaches
      the store went through [validate_timestamp], which compares it with the
      naive [datetime.utcnow()], so all comparisons are between naive values.
    - A Python [dict] whose iteration order the code observes ([_logs],
      [_metrics], [_traces]) is an insertion-ordered association list; the two
      by-id indexes are [gmap]s and the service registry is a [gset].
    - A method that mutates [self] takes the store and returns the new store
      together with the outcome of the call (a value, or the exception the
      call raises after the mutations made so far).

    The development then covers the code around the store: the time
    utilities of [app/utils/time.py] that compute on datetimes alone, the
    request validators of [app/ingestion/validators.py] and the handlers of
    [app/ingestion/routes.py] that pass validated requests to the store. *)

From Stdlib Require Import ZArith PrimFloat.
From stdpp Require Import gmap strings list sorting.

Local Open Scope Z_scope.

(** ** Python values *)

Inductive exn : Type :=
| KeyError (key : string)
| IndexError
| StopIteration
| OverflowError.

Inductive outcome (A : Type) : Type :=
| Returned (a : A)
| Raised (e : exn).
Arguments Returned {A} a.
Arguments Raised {A} e.

(** [x or d] for an [Optional[int]]: [None] and [0] are falsy. *)
Definition or_int (x : option Z) (d : Z) : Z :=
  match x with
  | None => d
  | Some v => if decide (v = 0) then d else v
  end.

(** [xs or d] for an [Optional[List[...]]]: [None] and [[]] are falsy. *)
Definition or_list {A : Type} (xs : option (list A)) (d : list A) : list A :=
  match xs with
  | None | Some [] => d
  | Some l => l
  end.

(** Truthiness of an [Optional[List[...]]]. *)
Definition truthy {A : Type} (xs : option (list A)) : bool :=
  match xs with
  | None | Some [] => false
  | Some _ => true
  end.

(** ** datetime and timedelta *)

Definition datetime := Z.
Definition timedelta := Z.

Definition datetime_max : datetime := 3652059 * 86400000000 - 1.

(** [timedelta(hours=h)]: raises [OverflowError] when the number of days is
    beyond 999999999 in magnitude. *)
Definition timedelta_hours (h : Z) : option timedelta :=
  if decide (Z.abs (h `div` 24) ≤ 999999999) then Some (h * 3600000000) else None.

(** [t - d] on a [datetime]: raises [OverflowError] outside
    [datetime.min .. datetime.max]. *)
Definition datetime_sub (t : datetime) (d : timedelta) : option datetime :=
  if decide (0 ≤ t - d ≤ datetime_max) then Some (t - d) else None.

(** ** Insertion-ordered dictionaries *)

Module OrderedDict.
Section ops.
Context {V : Type}.

Definition keys (d : list (string * V)) : list string := d.*1.
Definition values (d : list (string * V)) : list V := d.*2.

(** [d.get(k)] *)
Fixpoint get (k : string) (d : list (string * V)) : option V :=
  match d with
  | [] => None
  | (k', v) :: d' => if decide (k = k') then Some v else get k d'
  end.

(** [d.get(k, dflt)] *)
Definition get_or (k : string) (dflt : V) (d : list (string * V)) : V :=
  default dflt (get k d).

(** [d[k] = v]: an existing key keeps its position, a new key goes last. *)
Fixpoint set (k : string) (v : V) (d : list (string * V)) : list (string * V) :=
  match d with
  | [] => [(k, v)]
  | (k', v') :: d' =>
      if decide (k = k') then (k, v) :: d' else (k', v') :: set k v d'
  end.

(** [del d[k]]: [None] stands for [KeyError]. *)
Fixpoint del (k : string) (d : list (string * V)) : option (list (string * V)) :=
  match d with
  | [] => None
  | (k', v') :: d' =>
      if decide (k = k') then Some d' else cons (k', v') <$> del k d'
  end.

(** The invariant of a Python dict: no key occurs twice. *)
Definition wf (d : list (string * V)) : Prop := NoDup (keys d).
End ops.
End OrderedDict.

Abbreviation odict V := (list (string * V)).

(** ** Enumerations ([app/core/enums.py]) *)

Inductive LogLevel : Type := DEBUG | INFO | WARN | WARNING | ERROR | FATAL | CRITICAL.

(** [use_enum_values = True]: the model stores the value of the enum member. *)
Definition LogLevel_value (l : LogLevel) : string :=
  match l with
  | DEBUG => "DEBUG" | INFO => "INFO" | WARN => "WARN" | WARNING => "WARNING"
  | ERROR => "ERROR" | FATAL => "FATAL" | CRITICAL => "CRITICAL"
  end.

Module SpanStatus.
Inductive t : Type := OK | ERROR | UNSET.
Global Instance eq_dec : EqDecision t.
Proof. solve_decision. Defined.
End SpanStatus.

(** ** Telemetry models ([app/core/models.py])

    The records carry the fields that the store and the [Trace] constructor
    read.  The attribute and label maps, the span events and the analysis
    placeholders ([embedding], [cluster_id], [anomaly_score], [is_anomaly],
    [z_score], [anomaly_type]) are never read or written by either and are
    left out.  A [float] is a binary64 value. *)

Module LogEntry.
Record t : Type := mk {
  id : string;
  timestamp : datetime;
  service_name : string;
  level : LogLevel;
  message : string;
}.
End LogEntry.

Module MetricDataPoint.
Record t : Type := mk {
  id : string;
  timestamp : datetime;
  service_name : string;
  metric_name : string;
  value : float;
}.
End MetricDataPoint.

Module Span.
Record t : Type := mk {
  trace_id : string;
  span_id : string;
  parent_span_id : option string;
  service_name : string;
  operation_name : string;
  start_time : datetime;
  end_time : datetime;
  duration_ms : float;
  status : SpanStatus.t;
}.
End Span.

Module Trace.
Record t : Type := mk {
  trace_id : string;
  spans : list Span.t;
  root_service : option string;
  total_duration_ms : float;
  has_error : bool;
}.

(** The first span of the [for] loop that has no parent. *)
Fixpoint first_root (spans : list Span.t) : option Span.t :=
  match spans with
  | [] => None
  | span :: rest =>
      match Span.parent_span_id span with
      | None => Some span
      | Some _ => first_root rest
      end
  end.

(** [[s for s in self.spans if s.parent_span_id is None]] *)
Definition root_spans (spans : list Span.t) : list Span.t :=
  filter (λ s, Span.parent_span_id s = None) spans.

(** [any(span.status == SpanStatus.ERROR for span in self.spans)] *)
Definition any_error (spans : list Span.t) : bool :=
  existsb (λ span, bool_decide (Span.status span = SpanStatus.ERROR)) spans.

Definition model_post_init (self : t) : t :=
  match spans self with
  | [] => self
  | _ :: _ =>
      let root_service' :=
        match first_root (spans self) with
        | Some span => Some (Span.service_name span)
        | None => root_service self
        end in
      let has_error' := any_error (spans self) in
      let total_duration_ms' :=
        match root_spans (spans self) with
        | s :: _ => Span.duration_ms s
        | [] => total_duration_ms self
        end in
      mk (trace_id self) (spans self) root_service' total_duration_ms' has_error'
  end.

(** [Trace(trace_id=..., spans=...)]: the field defaults, then
    [model_post_init]. *)
Definition new (trace_id : string) (spans : list Span.t) : t :=
  model_post_init (mk trace_id spans None 0%float false).
End Trace.


(** ** Built-ins used by the store *)

(** [sorted(l, key=key)].  Python's sort is stable; a stable sort has exactly
    one result, computed here by insertion from the right: an element goes
    before the first element of the sorted tail whose key is not smaller. *)
Fixpoint insert_by {A : Type} (key : A → Z) (x : A) (l : list A) : list A :=
  match l with
  | [] => [x]
  | y :: l' => if decide (key x ≤ key y) then x :: y :: l' else y :: insert_by key x l'
  end.

Definition sorted {A : Type} (key : A → Z) (l : list A) : list A :=
  foldr (insert_by key) [] l.

(** The order that [sorted] establishes. *)
Definition key_le {A : Type} (key : A → Z) (a b : A) : Prop := key a ≤ key b.

(** [max(x :: l, key=key)]: the first element with the largest key. *)
Fixpoint max_by {A : Type} (key : A → Z) (x : A) (l : list A) : A :=
  match l with
  | [] => x
  | y :: l' => max_by key (if decide (key x < key y) then y else x) l'
  end.

(** [d[k]] on a [defaultdict(list)]: a missing key is first bound to [[]]. *)
Definition getitem_default {A : Type} (k : string) (d : odict (list A))
  : list A * odict (list A) :=
  match OrderedDict.get k d with
  | Some v => (v, d)
  | None => ([], OrderedDict.set k [] d)
  end.

(** ** Configuration ([app/config.py], the fields the store reads) *)

Module Settings.
Record t : Type := mk {
  telemetry_retention_hours : Z;
  max_logs_per_service : Z;
  max_metrics_per_service : Z;
  max_traces : Z;
}.

(** The values of the class body; the environment can override them. *)
Definition defaults : t := mk 24 100000 100000 50000.
End Settings.

(** ** The store ([app/ingestion/repository.py]) *)

Module TelemetryStore.

Record stats : Type := mk_stats {
  logs_ingested : Z;
  metrics_ingested : Z;
  traces_ingested : Z;
}.

Record t : Type := mk {
  _retention : timedelta;
  _max_logs : Z;
  _max_metrics : Z;
  _max_traces : Z;
  _logs : odict (list LogEntry.t);
  _metrics : odict (list MetricDataPoint.t);
  _traces : odict Trace.t;
  _logs_by_id : gmap string LogEntry.t;
  _metrics_by_id : gmap string MetricDataPoint.t;
  _services : gset string;
  _stats : stats;
}.

Definition set_logs (v : odict (list LogEntry.t)) (self : t) : t :=
  mk (_retention self) (_max_logs self) (_max_metrics self) (_max_traces self)
     v (_metrics self) (_traces self) (_logs_by_id self) (_metrics_by_id self)
     (_services self) (_stats self).

Definition set_metrics (v : odict (list MetricDataPoint.t)) (self : t) : t :=
  mk (_retention self) (_max_logs self) (_max_metrics self) (_max_traces self)
     (_logs self) v (_traces self) (_logs_by_id self) (_metrics_by_id self)
     (_services self) (_stats self).

Definition set_traces (v : odict Trace.t) (self : t) : t :=
  mk (_retention self) (_max_logs self) (_max_metrics self) (_max_traces self)
     (_logs self) (_metrics self) v (_logs_by_id self) (_metrics_by_id self)
     (_services self) (_stats self).

Definition set_logs_by_id (v : gmap string LogEntry.t) (self : t) : t :=
  mk (_retention self) (_max_logs self) (_max_metrics self) (_max_traces self)
     (_logs self) (_metrics self) (_traces self) v (_metrics_by_id self)
     (_services self) (_stats self).

Definition set_metrics_by_id (v : gmap string MetricDataPoint.t) (self : t) : t :=
  mk (_retention self) (_max_logs self) (_max_metrics self) (_max_traces self)
     (_logs self) (_metrics self) (_traces self) (_logs_by_id self) v
     (_services self) (_stats self).

Definition set_services (v : gset string) (self : t) : t :=
  mk (_retention self) (_max_logs self) (_max_metrics self) (_max_traces self)
     (_logs self) (_metrics self) (_traces self) (_logs_by_id self)
     (_metrics_by_id self) v (_stats self).

Definition set_stats (v : stats) (self : t) : t :=
  mk (_retention self) (_max_logs self) (_max_metrics self) (_max_traces self)
     (_logs self) (_metrics self) (_traces self) (_logs_by_id self)
     (_metrics_by_id self) (_services self) v.

Definition __init__ (settings : Settings.t)
    (retention_hours max_logs_per_service max_metrics_per_service max_traces : option Z)
  : outcome t :=
  match timedelta_hours
          (or_int retention_hours (Settings.telemetry_retention_hours settings)) with
  | None => Raised OverflowError
  | Some retention =>
      Returned
        {| _retention := retention;
           _max_logs := or_int max_logs_per_service (Settings.max_logs_per_service settings);
           _max_metrics :=
             or_int max_metrics_per_service (Settings.max_metrics_per_service settings);
           _max_traces := or_int max_traces (Settings.max_traces settings);
           _logs := [];
           _metrics := [];
           _traces := [];
           _logs_by_id := ∅;
           _metrics_by_id := ∅;
           _services := ∅;
           _stats := mk_stats 0 0 0 |}
  end.

(** *** Log operations *)

Definition add_log (self : t) (log : LogEntry.t) : t * outcome string :=
  let service := LogEntry.service_name log in
  let '(entries, logs) := getitem_default service (_logs self) in
  let self := set_logs (OrderedDict.set service (entries ++ [log]) logs) self in
  let self := set_logs_by_id (<[LogEntry.id log := log]> (_logs_by_id self)) self in
  let self := set_services ({[service]} ∪ _services self) self in
  let self :=
    set_stats (mk_stats (logs_ingested (_stats self) + 1)
                        (metrics_ingested (_stats self))
                        (traces_ingested (_stats self))) self in
  let '(entries, logs) := getitem_default service (_logs self) in
  let self := set_logs logs self in
  if decide (_max_logs self < Z.of_nat (length entries)) then
    match entries with
    | [] => (self, Raised IndexError)
    | removed :: rest =>
        let self := set_logs (OrderedDict.set service rest (_logs self)) self in
        match _logs_by_id self !! LogEntry.id removed with
        | None => (self, Raised (KeyError (LogEntry.id removed)))
        | Some _ =>
            (set_logs_by_id (delete (LogEntry.id removed) (_logs_by_id self)) self,
             Returned (LogEntry.id log))
        end
    end
  else (self, Returned (LogEntry.id log)).

Definition get_log_by_id (self : t) (log_id : string) : option LogEntry.t :=
  _logs_by_id self !! log_id.

(** The two [continue] tests of the scan. *)
Definition log_selected (start end_ : datetime) (levels : option (list string))
    (log : LogEntry.t) : bool :=
  if negb (bool_decide (start ≤ LogEntry.timestamp log ≤ end_)) then false
  else if truthy levels
          && negb (bool_decide (LogLevel_value (LogEntry.level log) ∈ default [] levels))
       then false
       else true.

(** The [results] list before sorting. *)
Definition scan_logs (self : t) (start end_ : datetime)
    (services levels : option (list string)) : list LogEntry.t :=
  let target_services := or_list services (OrderedDict.keys (_logs self)) in
  target_services ≫= λ service,
    filter (λ log, log_selected start end_ levels log)
           (OrderedDict.get_or service [] (_logs self)).

Definition get_logs_in_window (self : t) (start end_ : datetime)
    (services levels : option (list string)) : list LogEntry.t :=
  sorted LogEntry.timestamp (scan_logs self start end_ services levels).

Definition get_error_logs_in_window (self : t) (start end_ : datetime)
    (services : option (list string)) : list LogEntry.t :=
  let error_levels := ["ERROR"; "FATAL"; "CRITICAL"] in
  get_logs_in_window self start end_ services (Some error_levels).

(** *** Metric operations *)

Definition add_metric (self : t) (metric : MetricDataPoint.t) : t * outcome string :=
  let service := MetricDataPoint.service_name metric in
  let '(entries, metrics) := getitem_default service (_metrics self) in
  let self := set_metrics (OrderedDict.set service (entries ++ [metric]) metrics) self in
  let self :=
    set_metrics_by_id (<[MetricDataPoint.id metric := metric]> (_metrics_by_id self)) self in
  let self := set_services ({[service]} ∪ _services self) self in
  let self :=
    set_stats (mk_stats (logs_ingested (_stats self))
                        (metrics_ingested (_stats self) + 1)
                        (traces_ingested (_stats self))) self in
  let '(entries, metrics) := getitem_default service (_metrics self) in
  let self := set_metrics metrics self in
  if decide (_max_metrics self < Z.of_nat (length entries)) then
    match entries with
    | [] => (self, Raised IndexError)
    | removed :: rest =>
        let self := set_metrics (OrderedDict.set service rest (_metrics self)) self in
        match _metrics_by_id self !! MetricDataPoint.id removed with
        | None => (self, Raised (KeyError (MetricDataPoint.id removed)))
        | Some _ =>
            (set_metrics_by_id
               (delete (MetricDataPoint.id removed) (_metrics_by_id self)) self,
             Returned (MetricDataPoint.id metric))
        end
    end
  else (self, Returned (MetricDataPoint.id metric)).

Definition get_metric_by_id (self : t) (metric_id : string) : option MetricDataPoint.t :=
  _metrics_by_id self !! metric_id.

(** The [continue] test and the [if] of the series scan. *)
Definition series_selected (metric_name : string) (start end_ : datetime)
    (metric : MetricDataPoint.t) : bool :=
  if negb (bool_decide (MetricDataPoint.metric_name metric = metric_name)) then false
  else bool_decide (start ≤ MetricDataPoint.timestamp metric ≤ end_).

Definition get_metric_series (self : t) (service_name metric_name : string)
    (start end_ : datetime) : list MetricDataPoint.t :=
  let series :=
    filter (λ metric, series_selected metric_name start end_ metric)
           (OrderedDict.get_or service_name [] (_metrics self)) in
  sorted MetricDataPoint.timestamp series.

(** The two [continue] tests of the window scan. *)
Definition metric_selected (start end_ : datetime) (metric_names : option (list string))
    (metric : MetricDataPoint.t) : bool :=
  if negb (bool_decide (start ≤ MetricDataPoint.timestamp metric ≤ end_)) then false
  else if truthy metric_names
          && negb (bool_decide (MetricDataPoint.metric_name metric ∈ default [] metric_names))
       then false
       else true.

Definition scan_metrics (self : t) (start end_ : datetime)
    (services metric_names : option (list string)) : list MetricDataPoint.t :=
  let target_services := or_list services (OrderedDict.keys (_metrics self)) in
  target_services ≫= λ service,
    filter (λ metric, metric_selected start end_ metric_names metric)
           (OrderedDict.get_or service [] (_metrics self)).

Definition get_metrics_in_window (self : t) (start end_ : datetime)
    (services metric_names : option (list string)) : list MetricDataPoint.t :=
  sorted MetricDataPoint.timestamp (scan_metrics self start end_ services metric_names).

(** *** Trace operations *)

Definition add_trace (self : t) (trace : Trace.t) : t * outcome string :=
  let self :=
    set_traces (OrderedDict.set (Trace.trace_id trace) trace (_traces self)) self in
  let self :=
    set_stats (mk_stats (logs_ingested (_stats self))
                        (metrics_ingested (_stats self))
                        (traces_ingested (_stats self) + 1)) self in
  let self :=
    set_services
      (foldl (λ services span, {[Span.service_name span]} ∪ services)
             (_services self) (Trace.spans trace)) self in
  if decide (_max_traces self < Z.of_nat (length (_traces self))) then
    match OrderedDict.keys (_traces self) with
    | [] => (self, Raised StopIteration)
    | oldest_id :: _ =>
        match OrderedDict.del oldest_id (_traces self) with
        | None => (self, Raised (KeyError oldest_id))
        | Some traces => (set_traces traces self, Returned (Trace.trace_id trace))
        end
    end
  else (self, Returned (Trace.trace_id trace)).

Definition get_trace_by_id (self : t) (trace_id : string) : option Trace.t :=
  OrderedDict.get trace_id (_traces self).

(** *** Maintenance operations *)

(** One round of the loop [for service in list(d.keys())] of the sweep, for
    either family: [d] is the dictionary, [removed] the running count. *)
Definition sweep_service {A : Type} (timestamp : A → datetime) (cutoff : datetime)
    (acc : odict (list A) * Z) (service : string) : odict (list A) * Z :=
  let '(d, removed) := acc in
  let '(entries, d) := getitem_default service d in
  let original := length entries in
  let '(entries, d) := getitem_default service d in
  let d := OrderedDict.set service (filter (λ x, cutoff < timestamp x) entries) d in
  let '(entries, d) := getitem_default service d in
  (d, removed + (Z.of_nat original - Z.of_nat (length entries))).

Definition sweep {A : Type} (timestamp : A → datetime) (cutoff : datetime)
    (d : odict (list A)) : odict (list A) * Z :=
  foldl (sweep_service timestamp cutoff) (d, 0) (OrderedDict.keys d).

(** The test that puts a trace on [traces_to_remove]. *)
Definition trace_expired (cutoff : datetime) (trace : Trace.t) : bool :=
  match Trace.spans trace with
  | [] => false
  | span :: rest =>
      let latest_span := max_by Span.end_time span rest in
      bool_decide (Span.end_time latest_span < cutoff)
  end.

(** [for trace_id in traces_to_remove: del self._traces[trace_id]] *)
Fixpoint del_traces (traces_to_remove : list string) (traces : odict Trace.t)
  : odict Trace.t * option exn :=
  match traces_to_remove with
  | [] => (traces, None)
  | trace_id :: rest =>
      match OrderedDict.del trace_id traces with
      | None => (traces, Some (KeyError trace_id))
      | Some traces' => del_traces rest traces'
      end
  end.

Record removed : Type := mk_removed {
  removed_logs : Z;
  removed_metrics : Z;
  removed_traces : Z;
}.

(** [utcnow] is the value of [datetime.utcnow()] at the call. *)
Definition cleanup_old_data (self : t) (utcnow : datetime) : t * outcome removed :=
  match datetime_sub utcnow (_retention self) with
  | None => (self, Raised OverflowError)
  | Some cutoff =>
      let '(logs, n_logs) := sweep LogEntry.timestamp cutoff (_logs self) in
      let self := set_logs logs self in
      let '(metrics, n_metrics) := sweep MetricDataPoint.timestamp cutoff (_metrics self) in
      let self := set_metrics metrics self in
      let traces_to_remove :=
        (filter (λ item, trace_expired cutoff item.2) (_traces self)).*1 in
      match del_traces traces_to_remove (_traces self) with
      | (traces, Some e) => (set_traces traces self, Raised e)
      | (traces, None) =>
          (set_traces traces self,
           Returned (mk_removed n_logs n_metrics (Z.of_nat (length traces_to_remove))))
      end
  end.

Record stats_report : Type := mk_report {
  report_logs_ingested : Z;
  report_metrics_ingested : Z;
  report_traces_ingested : Z;
  services_count : Z;
  logs_stored : Z;
  metrics_stored : Z;
  traces_stored : Z;
}.

(** [sum(len(x) for x in d.values())] *)
Definition stored {A : Type} (d : odict (list A)) : Z :=
  foldl (λ total entries, total + Z.of_nat (length entries)) 0 (OrderedDict.values d).

Definition get_stats (self : t) : stats_report :=
  {| report_logs_ingested := logs_ingested (_stats self);
     report_metrics_ingested := metrics_ingested (_stats self);
     report_traces_ingested := traces_ingested (_stats self);
     services_count := Z.of_nat (size (_services self));
     logs_stored := stored (_logs self);
     metrics_stored := stored (_metrics self);
     traces_stored := Z.of_nat (length (_traces self)) |}.

Definition clear (self : t) : t :=
  let self := set_logs [] self in
  let self := set_metrics [] self in
  let self := set_traces [] self in
  let self := set_logs_by_id ∅ self in
  let self := set_metrics_by_id ∅ self in
  set_services ∅ self.

(** *** Batches, trace queries and the registry *)

(** [[self.add_log(log) for log in logs]]: the first call that raises ends the
    comprehension, with the store as the calls so far left it. *)
Fixpoint add_logs_batch (self : t) (logs : list LogEntry.t) : t * outcome (list string) :=
  match logs with
  | [] => (self, Returned [])
  | log :: rest =>
      match add_log self log with
      | (self, Raised e) => (self, Raised e)
      | (self, Returned log_id) =>
          match add_logs_batch self rest with
          | (self, Raised e) => (self, Raised e)
          | (self, Returned ids) => (self, Returned (log_id :: ids))
          end
      end
  end.

Fixpoint add_metrics_batch (self : t) (metrics : list MetricDataPoint.t)
  : t * outcome (list string) :=
  match metrics with
  | [] => (self, Returned [])
  | metric :: rest =>
      match add_metric self metric with
      | (self, Raised e) => (self, Raised e)
      | (self, Returned metric_id) =>
          match add_metrics_batch self rest with
          | (self, Raised e) => (self, Raised e)
          | (self, Returned ids) => (self, Returned (metric_id :: ids))
          end
      end
  end.

Fixpoint add_traces_batch (self : t) (traces : list Trace.t) : t * outcome (list string) :=
  match traces with
  | [] => (self, Returned [])
  | trace :: rest =>
      match add_trace self trace with
      | (self, Raised e) => (self, Raised e)
      | (self, Returned trace_id) =>
          match add_traces_batch self rest with
          | (self, Raised e) => (self, Raised e)
          | (self, Returned ids) => (self, Returned (trace_id :: ids))
          end
      end
  end.

(** [list(names)] of the set of metric names of a service; the order of the
    list is that of the set and carries no meaning. *)
Definition get_metric_names_for_service (self : t) (service_name : string) : list string :=
  let names : gset string :=
    foldl (λ names metric, {[MetricDataPoint.metric_name metric]} ∪ names) ∅
          (OrderedDict.get_or service_name [] (_metrics self)) in
  elements names.

(** The test of the inner loop of [get_traces_for_service]: the first span it
    accepts appends the trace and ends the loop. *)
Definition span_of_service_in_window (service_name : string) (start end_ : datetime)
    (span : Span.t) : bool :=
  if bool_decide (Span.service_name span = service_name)
  then bool_decide (start ≤ Span.start_time span ≤ end_)
  else false.

Definition get_traces_for_service (self : t) (service_name : string)
    (start end_ : datetime) : list Trace.t :=
  filter (λ trace,
            existsb (span_of_service_in_window service_name start end_)
                    (Trace.spans trace))
         (OrderedDict.values (_traces self)).

(** The tests of the inner loop of [get_error_traces_in_window]. *)
Definition span_in_window (start end_ : datetime) (services : option (list string))
    (span : Span.t) : bool :=
  if truthy services
     && negb (bool_decide (Span.service_name span ∈ default [] services))
  then false
  else bool_decide (start ≤ Span.start_time span ≤ end_).

(** The body of the outer loop: [continue] on a trace without error, and
    else the inner loop, which appends the trace at its first span in the
    window. *)
Definition error_trace_selected (start end_ : datetime) (services : option (list string))
    (trace : Trace.t) : bool :=
  if negb (Trace.has_error trace) then false
  else existsb (span_in_window start end_ services) (Trace.spans trace).

Definition get_error_traces_in_window (self : t) (start end_ : datetime)
    (services : option (list string)) : list Trace.t :=
  filter (λ trace, error_trace_selected start end_ services trace)
         (OrderedDict.values (_traces self)).

(** [list(self._services)]; the order of the list carries no meaning. *)
Definition get_services (self : t) : list string := elements (_services self).

End TelemetryStore.

(** ** Sequences of calls *)

(** The store after the calls [add_log(l1); ...; add_log(ln)], whatever each
    call returned or raised. *)
Definition after_add_logs (self : TelemetryStore.t) (logs : list LogEntry.t)
  : TelemetryStore.t :=
  foldl (λ self log, (TelemetryStore.add_log self log).1) self logs.

Definition after_add_metrics (self : TelemetryStore.t) (metrics : list MetricDataPoint.t)
  : TelemetryStore.t :=
  foldl (λ self metric, (TelemetryStore.add_metric self metric).1) self metrics.

Definition after_add_traces (self : TelemetryStore.t) (traces : list Trace.t)
  : TelemetryStore.t :=
  foldl (λ self trace, (TelemetryStore.add_trace self trace).1) self traces.

(** What one append does to the list of its service: the entry goes last, and
    the head is dropped when the list is then longer than [cap]. *)
Definition push_capped {A : Type} (cap : Z) (entries : list A) (x : A) : list A :=
  let entries := entries ++ [x] in
  if decide (cap < Z.of_nat (length entries)) then drop 1 entries else entries.

(** [a] stands before [b] in [l]. *)
Definition before_in {A : Type} (l : list A) (a b : A) : Prop :=
  ∃ i j : nat, (i < j)%nat ∧ l !! i = Some a ∧ l !! j = Some b.

(** Two entries of [result] that have the same timestamp and are [related]
    stand in the order in which they stand in [inserted]. *)
Definition insertion_order_respected (related : LogEntry.t → LogEntry.t → Prop)
    (inserted result : list LogEntry.t) : Prop :=
  ∀ a b : LogEntry.t,
    before_in result a b →
    LogEntry.timestamp a = LogEntry.timestamp b →
    related a b →
    before_in inserted a b.

(** ** Example data *)

Definition root_span : Span.t :=
  Span.mk "t1" "s1" None "gateway" "GET /checkout"
          1000000 1500000 500%float SpanStatus.OK.

Definition child_span : Span.t :=
  Span.mk "t1" "s2" (Some "s1") "payments" "charge"
          1100000 1400000 300%float SpanStatus.ERROR.

Definition old_log : LogEntry.t :=
  LogEntry.mk "log-1" 100000000000 "checkout" ERROR "payment declined".

Definition old_metric : MetricDataPoint.t :=
  MetricDataPoint.mk "metric-1" 100000000000 "checkout" "latency_ms" 250%float.

(** The store that [__init__] returns for these values. *)
Definition empty_store (retention : timedelta) (max_logs max_metrics max_traces : Z)
  : TelemetryStore.t :=
  TelemetryStore.mk retention max_logs max_metrics max_traces
    [] [] [] ∅ ∅ ∅ (TelemetryStore.mk_stats 0 0 0).

Definition default_store : TelemetryStore.t :=
  empty_store (24 * 3600000000) 100000 100000 50000.

Definition log_at (id : string) (timestamp : datetime) (service_name : string)
  : LogEntry.t :=
  LogEntry.mk id timestamp service_name INFO "request served".

Definition metric_at (id : string) (timestamp : datetime) (service_name : string)
  : MetricDataPoint.t :=
  MetricDataPoint.mk id timestamp service_name "latency_ms" 12%float.

Definition window_store : TelemetryStore.t :=
  after_add_metrics
    (after_add_logs default_store
       [log_at "l0" 99 "checkout"; log_at "l1" 100 "checkout";
        log_at "l2" 200 "checkout"; log_at "l3" 201 "checkout"])
    [metric_at "m0" 99 "checkout"; metric_at "m1" 100 "checkout";
     metric_at "m2" 200 "checkout"; metric_at "m3" 201 "checkout"].

(** A store with room for three logs and three metric points per service and
    for two traces. *)
Definition small_store : TelemetryStore.t := empty_store (24 * 3600000000) 3 3 2.

Definition five_logs : list LogEntry.t :=
  [log_at "l1" 1 "x"; log_at "l2" 2 "x"; log_at "l3" 3 "x";
   log_at "l4" 4 "x"; log_at "l5" 5 "x"].

Definition five_metrics : list MetricDataPoint.t :=
  [metric_at "m1" 1 "x"; metric_at "m2" 2 "x"; metric_at "m3" 3 "x";
   metric_at "m4" 4 "x"; metric_at "m5" 5 "x"].

Definition span_of (trace_id : string) (end_time : datetime) : Span.t :=
  Span.mk trace_id "s1" None "gateway" "GET /checkout"
          (end_time - 500000) end_time 500%float SpanStatus.OK.

Definition trace_of (trace_id : string) : Trace.t :=
  Trace.new trace_id [span_of trace_id 1500000].

(** A store to sweep at time 200000000000 with the horizon of 24 hours, that
    is, with cutoff 113600000000. *)
Definition sweep_store : TelemetryStore.t :=
  after_add_traces
    (after_add_metrics
       (after_add_logs default_store
          [old_log; log_at "l1" 113600000000 "checkout";
           log_at "l2" 113600000001 "checkout"])
       [old_metric; metric_at "m1" 113600000000 "checkout";
        metric_at "m2" 113600000001 "checkout"])
    [trace_of "A";
     Trace.new "B" [span_of "B" 100000000000; span_of "B" 150000000000];
     Trace.new "C" []].

(** Three logs with one timestamp, the second of another service than the
    first and the third. *)
Definition cross_logs : list LogEntry.t :=
  [log_at "l1" 1 "A"; log_at "l2" 1 "B"; log_at "l3" 1 "A"].

Definition cross_store : TelemetryStore.t := after_add_logs default_store cross_logs.

(** ** The shared instance and arbitrary sequences of calls *)

(** [get_telemetry_store()]: [_telemetry_store] is the module variable, passed
    in and returned beside the result. *)
Definition get_telemetry_store (settings : Settings.t)
    (_telemetry_store : option TelemetryStore.t)
  : option TelemetryStore.t * outcome TelemetryStore.t :=
  match _telemetry_store with
  | None =>
      match TelemetryStore.__init__ settings None None None None with
      | Raised e => (None, Raised e)
      | Returned store => (Some store, Returned store)
      end
  | Some store => (Some store, Returned store)
  end.

(** A call of one of the mutating methods of the store. *)
Inductive call : Type :=
| AddLog (log : LogEntry.t)
| AddMetric (metric : MetricDataPoint.t)
| AddTrace (trace : Trace.t)
| Cleanup (utcnow : datetime)
| Clear.

(** The store that a call leaves, whatever it returned or raised. *)
Definition do_call (self : TelemetryStore.t) (c : call) : TelemetryStore.t :=
  match c with
  | AddLog log => (TelemetryStore.add_log self log).1
  | AddMetric metric => (TelemetryStore.add_metric self metric).1
  | AddTrace trace => (TelemetryStore.add_trace self trace).1
  | Cleanup utcnow => (TelemetryStore.cleanup_old_data self utcnow).1
  | Clear => TelemetryStore.clear self
  end.

Definition after_calls (self : TelemetryStore.t) (calls : list call) : TelemetryStore.t :=
  foldl do_call self calls.

(** The identifiers of the logs, and of the metric points, that the calls add. *)
Definition added_log_ids (calls : list call) : list string :=
  calls ≫= λ c, match c with AddLog log => [LogEntry.id log] | _ => [] end.

Definition added_metric_ids (calls : list call) : list string :=
  calls ≫= λ c, match c with AddMetric metric => [MetricDataPoint.id metric] | _ => [] end.

(** How many of the calls are [add_log], [add_metric] and [add_trace] calls. *)
Definition count_calls (calls : list call) : Z * Z * Z :=
  foldl (λ '(n_logs, n_metrics, n_traces) c,
           match c with
           | AddLog _ => (n_logs + 1, n_metrics, n_traces)
           | AddMetric _ => (n_logs, n_metrics + 1, n_traces)
           | AddTrace _ => (n_logs, n_metrics, n_traces + 1)
           | Cleanup _ | Clear => (n_logs, n_metrics, n_traces)
           end)
        (0, 0, 0) calls.

(** ** What the calls maintain *)

(** No key occurs twice in a dictionary of the store. *)
Definition dicts_wf (self : TelemetryStore.t) : Prop :=
  OrderedDict.wf (TelemetryStore._logs self) ∧
  OrderedDict.wf (TelemetryStore._metrics self) ∧
  OrderedDict.wf (TelemetryStore._traces self).

(** Every list and the dictionary of traces are within their bounds. *)
Definition within_bounds (self : TelemetryStore.t) : Prop :=
  (∀ service,
     Z.of_nat (length (OrderedDict.get_or service [] (TelemetryStore._logs self)))
       ≤ TelemetryStore._max_logs self) ∧
  (∀ service,
     Z.of_nat (length (OrderedDict.get_or service [] (TelemetryStore._metrics self)))
       ≤ TelemetryStore._max_metrics self) ∧
  Z.of_nat (length (TelemetryStore._traces self)) ≤ TelemetryStore._max_traces self.

(** Every entry stands under its own service name, and every trace under its
    own id. *)
Definition keyed (self : TelemetryStore.t) : Prop :=
  (∀ service log,
     log ∈ OrderedDict.get_or service [] (TelemetryStore._logs self) →
     LogEntry.service_name log = service) ∧
  (∀ service metric,
     metric ∈ OrderedDict.get_or service [] (TelemetryStore._metrics self) →
     MetricDataPoint.service_name metric = service) ∧
  (∀ trace_id trace,
     OrderedDict.get trace_id (TelemetryStore._traces self) = Some trace →
     Trace.trace_id trace = trace_id).

(** The registry holds the service of every stored log, metric point and
    span. *)
Definition registry_covers (self : TelemetryStore.t) : Prop :=
  (∀ service log,
     log ∈ OrderedDict.get_or service [] (TelemetryStore._logs self) →
     LogEntry.service_name log ∈ TelemetryStore._services self) ∧
  (∀ service metric,
     metric ∈ OrderedDict.get_or service [] (TelemetryStore._metrics self) →
     MetricDataPoint.service_name metric ∈ TelemetryStore._services self) ∧
  (∀ trace_id trace span,
     OrderedDict.get trace_id (TelemetryStore._traces self) = Some trace →
     span ∈ Trace.spans trace →
     Span.service_name span ∈ TelemetryStore._services self).

(** Every stored log is found by its id, and no list holds an id twice. *)
Definition logs_indexed (self : TelemetryStore.t) : Prop :=
  (∀ service,
     NoDup (LogEntry.id <$> OrderedDict.get_or service [] (TelemetryStore._logs self))) ∧
  (∀ service log,
     log ∈ OrderedDict.get_or service [] (TelemetryStore._logs self) →
     TelemetryStore._logs_by_id self !! LogEntry.id log = Some log).

Definition metrics_indexed (self : TelemetryStore.t) : Prop :=
  (∀ service,
     NoDup (MetricDataPoint.id
              <$> OrderedDict.get_or service [] (TelemetryStore._metrics self))) ∧
  (∀ service metric,
     metric ∈ OrderedDict.get_or service [] (TelemetryStore._metrics self) →
     TelemetryStore._metrics_by_id self !! MetricDataPoint.id metric = Some metric).

(** Every log that the by-id index holds is stored, under its id. *)
Definition log_index_sound (self : TelemetryStore.t) : Prop :=
  ∀ log_id log,
    TelemetryStore._logs_by_id self !! log_id = Some log →
    LogEntry.id log = log_id ∧
    log ∈ OrderedDict.get_or (LogEntry.service_name log) [] (TelemetryStore._logs self).

Definition metric_index_sound (self : TelemetryStore.t) : Prop :=
  ∀ metric_id metric,
    TelemetryStore._metrics_by_id self !! metric_id = Some metric →
    MetricDataPoint.id metric = metric_id ∧
    metric ∈ OrderedDict.get_or (MetricDataPoint.service_name metric) []
               (TelemetryStore._metrics self).

(** The calls hold no sweep. *)
Definition no_cleanup (calls : list call) : Prop :=
  ∀ utcnow, Cleanup utcnow ∉ calls.

(** ** Decidable equality of the log levels *)

Global Instance LogLevel_eq_dec : EqDecision LogLevel.
Proof. solve_decision. Defined.

(** ** Further example data *)

(** Calls of every kind on [small_store]: the fourth log of service x evicts
    the first, the sweep at 200000000000 removes what is older than its
    cutoff, and a last log follows the clear. *)
Definition example_calls : list call :=
  [AddLog (log_at "l1" 113600000001 "x"); AddLog (log_at "l2" 113600000002 "x");
   AddLog (log_at "l3" 100 "y"); AddLog (log_at "l4" 113600000004 "x");
   AddLog (log_at "l5" 113600000005 "x");
   AddMetric (metric_at "m1" 100 "x"); AddMetric (metric_at "m2" 113600000002 "x");
   AddTrace (trace_of "A");
   AddTrace (Trace.new "B" [span_of "B" 150000000000]);
   Cleanup 200000000000;
   AddLog (log_at "l6" 113600000006 "y")].

(** The same calls without the sweep. *)
Definition example_calls_without_sweep : list call :=
  [AddLog (log_at "l1" 113600000001 "x"); AddLog (log_at "l2" 113600000002 "x");
   AddLog (log_at "l3" 100 "y"); AddLog (log_at "l4" 113600000004 "x");
   AddLog (log_at "l5" 113600000005 "x");
   AddMetric (metric_at "m1" 100 "x"); AddMetric (metric_at "m2" 113600000002 "x");
   AddTrace (trace_of "A");
   AddTrace (Trace.new "B" [span_of "B" 150000000000]);
   AddLog (log_at "l6" 113600000006 "y")].

(** Two logs of two services under one id, then one more for each service,
    in a store with room for one log per service. *)
Definition tiny_store : TelemetryStore.t := empty_store (24 * 3600000000) 1 1 1.

Definition clashing_logs : list LogEntry.t :=
  [log_at "same" 1 "x"; log_at "same" 2 "y"; log_at "l3" 3 "x"; log_at "l4" 4 "y"].

(** ** Time utilities ([app/utils/time.py])

    The functions that work on datetimes and timedeltas alone; those that go
    through [total_seconds()] or [timestamp()] compute with floats and are not
    part of this development. *)

(** [t + d] on a [datetime]: raises [OverflowError] outside
    [datetime.min .. datetime.max]. *)
Definition datetime_add (t : datetime) (d : timedelta) : option datetime :=
  if decide (0 ≤ t + d ≤ datetime_max) then Some (t + d) else None.

Module TimeUtils.

(** The defaults [timedelta(minutes=30)] and [timedelta(minutes=5)]. *)
Definition default_before : timedelta := 30 * 60000000.
Definition default_after : timedelta := 5 * 60000000.

(** [(center - before, center + after)] *)
Definition time_window (center : datetime) (before after : timedelta)
  : outcome (datetime * datetime) :=
  match datetime_sub center before with
  | None => Raised OverflowError
  | Some window_start =>
      match datetime_add center after with
      | None => Raised OverflowError
      | Some window_end => Returned (window_start, window_end)
      end
  end.

Definition is_within_window (timestamp window_start window_end : datetime) : bool :=
  bool_decide (window_start ≤ timestamp ≤ window_end).

(** The [while] loop of [sliding_windows], run for at most [fuel] tests of
    its condition: [None] when the fuel runs out before the loop ends.  The
    condition and the appended pair both compute [current + window_size]. *)
Fixpoint sliding_windows_loop (fuel : nat) (end_ : datetime)
    (window_size step : timedelta) (current : datetime)
    (windows : list (datetime * datetime))
  : option (outcome (list (datetime * datetime))) :=
  match fuel with
  | O => None
  | S fuel =>
      match datetime_add current window_size with
      | None => Some (Raised OverflowError)
      | Some window_end =>
          if decide (window_end ≤ end_) then
            let windows := windows ++ [(current, window_end)] in
            match datetime_add current step with
            | None => Some (Raised OverflowError)
            | Some current => sliding_windows_loop fuel end_ window_size step current windows
            end
          else Some (Returned windows)
      end
  end.

Definition sliding_windows (fuel : nat) (start end_ : datetime)
    (window_size step : timedelta)
  : option (outcome (list (datetime * datetime))) :=
  sliding_windows_loop fuel end_ window_size step start [].

End TimeUtils.

(** The windows that start at [start + k * step] for [k] below [n]. *)
Definition windows_from (start : datetime) (window_size step : timedelta) (n : nat)
  : list (datetime * datetime) :=
  (λ k : nat, (start + Z.of_nat k * step, start + Z.of_nat k * step + window_size))
    <$> seq 0 n.

(** ** Request schemas ([app/core/schemas.py])

    A [datetime] of a request is naive or aware of a time zone, as the
    client wrote it; a [str] is a string of characters below 256.  As in the
    models, the attribute and label maps and the span events are left out:
    the validators hand them on without reading them. *)

Inductive pydatetime : Type :=
| Naive (t : datetime)
| Aware (t : datetime) (utcoffset : timedelta).

(** [a < b]: [None] stands for the [TypeError] of comparing a naive with an
    aware datetime; two aware datetimes compare by their UTC instants. *)
Definition pydatetime_lt (a b : pydatetime) : option bool :=
  match a, b with
  | Naive a, Naive b => Some (bool_decide (a < b))
  | Aware a oa, Aware b ob => Some (bool_decide (a - oa < b - ob))
  | _, _ => None
  end.

(** [a > b] *)
Definition pydatetime_gt (a b : pydatetime) : option bool := pydatetime_lt b a.

(** The value that the models of this development keep of a timestamp: they
    hold naive datetimes, and a validator builds a model only from a
    timestamp that [validate_timestamp] has compared with naive ones. *)
Definition naive (t : pydatetime) : datetime :=
  match t with
  | Naive t | Aware t _ => t
  end.

Module LogEntryCreate.
Record t : Type := mk {
  timestamp : pydatetime;
  service_name : string;
  level : LogLevel;
  message : string;
}.
End LogEntryCreate.

Module MetricDataPointCreate.
Record t : Type := mk {
  timestamp : pydatetime;
  service_name : string;
  metric_name : string;
  value : float;
}.
End MetricDataPointCreate.

Module SpanCreate.
Record t : Type := mk {
  trace_id : string;
  span_id : string;
  parent_span_id : option string;
  service_name : string;
  operation_name : string;
  start_time : pydatetime;
  end_time : pydatetime;
  duration_ms : float;
  status : SpanStatus.t;
}.
End SpanCreate.

Module TraceCreate.
Record t : Type := mk {
  trace_id : string;
  spans : list SpanCreate.t;
}.
End TraceCreate.

(** A formatted string: its literal parts and the values formatted into it,
    in order.  [f"Log {idx}: {error}"] is
    [[Lit "Log "; Fmt_int idx; Lit ": "] ++ error]. *)
Inductive piece : Type :=
| Lit (s : string)
| Fmt_datetime (t : pydatetime)
| Fmt_int (n : nat)
| Fmt_str (s : string).

Definition fstring : Type := list piece.

(** A piece that renders to at least one character: [str] of a datetime or
    of an int is never empty. *)
Definition piece_nonempty (p : piece) : bool :=
  match p with
  | Lit s | Fmt_str s => bool_decide (s ≠ EmptyString)
  | Fmt_datetime _ | Fmt_int _ => true
  end.

(** Truthiness of an [Optional[str]]: [None] and the empty string are falsy. *)
Definition str_truthy (error : option fstring) : bool :=
  match error with
  | None => false
  | Some s => existsb piece_nonempty s
  end.

(** [{error}] inside an f-string, for an [Optional[str]]. *)
Definition fmt_optional (error : option fstring) : fstring :=
  match error with
  | None => [Lit "None"]
  | Some s => s
  end.

Module IngestResponse.
Record t : Type := mk {
  success : bool;
  ingested_count : Z;
  failed_count : Z;
  errors : list fstring;
}.
End IngestResponse.

(** ** Payload validation ([app/ingestion/validators.py])

    The validators read the clock ([datetime.utcnow()]) and build models
    whose [id] comes from [uuid.uuid4()].  Both are given from outside: the
    [n]-th reading of the clock and the [n]-th identifier; a computation
    passes along how many of each it has used.  Constructing a model from
    fields that a schema has already validated does not fail, so the
    [except Exception] branches around the constructors are never taken. *)

Module Validators.

Inductive pyexn : Type :=
| Exn (e : exn)
| TypeError
| AttributeError.

Inductive result (A : Type) : Type :=
| Ok (a : A)
| Err (e : pyexn).
Arguments Ok {A} a.
Arguments Err {A} e.

Record calls : Type := mk_calls {
  utcnow_calls : nat;
  uuid4_calls : nat;
}.

Definition M (A : Type) : Type := calls → calls * result A.

Global Instance M_ret : MRet M := λ A a c, (c, Ok a).

Global Instance M_bind : MBind M := λ A B f m c,
  match m c with
  | (c, Ok a) => f a c
  | (c, Err e) => (c, Err e)
  end.

Definition raise {A : Type} (e : pyexn) : M A := λ c, (c, Err e).

Definition or_raise {A : Type} (e : pyexn) (x : option A) : M A :=
  match x with
  | Some a => mret a
  | None => raise e
  end.

Record ValidationResult (A : Type) : Type := mk_result {
  valid_items : list (option A);
  errors : list fstring;
}.
Arguments mk_result {A} valid_items errors.
Arguments valid_items {A} _.
Arguments errors {A} _.

Definition has_errors {A : Type} (self : ValidationResult A) : bool :=
  bool_decide (0 < length (errors self))%nat.

Definition success_count {A : Type} (self : ValidationResult A) : nat :=
  length (valid_items self).

Definition error_count {A : Type} (self : ValidationResult A) : nat :=
  length (errors self).

(** The class [[a-zA-Z0-9_-]]. *)
Definition name_char (c : Ascii.ascii) : bool :=
  let n := Ascii.nat_of_ascii c in
  bool_decide (97 ≤ n ≤ 122)%nat || bool_decide (65 ≤ n ≤ 90)%nat
  || bool_decide (48 ≤ n ≤ 57)%nat || bool_decide (n = 95)%nat
  || bool_decide (n = 45)%nat.

(** What is left of [s] after the longest run of class characters at its
    start, which is what the greedy [+] takes. *)
Fixpoint after_name_chars (s : string) : string :=
  match s with
  | String c rest => if name_char c then after_name_chars rest else s
  | EmptyString => s
  end.

Definition newline : string := String (Ascii.ascii_of_nat 10) EmptyString.

(** [re.match(r'^[a-zA-Z0-9_-]+$', s)] finds a match: at least one class
    character, then [$], which matches at the end of the string and also
    just before a newline that is the last character.  Giving back
    characters of the run cannot help, since [$] does not match before a
    class character. *)
Definition re_match_name (s : string) : bool :=
  match s with
  | String c rest =>
      name_char c
      && (bool_decide (after_name_chars rest = EmptyString)
          || bool_decide (after_name_chars rest = newline))
  | EmptyString => false
  end.

Definition validate_service_name (service_name : string) : bool * option fstring :=
  if bool_decide (service_name = EmptyString) then
    (false, Some [Lit "Service name cannot be empty"])
  else if decide (128 < Z.of_nat (String.length service_name)) then
    (false, Some [Lit "Service name too long (max 128 chars)"])
  else if negb (re_match_name service_name) then
    (false, Some [Lit "Service name contains invalid characters"])
  else (true, None).

Definition days (n : Z) : timedelta := n * 86400000000.
Definition minutes (n : Z) : timedelta := n * 60000000.

Section clock_and_ids.
Context (utcnow : nat → datetime) (uuid4 : nat → string).

(** [datetime.utcnow()] *)
Definition datetime_utcnow : M datetime := λ c,
  (mk_calls (S (utcnow_calls c)) (uuid4_calls c), Ok (utcnow (utcnow_calls c))).

(** [generate_id()] of [app/core/models.py]: [str(uuid.uuid4())]. *)
Definition generate_id : M string := λ c,
  (mk_calls (utcnow_calls c) (S (uuid4_calls c)), Ok (uuid4 (uuid4_calls c))).

Definition validate_timestamp (timestamp : pydatetime) : M (bool * option fstring) :=
  now ← datetime_utcnow;
  max_past ← or_raise (Exn OverflowError) (datetime_sub now (days 7));
  max_future ← or_raise (Exn OverflowError) (datetime_add now (minutes 5));
  too_old ← or_raise TypeError (pydatetime_lt timestamp (Naive max_past));
  if too_old : bool then
    mret (false, Some [Lit "Timestamp "; Fmt_datetime timestamp;
                       Lit " is too far in the past (>7 days)"])
  else
    too_new ← or_raise TypeError (pydatetime_gt timestamp (Naive max_future));
    if too_new : bool then
      mret (false, Some [Lit "Timestamp "; Fmt_datetime timestamp;
                         Lit " is in the future"])
    else mret (true, None).

Definition validate_log_entry (data : LogEntryCreate.t)
  : M (option LogEntry.t * option fstring) :=
  '(valid, error) ← validate_timestamp (LogEntryCreate.timestamp data);
  if negb valid then mret (None, error) else
  let '(valid, error) := validate_service_name (LogEntryCreate.service_name data) in
  if negb valid then mret (None, error) else
  if bool_decide (LogEntryCreate.message data = EmptyString) then
    mret (None, Some [Lit "Log message cannot be empty"])
  else if decide (65536 < Z.of_nat (String.length (LogEntryCreate.message data))) then
    mret (None, Some [Lit "Log message too long (max 64KB)"])
  else
    id ← generate_id;
    mret (Some (LogEntry.mk id (naive (LogEntryCreate.timestamp data))
                  (LogEntryCreate.service_name data) (LogEntryCreate.level data)
                  (LogEntryCreate.message data)),
          None).

(** The [for idx, x in enumerate(...)] loop of the three batch validators,
    from index [idx] on: [validate] is the validator of one item and [label]
    the word that starts an error message. *)
Fixpoint validate_batch_from {D A : Type} (validate : D → M (option A * option fstring))
    (label : string) (idx : nat) (items : list D) (result : ValidationResult A)
  : M (ValidationResult A) :=
  match items with
  | [] => mret result
  | data :: items =>
      '(item, error) ← validate data;
      let result :=
        if str_truthy error then
          mk_result (valid_items result)
            (errors result ++ [[Lit label; Fmt_int idx; Lit ": "] ++ fmt_optional error])
        else mk_result (valid_items result ++ [item]) (errors result) in
      validate_batch_from validate label (S idx) items result
  end.

Definition validate_log_batch (logs : list LogEntryCreate.t)
  : M (ValidationResult LogEntry.t) :=
  validate_batch_from validate_log_entry "Log " 0 logs (mk_result [] []).

Definition validate_metric_data_point (data : MetricDataPointCreate.t)
  : M (option MetricDataPoint.t * option fstring) :=
  '(valid, error) ← validate_timestamp (MetricDataPointCreate.timestamp data);
  if negb valid then mret (None, error) else
  let '(valid, error) :=
    validate_service_name (MetricDataPointCreate.service_name data) in
  if negb valid then mret (None, error) else
  if bool_decide (MetricDataPointCreate.metric_name data = EmptyString) then
    mret (None, Some [Lit "Metric name cannot be empty"])
  else if decide (256 < Z.of_nat (String.length (MetricDataPointCreate.metric_name data))) then
    mret (None, Some [Lit "Metric name too long (max 256 chars)"])
  else if PrimFloat.is_nan (MetricDataPointCreate.value data)
          || PrimFloat.is_infinity (MetricDataPointCreate.value data) then
    mret (None, Some [Lit "Metric value cannot be NaN or Infinity"])
  else
    id ← generate_id;
    mret (Some (MetricDataPoint.mk id (naive (MetricDataPointCreate.timestamp data))
                  (MetricDataPointCreate.service_name data)
                  (MetricDataPointCreate.metric_name data)
                  (MetricDataPointCreate.value data)),
          None).

Definition validate_metric_batch (metrics : list MetricDataPointCreate.t)
  : M (ValidationResult MetricDataPoint.t) :=
  validate_batch_from validate_metric_data_point "Metric " 0 metrics (mk_result [] []).

Definition validate_span (data : SpanCreate.t) : M (option Span.t * option fstring) :=
  '(valid, error) ← validate_timestamp (SpanCreate.start_time data);
  if negb valid then mret (None, Some ([Lit "start_time: "] ++ fmt_optional error)) else
  '(valid, error) ← validate_timestamp (SpanCreate.end_time data);
  if negb valid then mret (None, Some ([Lit "end_time: "] ++ fmt_optional error)) else
  backwards ← or_raise TypeError
                (pydatetime_lt (SpanCreate.end_time data) (SpanCreate.start_time data));
  if backwards : bool then
    mret (None, Some [Lit "end_time cannot be before start_time"])
  else
  let '(valid, error) := validate_service_name (SpanCreate.service_name data) in
  if negb valid then mret (None, error) else
  if bool_decide (SpanCreate.trace_id data = EmptyString) then
    mret (None, Some [Lit "trace_id cannot be empty"])
  else if bool_decide (SpanCreate.span_id data = EmptyString) then
    mret (None, Some [Lit "span_id cannot be empty"])
  else
    mret (Some (Span.mk (SpanCreate.trace_id data) (SpanCreate.span_id data)
                  (SpanCreate.parent_span_id data) (SpanCreate.service_name data)
                  (SpanCreate.operation_name data)
                  (naive (SpanCreate.start_time data))
                  (naive (SpanCreate.end_time data))
                  (SpanCreate.duration_ms data) (SpanCreate.status data)),
          None).

(** The first loop of [validate_trace], from index [idx] on: the validated
    spans, or the error message with which [validate_trace] returns. *)
Fixpoint validate_spans_from (idx : nat) (spans : list SpanCreate.t)
    (validated_spans : list (option Span.t))
  : M (list (option Span.t) + fstring) :=
  match spans with
  | [] => mret (inl validated_spans)
  | span_data :: spans =>
      '(span, error) ← validate_span span_data;
      if str_truthy error then
        mret (inr ([Lit "Span "; Fmt_int idx; Lit ": "] ++ fmt_optional error))
      else validate_spans_from (S idx) spans (validated_spans ++ [span])
  end.

(** The second loop of [validate_trace]: the error message of the first
    span with another [trace_id], if there is one.  Reading [trace_id] off
    [None] raises [AttributeError]. *)
Fixpoint check_trace_ids (trace_id : string) (validated_spans : list (option Span.t))
  : M (option fstring) :=
  match validated_spans with
  | [] => mret None
  | None :: _ => raise AttributeError
  | Some span :: validated_spans =>
      if bool_decide (Span.trace_id span ≠ trace_id) then
        mret (Some [Lit "Span "; Fmt_str (Span.span_id span);
                    Lit " has mismatched trace_id"])
      else check_trace_ids trace_id validated_spans
  end.

Definition validate_trace (data : TraceCreate.t) : M (option Trace.t * option fstring) :=
  if bool_decide (TraceCreate.trace_id data = EmptyString) then
    mret (None, Some [Lit "trace_id cannot be empty"])
  else if bool_decide (TraceCreate.spans data = []) then
    mret (None, Some [Lit "Trace must have at least one span"])
  else
    validated ← validate_spans_from 0 (TraceCreate.spans data) [];
    match validated with
    | inr error => mret (None, Some error)
    | inl validated_spans =>
        mismatch ← check_trace_ids (TraceCreate.trace_id data) validated_spans;
        match mismatch with
        | Some error => mret (None, Some error)
        | None =>
            (* every element was read by the second loop: none is [None] *)
            mret (Some (Trace.new (TraceCreate.trace_id data)
                          (omap id validated_spans)),
                  None)
        end
    end.

Definition validate_trace_batch (traces : list TraceCreate.t)
  : M (ValidationResult Trace.t) :=
  validate_batch_from validate_trace "Trace " 0 traces (mk_result [] []).

End clock_and_ids.
End Validators.

(** ** Ingestion routes ([app/ingestion/routes.py])

    A handler has no [await]: it runs from its first line to its [return]
    without another handler in between.  The state it works on is the module
    variable [_telemetry_store] of the repository, and the calls made so far
    of the clock and of [uuid4]. *)

Module Routes.
Import Validators.

Record process : Type := mk_process {
  _telemetry_store : option TelemetryStore.t;
  made : calls;
}.

(** The elements of a list before its first [None]. *)
Fixpoint before_none {A : Type} (items : list (option A)) : list A :=
  match items with
  | Some x :: items => x :: before_none items
  | _ => []
  end.

(** [store.add_log(item)] and the like on an [Optional] model: reading an
    attribute of [None] raises [AttributeError], before the store is
    touched. *)
Definition add_item {A B : Type} (add : TelemetryStore.t → A → TelemetryStore.t * outcome B)
    (store : TelemetryStore.t) (item : option A) : TelemetryStore.t * result B :=
  match item with
  | None => (store, Err AttributeError)
  | Some x =>
      match add store x with
      | (store, Raised e) => (store, Err (Exn e))
      | (store, Returned b) => (store, Ok b)
      end
  end.

(** [store.add_logs_batch(items)] and the like on a list of [Optional]
    models: the comprehension adds the items before the first [None], then
    raises [AttributeError] at it. *)
Definition add_items {A B : Type}
    (add_batch : TelemetryStore.t → list A → TelemetryStore.t * outcome B)
    (store : TelemetryStore.t) (items : list (option A)) : TelemetryStore.t * result B :=
  match add_batch store (before_none items) with
  | (store, Raised e) => (store, Err (Exn e))
  | (store, Returned b) =>
      if forallb (λ item, bool_decide (is_Some item)) items then (store, Ok b)
      else (store, Err AttributeError)
  end.

Section handlers.
Context (settings : Settings.t) (utcnow : nat → datetime) (uuid4 : nat → string).

(** The body shared by [ingest_log], [ingest_metric] and [ingest_trace].
    [store] names the object that the module variable refers to from
    [get_telemetry_store()] on, so the variable sees what [add] does. *)
Definition ingest_one {D A : Type} (validate : D → M (option A * option fstring))
    (add : TelemetryStore.t → A → TelemetryStore.t * outcome string)
    (data : D) (p : process) : process * result IngestResponse.t :=
  match get_telemetry_store settings (_telemetry_store p) with
  | (variable, Raised e) => (mk_process variable (made p), Err (Exn e))
  | (_, Returned store) =>
      match validate data (made p) with
      | (c, Err e) => (mk_process (Some store) c, Err e)
      | (c, Ok (item, error)) =>
          if str_truthy error then
            (mk_process (Some store) c,
             Ok (IngestResponse.mk false 0 1 (option_list error)))
          else
            match add_item add store item with
            | (store, Err e) => (mk_process (Some store) c, Err e)
            | (store, Ok _) =>
                (mk_process (Some store) c, Ok (IngestResponse.mk true 1 0 []))
            end
      end
  end.

Definition ingest_log : LogEntryCreate.t → process → process * result IngestResponse.t :=
  ingest_one (validate_log_entry utcnow uuid4) TelemetryStore.add_log.

Definition ingest_metric
  : MetricDataPointCreate.t → process → process * result IngestResponse.t :=
  ingest_one (validate_metric_data_point utcnow uuid4) TelemetryStore.add_metric.

Definition ingest_trace : TraceCreate.t → process → process * result IngestResponse.t :=
  ingest_one (validate_trace utcnow) TelemetryStore.add_trace.

(** The response of the three batch handlers. *)
Definition batch_response {A : Type} (result : ValidationResult A) : IngestResponse.t :=
  IngestResponse.mk (bool_decide (0 < success_count result)%nat)
    (Z.of_nat (success_count result)) (Z.of_nat (error_count result))
    (take 10 (errors result)).

(** The body shared by [ingest_logs_batch], [ingest_metrics_batch] and
    [ingest_traces_batch]. *)
Definition ingest_batch {D A : Type} (validate_batch : list D → M (ValidationResult A))
    (add_batch : TelemetryStore.t → list A → TelemetryStore.t * outcome (list string))
    (batch : list D) (p : process) : process * result IngestResponse.t :=
  match get_telemetry_store settings (_telemetry_store p) with
  | (variable, Raised e) => (mk_process variable (made p), Err (Exn e))
  | (_, Returned store) =>
      match validate_batch batch (made p) with
      | (c, Err e) => (mk_process (Some store) c, Err e)
      | (c, Ok result) =>
          match valid_items result with
          | [] => (mk_process (Some store) c, Ok (batch_response result))
          | _ :: _ =>
              match add_items add_batch store (valid_items result) with
              | (store, Err e) => (mk_process (Some store) c, Err e)
              | (store, Ok _) => (mk_process (Some store) c, Ok (batch_response result))
              end
          end
      end
  end.

Definition ingest_logs_batch
  : list LogEntryCreate.t → process → process * result IngestResponse.t :=
  ingest_batch (validate_log_batch utcnow uuid4) TelemetryStore.add_logs_batch.

Definition ingest_metrics_batch
  : list MetricDataPointCreate.t → process → process * result IngestResponse.t :=
  ingest_batch (validate_metric_batch utcnow uuid4) TelemetryStore.add_metrics_batch.

Definition ingest_traces_batch
  : list TraceCreate.t → process → process * result IngestResponse.t :=
  ingest_batch (validate_trace_batch utcnow) TelemetryStore.add_traces_batch.

Definition get_ingestion_stats (p : process)
  : process * result TelemetryStore.stats_report :=
  match get_telemetry_store settings (_telemetry_store p) with
  | (variable, Raised e) => (mk_process variable (made p), Err (Exn e))
  | (variable, Returned store) =>
      (mk_process variable (made p), Ok (TelemetryStore.get_stats store))
  end.

Definition get_services (p : process) : process * result (list string) :=
  match get_telemetry_store settings (_telemetry_store p) with
  | (variable, Raised e) => (mk_process variable (made p), Err (Exn e))
  | (variable, Returned store) =>
      (mk_process variable (made p), Ok (TelemetryStore.get_services store))
  end.

End handlers.
End Routes.

(** Every character of [w] is in the class [[a-zA-Z0-9_-]]. *)
Fixpoint all_name_chars (w : string) : bool :=
  match w with
  | String c w => Validators.name_char c && all_name_chars w
  | EmptyString => true
  end.

(** What a validator may do: return a model and no error, return no model
    and an error message that is not empty, or raise [TypeError] or
    [OverflowError]. *)
Definition validator_outcome {A : Type}
    (r : Validators.result (option A * option fstring)) : Prop :=
  match r with
  | Validators.Ok (Some _, None) => True
  | Validators.Ok (None, Some error) => str_truthy (Some error) = true
  | Validators.Ok _ => False
  | Validators.Err e => e = Validators.TypeError ∨ e = Validators.Exn OverflowError
  end.

(** The models that the validators build from a request they accept. *)
Definition log_model (id : string) (data : LogEntryCreate.t) : LogEntry.t :=
  LogEntry.mk id (naive (LogEntryCreate.timestamp data))
    (LogEntryCreate.service_name data) (LogEntryCreate.level data)
    (LogEntryCreate.message data).

Definition metric_model (id : string) (data : MetricDataPointCreate.t)
  : MetricDataPoint.t :=
  MetricDataPoint.mk id (naive (MetricDataPointCreate.timestamp data))
    (MetricDataPointCreate.service_name data) (MetricDataPointCreate.metric_name data)
    (MetricDataPointCreate.value data).

Definition span_model (data : SpanCreate.t) : Span.t :=
  Span.mk (SpanCreate.trace_id data) (SpanCreate.span_id data)
    (SpanCreate.parent_span_id data) (SpanCreate.service_name data)
    (SpanCreate.operation_name data) (naive (SpanCreate.start_time data))
    (naive (SpanCreate.end_time data)) (SpanCreate.duration_ms data)
    (SpanCreate.status data).

(** A naive timestamp between seven days before and five minutes after
    [now], both included. *)
Definition timely (now : datetime) (timestamp : pydatetime) : Prop :=
  ∃ t, timestamp = Naive t ∧
       now - Validators.days 7 ≤ t ≤ now + Validators.minutes 5.

Definition acceptable_log (now : datetime) (data : LogEntryCreate.t) : Prop :=
  timely now (LogEntryCreate.timestamp data) ∧
  Validators.validate_service_name (LogEntryCreate.service_name data) = (true, None) ∧
  LogEntryCreate.message data ≠ EmptyString ∧
  Z.of_nat (String.length (LogEntryCreate.message data)) ≤ 65536.

Definition acceptable_metric (now : datetime) (data : MetricDataPointCreate.t) : Prop :=
  timely now (MetricDataPointCreate.timestamp data) ∧
  Validators.validate_service_name (MetricDataPointCreate.service_name data)
    = (true, None) ∧
  MetricDataPointCreate.metric_name data ≠ EmptyString ∧
  Z.of_nat (String.length (MetricDataPointCreate.metric_name data)) ≤ 256 ∧
  PrimFloat.is_nan (MetricDataPointCreate.value data) = false ∧
  PrimFloat.is_infinity (MetricDataPointCreate.value data) = false.

(** [now] and [later] are the two readings of the clock that [validate_span]
    makes, for the start and for the end of the span. *)
Definition acceptable_span (now later : datetime) (data : SpanCreate.t) : Prop :=
  timely now (SpanCreate.start_time data) ∧
  timely later (SpanCreate.end_time data) ∧
  naive (SpanCreate.start_time data) ≤ naive (SpanCreate.end_time data) ∧
  Validators.validate_service_name (SpanCreate.service_name data) = (true, None) ∧
  SpanCreate.trace_id data ≠ EmptyString ∧
  SpanCreate.span_id data ≠ EmptyString.

(** Every reading of the clock is at least seven days after [datetime.min]
    and five minutes before [datetime.max]. *)
Definition clock_in_range (utcnow : nat → datetime) : Prop :=
  ∀ n, Validators.days 7 ≤ utcnow n ∧ utcnow n + Validators.minutes 5 ≤ datetime_max.

(** The trace has an id and at least one span; every span carries the id of
    the trace and is acceptable at the two readings of the clock that its
    validation makes, the first of all being reading [n]. *)
Definition acceptable_trace (utcnow : nat → datetime) (n : nat) (data : TraceCreate.t)
  : Prop :=
  TraceCreate.trace_id data ≠ EmptyString ∧
  TraceCreate.spans data ≠ [] ∧
  ∀ (k : nat) (span_data : SpanCreate.t),
    TraceCreate.spans data !! k = Some span_data →
    acceptable_span (utcnow (n + 2 * k)%nat) (utcnow (S (n + 2 * k))) span_data ∧
    SpanCreate.trace_id span_data = TraceCreate.trace_id data.

(** Example requests, validated at a clock that stands still and with the
    identifiers [a], [b], [c], ... *)
Definition example_now : datetime := Validators.days 738000.

Definition example_utcnow (n : nat) : datetime := example_now.

Definition example_uuid4 (n : nat) : string :=
  String (Ascii.ascii_of_nat (97 + n)) EmptyString.

Definition good_log : LogEntryCreate.t :=
  LogEntryCreate.mk (Naive example_now) "api" ERROR "boom".

Definition stale_log : LogEntryCreate.t :=
  LogEntryCreate.mk (Naive (example_now - Validators.days 8)) "api" INFO "old".

Definition aware_log : LogEntryCreate.t :=
  LogEntryCreate.mk (Aware example_now 0) "api" INFO "hello".

Definition good_metric : MetricDataPointCreate.t :=
  MetricDataPointCreate.mk (Naive example_now) "api" "latency" 12.5%float.

Definition good_span : SpanCreate.t :=
  SpanCreate.mk "t1" "s1" None "gateway" "GET /"
    (Naive (example_now - Validators.minutes 1)) (Naive example_now)
    60000%float SpanStatus.OK.

Definition good_trace : TraceCreate.t := TraceCreate.mk "t1" [good_span].

Definition new_process : Routes.process :=
  Routes.mk_process None (Validators.mk_calls 0 0).

(** The logs that the calls add, in the order of the calls. *)
Definition added_logs (calls : list call) : list LogEntry.t :=
  calls ≫= λ c, match c with AddLog log => [log] | _ => [] end.

(** The services in the order in which each first received a log since the
    store was created or last cleared. *)
Definition services_by_first_log (calls : list call) : list string :=
  foldl (λ services c,
           match c with
           | AddLog log =>
               if decide (LogEntry.service_name log ∈ services) then services
               else services ++ [LogEntry.service_name log]
           | Clear => []
           | AddMetric _ | AddTrace _ | Cleanup _ => services
           end)
        [] calls.

(** A log that a clear removes, then three logs with one timestamp, a sweep
    that keeps them standing between the second and the third. *)
Definition interleaved_calls : list call :=
  [AddLog (log_at "l0" 1 "B"); Clear;
   AddLog (log_at "l1" 100000000001 "A"); AddLog (log_at "l2" 100000000001 "B");
   Cleanup 150000000000;
   AddLog (log_at "l3" 100000000001 "A")].

(** * Properties *)

(** ** Ordered dictionaries *)

Section odict_facts.
Context {V : Type}.
Implicit Types (d : odict V) (k : string) (v : V).

Lemma get_None k d : OrderedDict.get k d = None ↔ k ∉ OrderedDict.keys d.
Proof.
  induction d as [|[k' v'] d IH]; simpl.
  - split; [intros _; apply not_elem_of_nil | done].
  - rewrite not_elem_of_cons. destruct (decide (k = k')) as [->|Hne].
    + split; [done|]. by intros [? _].
    + rewrite IH. split; [done|]. by intros [_ ?].
Qed.

Lemma get_Some_elem k v d : OrderedDict.get k d = Some v → (k, v) ∈ d.
Proof.
  induction d as [|[k' v'] d IH]; simpl; [done|].
  destruct (decide (k = k')) as [->|]; intros H.
  - injection H as ->. left.
  - right. auto.
Qed.

Lemma elem_get_Some k v d : OrderedDict.wf d → (k, v) ∈ d → OrderedDict.get k d = Some v.
Proof.
  unfold OrderedDict.wf, OrderedDict.keys.
  induction d as [|[k' v'] d IH]; simpl; intros Hwf Hin.
  - by apply elem_of_nil in Hin.
  - apply NoDup_cons in Hwf as [Hk' Hwf].
    apply elem_of_cons in Hin as [Heq|Hin].
    + injection Heq as -> ->. by rewrite decide_True.
    + destruct (decide (k = k')) as [->|]; [|auto].
      exfalso. apply Hk'. change k' with ((k', v).1). by apply list_elem_of_fmap_2.
Qed.

Lemma get_set_eq k v d : OrderedDict.get k (OrderedDict.set k v d) = Some v.
Proof.
  induction d as [|[k' v'] d IH]; simpl.
  - by rewrite decide_True.
  - destruct (decide (k = k')) as [->|Hne]; simpl.
    + by rewrite decide_True.
    + by rewrite decide_False.
Qed.

Lemma get_set_ne k k' v d :
  k ≠ k' → OrderedDict.get k' (OrderedDict.set k v d) = OrderedDict.get k' d.
Proof.
  intros Hne. induction d as [|[k0 v0] d IH]; simpl.
  - by rewrite decide_False.
  - destruct (decide (k = k0)) as [->|]; simpl.
    + by rewrite !decide_False.
    + by rewrite IH.
Qed.

Lemma set_absent k v d : OrderedDict.get k d = None → OrderedDict.set k v d = d ++ [(k, v)].
Proof.
  induction d as [|[k' v'] d IH]; simpl; [done|].
  destruct (decide (k = k')); [done|]. intros H. by rewrite IH.
Qed.

Lemma keys_set_present k v d :
  is_Some (OrderedDict.get k d) →
  OrderedDict.keys (OrderedDict.set k v d) = OrderedDict.keys d.
Proof.
  unfold OrderedDict.keys.
  induction d as [|[k' v'] d IH]; simpl; [by intros [? ?]|].
  destruct (decide (k = k')) as [->|]; [done|].
  intros H. rewrite !fmap_cons. f_equal. by apply IH.
Qed.

Lemma length_set_present k v d :
  is_Some (OrderedDict.get k d) → length (OrderedDict.set k v d) = length d.
Proof.
  intros H. apply keys_set_present with (v := v) in H.
  unfold OrderedDict.keys in H.
  apply (f_equal length) in H. by rewrite !length_fmap in H.
Qed.

Lemma wf_set k v d : OrderedDict.wf d → OrderedDict.wf (OrderedDict.set k v d).
Proof.
  unfold OrderedDict.wf. intros Hwf.
  destruct (OrderedDict.get k d) as [v0|] eqn:Hget.
  - by rewrite keys_set_present.
  - rewrite set_absent by done. unfold OrderedDict.keys in *.
    rewrite fmap_app. simpl. apply NoDup_app. split; [done|].
    split; [|apply NoDup_singleton].
    intros x Hx ->%list_elem_of_singleton. by apply get_None in Hget.
Qed.

Lemma set_not_nil k v d : OrderedDict.set k v d ≠ [].
Proof. destruct d as [|[k' v'] d]; simpl; [done|]. by destruct (decide (k = k')). Qed.

Lemma del_head k v d : OrderedDict.del k ((k, v) :: d) = Some d.
Proof. simpl. by rewrite decide_True. Qed.

End odict_facts.

(** ** The derived fields of a trace *)

Lemma first_root_head (spans : list Span.t) :
  Trace.first_root spans = head (Trace.root_spans spans).
Proof.
  unfold Trace.root_spans. induction spans as [|span rest IH]; simpl; [done|].
  rewrite filter_cons. destruct (Span.parent_span_id span) eqn:Hp.
  - rewrite decide_False by done. exact IH.
  - by rewrite decide_True.
Qed.

Lemma root_spans_split (pre post : list Span.t) (root : Span.t) :
  Forall (λ s, Span.parent_span_id s ≠ None) pre →
  Span.parent_span_id root = None →
  Trace.root_spans (pre ++ root :: post) = root :: Trace.root_spans post.
Proof.
  unfold Trace.root_spans. intros Hpre Hroot.
  rewrite filter_app, filter_cons, decide_True by done.
  induction Hpre as [|s pre Hs _ IH]; simpl; [done|].
  by rewrite filter_cons, decide_False.
Qed.

Lemma root_spans_none (spans : list Span.t) :
  Forall (λ s, Span.parent_span_id s ≠ None) spans → Trace.root_spans spans = [].
Proof.
  unfold Trace.root_spans. induction 1 as [|s l Hs _ IH]; [done|].
  by rewrite filter_cons, decide_False.
Qed.

Lemma any_error_spec (spans : list Span.t) :
  Trace.any_error spans = true ↔
  ∃ span, span ∈ spans ∧ Span.status span = SpanStatus.ERROR.
Proof.
  unfold Trace.any_error. rewrite existsb_exists. split.
  - intros (span & Hin & Hst). exists span. split; [by apply list_elem_of_In|].
    by apply bool_decide_eq_true in Hst.
  - intros (span & Hin & Hst). exists span. split; [by apply list_elem_of_In|].
    by apply bool_decide_eq_true.
Qed.

Lemma new_fields (trace_id : string) (spans : list Span.t) :
  spans ≠ [] →
  Trace.new trace_id spans =
    Trace.mk trace_id spans
      (Span.service_name <$> head (Trace.root_spans spans))
      (from_option Span.duration_ms 0%float (head (Trace.root_spans spans)))
      (Trace.any_error spans).
Proof.
  intros Hne. unfold Trace.new, Trace.model_post_init. simpl.
  destruct spans as [|span rest]; [done|].
  rewrite first_root_head. by destruct (Trace.root_spans (span :: rest)).
Qed.

(** C7.  A trace built from a non-empty span list has, as root service, the
    service of the first span without a parent (none when every span has a
    parent); as total duration, the duration of that span (0 when there is
    none); and its error flag is set exactly when some span has status error.
    A parentless span of 500 ms followed by a child in error gives the flag,
    the root's service and 500. *)
Theorem trace_derived_fields (trace_id : string) (spans : list Span.t) :
  spans ≠ [] →
  let trace := Trace.new trace_id spans in
  Trace.trace_id trace = trace_id ∧
  Trace.spans trace = spans ∧
  (∀ pre root post,
     spans = pre ++ root :: post →
     Forall (λ s, Span.parent_span_id s ≠ None) pre →
     Span.parent_span_id root = None →
     Trace.root_service trace = Some (Span.service_name root) ∧
     Trace.total_duration_ms trace = Span.duration_ms root) ∧
  (Forall (λ s, Span.parent_span_id s ≠ None) spans →
     Trace.root_service trace = None ∧ Trace.total_duration_ms trace = 0%float) ∧
  (Trace.has_error trace = true ↔
     ∃ span, span ∈ spans ∧ Span.status span = SpanStatus.ERROR) ∧
  (∀ root child,
     spans = [root; child] →
     Span.parent_span_id root = None →
     Span.duration_ms root = 500%float →
     Span.status child = SpanStatus.ERROR →
     Trace.has_error trace = true ∧
     Trace.root_service trace = Some (Span.service_name root) ∧
     Trace.total_duration_ms trace = 500%float).
Proof.
  intros Hne trace. subst trace. rewrite new_fields by done. simpl.
  split; [done|]. split; [done|]. split; [|split; [|split]].
  - intros pre root post -> Hpre Hroot. by rewrite root_spans_split.
  - intros Hall. by rewrite root_spans_none.
  - apply any_error_spec.
  - intros root child -> Hroot Hdur Herr.
    pose proof (root_spans_split [] [child] root (Forall_nil_2 _) Hroot) as Hrs.
    change ([] ++ root :: [child]) with [root; child] in Hrs. rewrite Hrs.
    split; [|done]. apply any_error_spec. exists child. split; [|done].
    apply elem_of_cons. right. apply list_elem_of_singleton. done.
Qed.

Lemma trace_derived_fields_witness :
  [root_span; child_span] ≠ [] ∧
  Trace.has_error (Trace.new "t1" [root_span; child_span]) = true ∧
  Trace.root_service (Trace.new "t1" [root_span; child_span]) = Some "gateway" ∧
  Trace.total_duration_ms (Trace.new "t1" [root_span; child_span]) = 500%float.
Proof.
  split; [discriminate|].
  pose proof (trace_derived_fields "t1" [root_span; child_span]) as H.
  cbv zeta in H. destruct H as (_ & _ & _ & _ & _ & H); [discriminate|].
  exact (H root_span child_span eq_refl eq_refl eq_refl eq_refl).
Defined.

(** ** Construction *)

(** A constructed store is empty, with the counters at zero. *)
Lemma init_empty (settings : Settings.t)
    (retention_hours max_logs_per_service max_metrics_per_service max_traces : option Z)
    (self : TelemetryStore.t) :
  TelemetryStore.__init__ settings retention_hours
    max_logs_per_service max_metrics_per_service max_traces = Returned self →
  self = empty_store (TelemetryStore._retention self) (TelemetryStore._max_logs self)
           (TelemetryStore._max_metrics self) (TelemetryStore._max_traces self).
Proof.
  unfold TelemetryStore.__init__. destruct (timedelta_hours _); [|discriminate].
  by intros [= <-].
Qed.

Example default_store_init :
  TelemetryStore.__init__ Settings.defaults None None None None = Returned default_store.
Proof. reflexivity. Qed.

Example small_store_init :
  TelemetryStore.__init__ Settings.defaults None (Some 3) (Some 3) (Some 2)
    = Returned small_store.
Proof. reflexivity. Qed.

Lemma or_int_zero (d : Z) : or_int (Some 0) d = d.
Proof. reflexivity. Qed.

Lemma or_int_nonzero (x : option Z) (d : Z) : d ≠ 0 → or_int x d ≠ 0.
Proof.
  intros Hd. unfold or_int. destruct x as [v|]; [|done].
  by destruct (decide (v = 0)).
Qed.

Lemma timedelta_hours_Some (h : Z) (r : timedelta) :
  timedelta_hours h = Some r → r = h * 3600000000.
Proof. unfold timedelta_hours. destruct (decide _); congruence. Qed.

(** C10.  An argument of the constructor given as 0 is replaced by the value
    of the configuration, exactly as an omitted argument is; so the horizon
    and the three bounds of a constructed store are non-zero whenever the
    configured values are. *)
Theorem zero_argument_takes_default (settings : Settings.t)
    (retention_hours max_logs_per_service max_metrics_per_service max_traces : option Z) :
  TelemetryStore.__init__ settings (Some 0)
      max_logs_per_service max_metrics_per_service max_traces
    = TelemetryStore.__init__ settings None
        max_logs_per_service max_metrics_per_service max_traces ∧
  TelemetryStore.__init__ settings retention_hours
      (Some 0) max_metrics_per_service max_traces
    = TelemetryStore.__init__ settings retention_hours
        None max_metrics_per_service max_traces ∧
  TelemetryStore.__init__ settings retention_hours
      max_logs_per_service (Some 0) max_traces
    = TelemetryStore.__init__ settings retention_hours
        max_logs_per_service None max_traces ∧
  TelemetryStore.__init__ settings retention_hours
      max_logs_per_service max_metrics_per_service (Some 0)
    = TelemetryStore.__init__ settings retention_hours
        max_logs_per_service max_metrics_per_service None ∧
  ∀ self,
    TelemetryStore.__init__ settings retention_hours
      max_logs_per_service max_metrics_per_service max_traces = Returned self →
    (retention_hours = Some 0 →
       TelemetryStore._retention self
         = Settings.telemetry_retention_hours settings * 3600000000) ∧
    (max_logs_per_service = Some 0 →
       TelemetryStore._max_logs self = Settings.max_logs_per_service settings) ∧
    (max_metrics_per_service = Some 0 →
       TelemetryStore._max_metrics self = Settings.max_metrics_per_service settings) ∧
    (max_traces = Some 0 →
       TelemetryStore._max_traces self = Settings.max_traces settings) ∧
    (Settings.telemetry_retention_hours settings ≠ 0 →
       TelemetryStore._retention self ≠ 0) ∧
    (Settings.max_logs_per_service settings ≠ 0 → TelemetryStore._max_logs self ≠ 0) ∧
    (Settings.max_metrics_per_service settings ≠ 0 →
       TelemetryStore._max_metrics self ≠ 0) ∧
    (Settings.max_traces settings ≠ 0 → TelemetryStore._max_traces self ≠ 0).
Proof.
  repeat (split; [reflexivity|]).
  intros self. unfold TelemetryStore.__init__.
  destruct (timedelta_hours _) as [retention|] eqn:Hr; [|discriminate].
  apply timedelta_hours_Some in Hr. intros [= <-]. simpl.
  repeat split.
  - intros ->. by rewrite Hr.
  - by intros ->.
  - by intros ->.
  - by intros ->.
  - intros Hd. rewrite Hr. apply (or_int_nonzero retention_hours) in Hd. lia.
  - apply or_int_nonzero.
  - apply or_int_nonzero.
  - apply or_int_nonzero.
Qed.

Lemma zero_argument_takes_default_witness :
  ∃ self,
    TelemetryStore.__init__ Settings.defaults (Some 0) (Some 0) (Some 0) (Some 0)
      = Returned self ∧
    TelemetryStore._retention self = 24 * 3600000000 ∧
    TelemetryStore._max_logs self = 100000 ∧
    TelemetryStore._max_metrics self = 100000 ∧
    TelemetryStore._max_traces self = 50000 ∧
    TelemetryStore._retention self ≠ 0 ∧
    TelemetryStore._max_logs self ≠ 0 ∧
    TelemetryStore._max_metrics self ≠ 0 ∧
    TelemetryStore._max_traces self ≠ 0.
Proof.
  destruct (zero_argument_takes_default Settings.defaults
              (Some 0) (Some 0) (Some 0) (Some 0)) as (_ & _ & _ & _ & H).
  destruct (TelemetryStore.__init__ Settings.defaults
              (Some 0) (Some 0) (Some 0) (Some 0)) as [self|e] eqn:Hinit;
    [|vm_compute in Hinit; discriminate Hinit].
  exists self. split; [reflexivity|].
  specialize (H self eq_refl).
  destruct H as (H1 & H2 & H3 & H4 & H5 & H6 & H7 & H8).
  repeat split.
  - exact (H1 eq_refl).
  - exact (H2 eq_refl).
  - exact (H3 eq_refl).
  - exact (H4 eq_refl).
  - apply H5. discriminate.
  - apply H6. discriminate.
  - apply H7. discriminate.
  - apply H8. discriminate.
Defined.

(** ** Clearing the store *)

(** C8.  [clear] empties the three collections, both by-id indexes and the
    service registry and leaves the ingested counters as they were: the
    statistics then report no stored record, no service, and the counters of
    before. *)
Theorem clear_keeps_ingested_counters (self : TelemetryStore.t) :
  let self' := TelemetryStore.clear self in
  TelemetryStore._logs self' = [] ∧
  TelemetryStore._metrics self' = [] ∧
  TelemetryStore._traces self' = [] ∧
  TelemetryStore._logs_by_id self' = ∅ ∧
  TelemetryStore._metrics_by_id self' = ∅ ∧
  TelemetryStore._services self' = ∅ ∧
  TelemetryStore._stats self' = TelemetryStore._stats self ∧
  TelemetryStore.get_stats self' =
    {| TelemetryStore.report_logs_ingested :=
         TelemetryStore.logs_ingested (TelemetryStore._stats self);
       TelemetryStore.report_metrics_ingested :=
         TelemetryStore.metrics_ingested (TelemetryStore._stats self);
       TelemetryStore.report_traces_ingested :=
         TelemetryStore.traces_ingested (TelemetryStore._stats self);
       TelemetryStore.services_count := 0;
       TelemetryStore.logs_stored := 0;
       TelemetryStore.metrics_stored := 0;
       TelemetryStore.traces_stored := 0 |}.
Proof.
  cbv zeta. repeat (split; [reflexivity|]).
  unfold TelemetryStore.get_stats, TelemetryStore.clear; cbn [TelemetryStore._services
    TelemetryStore._logs TelemetryStore._metrics TelemetryStore._traces
    TelemetryStore._stats TelemetryStore.set_services TelemetryStore.set_logs
    TelemetryStore.set_metrics TelemetryStore.set_traces
    TelemetryStore.set_logs_by_id TelemetryStore.set_metrics_by_id].
  rewrite size_empty. reflexivity.
Qed.

(** ** Empty filters *)

(** C9.  An empty list given as a filter of a window query is no filter: the
    query returns what it returns when the argument is omitted, for the
    services and the levels of the log query and for the services and the
    metric names of the metric query. *)
Theorem empty_filter_is_no_filter (self : TelemetryStore.t) (start end_ : datetime)
    (services levels metric_names : option (list string)) :
  TelemetryStore.get_logs_in_window self start end_ (Some []) levels
    = TelemetryStore.get_logs_in_window self start end_ None levels ∧
  TelemetryStore.get_logs_in_window self start end_ services (Some [])
    = TelemetryStore.get_logs_in_window self start end_ services None ∧
  TelemetryStore.get_logs_in_window self start end_ (Some []) None
    = TelemetryStore.get_logs_in_window self start end_
        (Some (OrderedDict.keys (TelemetryStore._logs self))) None ∧
  TelemetryStore.get_metrics_in_window self start end_ (Some []) metric_names
    = TelemetryStore.get_metrics_in_window self start end_ None metric_names ∧
  TelemetryStore.get_metrics_in_window self start end_ services (Some [])
    = TelemetryStore.get_metrics_in_window self start end_ services None.
Proof.
  repeat split; try reflexivity.
  unfold TelemetryStore.get_logs_in_window, TelemetryStore.scan_logs. f_equal.
  simpl. by destruct (OrderedDict.keys (TelemetryStore._logs self)).
Qed.

(** ** The sweep and the by-id indexes *)

Lemma cleanup_frames_indexes (self : TelemetryStore.t) (utcnow : datetime) :
  TelemetryStore._logs_by_id (TelemetryStore.cleanup_old_data self utcnow).1
    = TelemetryStore._logs_by_id self ∧
  TelemetryStore._metrics_by_id (TelemetryStore.cleanup_old_data self utcnow).1
    = TelemetryStore._metrics_by_id self.
Proof.
  unfold TelemetryStore.cleanup_old_data.
  destruct (datetime_sub _ _); [|done].
  destruct (TelemetryStore.sweep LogEntry.timestamp _ _).
  destruct (TelemetryStore.sweep MetricDataPoint.timestamp _ _).
  destruct (TelemetryStore.del_traces _ _) as [? [?|]]; done.
Qed.

(** C1 (the code departs from it).  The sweep never touches the two by-id
    indexes.  With the shipped configuration, a log and a metric point of
    service checkout that are older than the horizon are swept from the lists
    of their service, and the lookups by their identifiers still return them,
    unlike the lookup of an identifier that never existed. *)
Theorem sweep_leaves_records_in_index :
  (∀ (self : TelemetryStore.t) (utcnow : datetime) (log_id metric_id : string),
     TelemetryStore.get_log_by_id
       (TelemetryStore.cleanup_old_data self utcnow).1 log_id
       = TelemetryStore.get_log_by_id self log_id ∧
     TelemetryStore.get_metric_by_id
       (TelemetryStore.cleanup_old_data self utcnow).1 metric_id
       = TelemetryStore.get_metric_by_id self metric_id) ∧
  ∃ self0,
    TelemetryStore.__init__ Settings.defaults None None None None = Returned self0 ∧
    let self1 := (TelemetryStore.add_log self0 old_log).1 in
    let self2 := (TelemetryStore.add_metric self1 old_metric).1 in
    let swept := TelemetryStore.cleanup_old_data self2 200000000000 in
    swept.2 = Returned (TelemetryStore.mk_removed 1 1 0) ∧
    TelemetryStore._logs swept.1 = [("checkout", [])] ∧
    TelemetryStore._metrics swept.1 = [("checkout", [])] ∧
    TelemetryStore.get_log_by_id swept.1 "log-1" = Some old_log ∧
    TelemetryStore.get_metric_by_id swept.1 "metric-1" = Some old_metric ∧
    TelemetryStore.get_log_by_id swept.1 "log-2" = None.
Proof.
  split.
  - intros self utcnow log_id metric_id.
    unfold TelemetryStore.get_log_by_id, TelemetryStore.get_metric_by_id.
    destruct (cleanup_frames_indexes self utcnow) as [-> ->]. done.
  - eexists. split; [reflexivity|]. vm_compute. repeat split.
Qed.

(** ** Sorting by a key *)

Section sorted_facts.
Context {A : Type} (key : A → Z).

Lemma insert_by_Permutation (x : A) (l : list A) : insert_by key x l ≡ₚ x :: l.
Proof.
  induction l as [|y l IH]; simpl; [done|].
  destruct (decide (key x ≤ key y)); [done|].
  rewrite IH. apply Permutation_swap.
Qed.

Lemma sorted_Permutation (l : list A) : sorted key l ≡ₚ l.
Proof.
  unfold sorted. induction l as [|x l IH]; simpl; [done|].
  by rewrite insert_by_Permutation, IH.
Qed.

Lemma elem_of_sorted (x : A) (l : list A) : x ∈ sorted key l ↔ x ∈ l.
Proof. by rewrite sorted_Permutation. Qed.

Lemma insert_by_StronglySorted (x : A) (l : list A) :
  StronglySorted (key_le key) l → StronglySorted (key_le key) (insert_by key x l).
Proof.
  induction 1 as [|y l Hs IH Hall]; simpl.
  - repeat constructor.
  - destruct (decide (key x ≤ key y)) as [Hle|Hgt].
    + constructor; [by constructor|].
      constructor; [done|].
      eapply Forall_impl; [exact Hall|]. unfold key_le. intros z Hz. lia.
    + constructor; [done|].
      rewrite insert_by_Permutation. constructor; [|done]. unfold key_le. lia.
Qed.

Lemma sorted_StronglySorted (l : list A) : StronglySorted (key_le key) (sorted key l).
Proof.
  unfold sorted. induction l as [|x l IH]; simpl; [constructor|].
  by apply insert_by_StronglySorted.
Qed.

(** Stability: the entries with a given key come out in the order they went in. *)
Lemma insert_by_stable (t : Z) (x : A) (l : list A) :
  filter (λ a, key a = t) (insert_by key x l) = filter (λ a, key a = t) (x :: l).
Proof.
  induction l as [|y l IH]; simpl; [done|].
  destruct (decide (key x ≤ key y)) as [Hle|Hgt]; [done|].
  rewrite filter_cons, IH, !filter_cons.
  destruct (decide (key y = t)) as [Hy|Hy]; [|done].
  destruct (decide (key x = t)) as [Hx|Hx]; [lia|done].
Qed.

Lemma sorted_stable (t : Z) (l : list A) :
  filter (λ a, key a = t) (sorted key l) = filter (λ a, key a = t) l.
Proof.
  unfold sorted. induction l as [|x l IH]; simpl; [done|].
  by rewrite insert_by_stable, !filter_cons, IH.
Qed.

(** A stable sort has one result: a list sorted by the key that keeps, for
    every key, the entries of [l] with that key in their order is [sorted key l],
    whatever algorithm produced it. *)
Lemma sorted_lists_equal (l1 l2 : list A) :
  StronglySorted (key_le key) l1 →
  StronglySorted (key_le key) l2 →
  (∀ t, filter (λ a, key a = t) l1 = filter (λ a, key a = t) l2) →
  l1 = l2.
Proof.
  intros Hs1. revert l2. induction Hs1 as [|x l1 Hs1 IH Hx]; intros l2 Hs2 Heq.
  - destruct l2 as [|y l2]; [done|].
    specialize (Heq (key y)). by rewrite filter_cons, decide_True in Heq.
  - destruct Hs2 as [|y l2 Hs2 Hy].
    { specialize (Heq (key x)). by rewrite filter_cons, decide_True in Heq. }
    assert (Hkey : key x = key y).
    { assert (key y ≤ key x).
      { assert (Hin : x ∈ y :: l2).
        { eapply (list_elem_of_filter (λ a, key a = key x)).
          rewrite <-Heq, filter_cons, decide_True by done. left. }
        apply elem_of_cons in Hin as [->|Hin]; [lia|].
        rewrite Forall_forall in Hy. by apply Hy. }
      assert (key x ≤ key y).
      { assert (Hin : y ∈ x :: l1).
        { eapply (list_elem_of_filter (λ a, key a = key y)).
          rewrite Heq, filter_cons, decide_True by done. left. }
        apply elem_of_cons in Hin as [->|Hin]; [lia|].
        rewrite Forall_forall in Hx. by apply Hx. }
      lia. }
    assert (Hhead : x = y).
    { specialize (Heq (key x)). rewrite !filter_cons in Heq.
      rewrite decide_True in Heq by done. rewrite decide_True in Heq by done.
      congruence. }
    subst y. f_equal. apply IH; [done|]. intros t. specialize (Heq t).
    rewrite !filter_cons in Heq. destruct (decide (key x = t)); congruence.
Qed.

Lemma stable_sort_unique (l l' : list A) :
  StronglySorted (key_le key) l' →
  (∀ t, filter (λ a, key a = t) l' = filter (λ a, key a = t) l) →
  l' = sorted key l.
Proof.
  intros Hs Hstable. apply sorted_lists_equal; [done|apply sorted_StronglySorted|].
  intros t. by rewrite Hstable, sorted_stable.
Qed.

End sorted_facts.

(** ** Window queries *)

Lemma log_selected_spec (start end_ : datetime) (levels : option (list string))
    (log : LogEntry.t) :
  TelemetryStore.log_selected start end_ levels log = true ↔
  start ≤ LogEntry.timestamp log ≤ end_ ∧
  (truthy levels = true → LogLevel_value (LogEntry.level log) ∈ default [] levels).
Proof.
  unfold TelemetryStore.log_selected.
  destruct (decide (start ≤ LogEntry.timestamp log ≤ end_)) as [Hin|Hout].
  - rewrite (bool_decide_eq_true_2 _ Hin). simpl.
    destruct (truthy levels); simpl.
    + destruct (decide (LogLevel_value (LogEntry.level log) ∈ default [] levels)).
      * rewrite bool_decide_eq_true_2 by done. simpl. tauto.
      * rewrite bool_decide_eq_false_2 by done. simpl. split; [done|].
        intros [_ H]. by specialize (H eq_refl).
    + split; [|done]. intros _. split; [done|]. discriminate.
  - rewrite (bool_decide_eq_false_2 _ Hout). simpl. split; [done|]. tauto.
Qed.

Lemma metric_selected_spec (start end_ : datetime) (metric_names : option (list string))
    (metric : MetricDataPoint.t) :
  TelemetryStore.metric_selected start end_ metric_names metric = true ↔
  start ≤ MetricDataPoint.timestamp metric ≤ end_ ∧
  (truthy metric_names = true →
     MetricDataPoint.metric_name metric ∈ default [] metric_names).
Proof.
  unfold TelemetryStore.metric_selected.
  destruct (decide (start ≤ MetricDataPoint.timestamp metric ≤ end_)) as [Hin|Hout].
  - rewrite (bool_decide_eq_true_2 _ Hin). simpl.
    destruct (truthy metric_names); simpl.
    + destruct (decide (MetricDataPoint.metric_name metric ∈ default [] metric_names)).
      * rewrite bool_decide_eq_true_2 by done. simpl. tauto.
      * rewrite bool_decide_eq_false_2 by done. simpl. split; [done|].
        intros [_ H]. by specialize (H eq_refl).
    + split; [|done]. intros _. split; [done|]. discriminate.
  - rewrite (bool_decide_eq_false_2 _ Hout). simpl. split; [done|]. tauto.
Qed.

Lemma series_selected_spec (metric_name : string) (start end_ : datetime)
    (metric : MetricDataPoint.t) :
  TelemetryStore.series_selected metric_name start end_ metric = true ↔
  MetricDataPoint.metric_name metric = metric_name ∧
  start ≤ MetricDataPoint.timestamp metric ≤ end_.
Proof.
  unfold TelemetryStore.series_selected.
  destruct (decide (MetricDataPoint.metric_name metric = metric_name)) as [Heq|Hne].
  - rewrite (bool_decide_eq_true_2 _ Heq). simpl. rewrite bool_decide_eq_true. tauto.
  - rewrite (bool_decide_eq_false_2 _ Hne). simpl. split; [done|]. tauto.
Qed.

Lemma elem_of_get_logs_in_window (self : TelemetryStore.t) (start end_ : datetime)
    (services levels : option (list string)) (log : LogEntry.t) :
  log ∈ TelemetryStore.get_logs_in_window self start end_ services levels ↔
  ∃ service,
    service ∈ or_list services (OrderedDict.keys (TelemetryStore._logs self)) ∧
    log ∈ OrderedDict.get_or service [] (TelemetryStore._logs self) ∧
    TelemetryStore.log_selected start end_ levels log = true.
Proof.
  unfold TelemetryStore.get_logs_in_window, TelemetryStore.scan_logs.
  rewrite elem_of_sorted, list_elem_of_bind. split.
  - intros (service & Hin & Hsvc). apply list_elem_of_filter in Hin as [Hsel Hin].
    exists service. by rewrite <-Is_true_true.
  - intros (service & Hsvc & Hin & Hsel). exists service. split; [|done].
    apply list_elem_of_filter. by rewrite Is_true_true.
Qed.

Lemma elem_of_get_metrics_in_window (self : TelemetryStore.t) (start end_ : datetime)
    (services metric_names : option (list string)) (metric : MetricDataPoint.t) :
  metric ∈ TelemetryStore.get_metrics_in_window self start end_ services metric_names ↔
  ∃ service,
    service ∈ or_list services (OrderedDict.keys (TelemetryStore._metrics self)) ∧
    metric ∈ OrderedDict.get_or service [] (TelemetryStore._metrics self) ∧
    TelemetryStore.metric_selected start end_ metric_names metric = true.
Proof.
  unfold TelemetryStore.get_metrics_in_window, TelemetryStore.scan_metrics.
  rewrite elem_of_sorted, list_elem_of_bind. split.
  - intros (service & Hin & Hsvc). apply list_elem_of_filter in Hin as [Hsel Hin].
    exists service. by rewrite <-Is_true_true.
  - intros (service & Hsvc & Hin & Hsel). exists service. split; [|done].
    apply list_elem_of_filter. by rewrite Is_true_true.
Qed.

Lemma elem_of_get_metric_series (self : TelemetryStore.t)
    (service_name metric_name : string) (start end_ : datetime)
    (metric : MetricDataPoint.t) :
  metric ∈ TelemetryStore.get_metric_series self service_name metric_name start end_ ↔
  metric ∈ OrderedDict.get_or service_name [] (TelemetryStore._metrics self) ∧
  TelemetryStore.series_selected metric_name start end_ metric = true.
Proof.
  unfold TelemetryStore.get_metric_series.
  rewrite elem_of_sorted, list_elem_of_filter, Is_true_true. tauto.
Qed.

(** C6.  The bounds of a window are inclusive at both ends, for the three
    window queries: a stored record that passes the other filters of the
    query is returned exactly when its timestamp lies between [start] and
    [end_], so it is returned when its timestamp is [start] or is [end_], and
    no record with a timestamp before [start] or after [end_] is returned. *)
Theorem window_bounds_inclusive (self : TelemetryStore.t) (start end_ : datetime) :
  start ≤ end_ →
  (∀ services levels service log,
     service ∈ or_list services (OrderedDict.keys (TelemetryStore._logs self)) →
     log ∈ OrderedDict.get_or service [] (TelemetryStore._logs self) →
     (truthy levels = true →
        LogLevel_value (LogEntry.level log) ∈ default [] levels) →
     let result := TelemetryStore.get_logs_in_window self start end_ services levels in
     (LogEntry.timestamp log = start → log ∈ result) ∧
     (LogEntry.timestamp log = end_ → log ∈ result) ∧
     (log ∈ result ↔ start ≤ LogEntry.timestamp log ≤ end_)) ∧
  (∀ services levels log,
     LogEntry.timestamp log < start ∨ end_ < LogEntry.timestamp log →
     log ∉ TelemetryStore.get_logs_in_window self start end_ services levels) ∧
  (∀ services metric_names service metric,
     service ∈ or_list services (OrderedDict.keys (TelemetryStore._metrics self)) →
     metric ∈ OrderedDict.get_or service [] (TelemetryStore._metrics self) →
     (truthy metric_names = true →
        MetricDataPoint.metric_name metric ∈ default [] metric_names) →
     let result :=
       TelemetryStore.get_metrics_in_window self start end_ services metric_names in
     (MetricDataPoint.timestamp metric = start → metric ∈ result) ∧
     (MetricDataPoint.timestamp metric = end_ → metric ∈ result) ∧
     (metric ∈ result ↔ start ≤ MetricDataPoint.timestamp metric ≤ end_)) ∧
  (∀ services metric_names metric,
     MetricDataPoint.timestamp metric < start ∨ end_ < MetricDataPoint.timestamp metric →
     metric ∉
       TelemetryStore.get_metrics_in_window self start end_ services metric_names) ∧
  (∀ service_name metric_name metric,
     metric ∈ OrderedDict.get_or service_name [] (TelemetryStore._metrics self) →
     MetricDataPoint.metric_name metric = metric_name →
     let result :=
       TelemetryStore.get_metric_series self service_name metric_name start end_ in
     (MetricDataPoint.timestamp metric = start → metric ∈ result) ∧
     (MetricDataPoint.timestamp metric = end_ → metric ∈ result) ∧
     (metric ∈ result ↔ start ≤ MetricDataPoint.timestamp metric ≤ end_)) ∧
  (∀ service_name metric_name metric,
     MetricDataPoint.timestamp metric < start ∨ end_ < MetricDataPoint.timestamp metric →
     metric ∉
       TelemetryStore.get_metric_series self service_name metric_name start end_).
Proof.
  intros Hwin.
  assert (Hlogs : ∀ services levels service log,
     service ∈ or_list services (OrderedDict.keys (TelemetryStore._logs self)) →
     log ∈ OrderedDict.get_or service [] (TelemetryStore._logs self) →
     (truthy levels = true →
        LogLevel_value (LogEntry.level log) ∈ default [] levels) →
     (log ∈ TelemetryStore.get_logs_in_window self start end_ services levels
      ↔ start ≤ LogEntry.timestamp log ≤ end_)).
  { intros services levels service log Hsvc Hin Hlv.
    rewrite elem_of_get_logs_in_window. split.
    - intros (? & _ & _ & Hsel). by apply log_selected_spec in Hsel as [? _].
    - intros Hts. exists service. split; [done|]. split; [done|].
      by apply log_selected_spec. }
  assert (Hmetrics : ∀ services metric_names service metric,
     service ∈ or_list services (OrderedDict.keys (TelemetryStore._metrics self)) →
     metric ∈ OrderedDict.get_or service [] (TelemetryStore._metrics self) →
     (truthy metric_names = true →
        MetricDataPoint.metric_name metric ∈ default [] metric_names) →
     (metric ∈
        TelemetryStore.get_metrics_in_window self start end_ services metric_names
      ↔ start ≤ MetricDataPoint.timestamp metric ≤ end_)).
  { intros services metric_names service metric Hsvc Hin Hnm.
    rewrite elem_of_get_metrics_in_window. split.
    - intros (? & _ & _ & Hsel). by apply metric_selected_spec in Hsel as [? _].
    - intros Hts. exists service. split; [done|]. split; [done|].
      by apply metric_selected_spec. }
  assert (Hseries : ∀ service_name metric_name metric,
     metric ∈ OrderedDict.get_or service_name [] (TelemetryStore._metrics self) →
     MetricDataPoint.metric_name metric = metric_name →
     (metric ∈
        TelemetryStore.get_metric_series self service_name metric_name start end_
      ↔ start ≤ MetricDataPoint.timestamp metric ≤ end_)).
  { intros service_name metric_name metric Hin Hnm.
    rewrite elem_of_get_metric_series, series_selected_spec. tauto. }
  split; [|split; [|split; [|split; [|split]]]].
  - intros services levels service log Hsvc Hin Hlv result. subst result.
    rewrite (Hlogs services levels service log Hsvc Hin Hlv).
    split; [|split]; [lia|lia|done].
  - intros services levels log Hout (? & _ & _ & Hsel)%elem_of_get_logs_in_window.
    apply log_selected_spec in Hsel as [? _]. lia.
  - intros services metric_names service metric Hsvc Hin Hnm result. subst result.
    rewrite (Hmetrics services metric_names service metric Hsvc Hin Hnm).
    split; [|split]; [lia|lia|done].
  - intros services metric_names metric Hout
      (? & _ & _ & Hsel)%elem_of_get_metrics_in_window.
    apply metric_selected_spec in Hsel as [? _]. lia.
  - intros service_name metric_name metric Hin Hnm result. subst result.
    rewrite (Hseries service_name metric_name metric Hin Hnm).
    split; [|split]; [lia|lia|done].
  - intros service_name metric_name metric Hout [_ Hsel]%elem_of_get_metric_series.
    apply series_selected_spec in Hsel as [_ ?]. lia.
Qed.

Lemma window_bounds_inclusive_witness :
  100 ≤ 200 ∧
  log_at "l1" 100 "checkout"
    ∈ TelemetryStore.get_logs_in_window window_store 100 200 None None ∧
  log_at "l2" 200 "checkout"
    ∈ TelemetryStore.get_logs_in_window window_store 100 200 None None ∧
  (log_at "l0" 99 "checkout"
     ∉ TelemetryStore.get_logs_in_window window_store 100 200 None None) ∧
  (log_at "l3" 201 "checkout"
     ∉ TelemetryStore.get_logs_in_window window_store 100 200 None None) ∧
  metric_at "m1" 100 "checkout"
    ∈ TelemetryStore.get_metrics_in_window window_store 100 200 None None ∧
  metric_at "m2" 200 "checkout"
    ∈ TelemetryStore.get_metric_series window_store "checkout" "latency_ms" 100 200 ∧
  (metric_at "m3" 201 "checkout"
     ∉ TelemetryStore.get_metric_series window_store "checkout" "latency_ms" 100 200).
Proof.
  assert (Hwin : 100 ≤ 200) by lia.
  destruct (window_bounds_inclusive window_store 100 200 Hwin)
    as (Hlog & Hlog_out & Hmetric & _ & Hseries & Hseries_out).
  split; [exact Hwin|].
  split; [|split; [|split; [|split; [|split; [|split]]]]].
  - refine (proj1 (Hlog None None "checkout" _ _ _ _) _).
    + vm_compute. apply list_elem_of_here.
    + vm_compute. apply list_elem_of_further, list_elem_of_here.
    + discriminate.
    + reflexivity.
  - refine (proj1 (proj2 (Hlog None None "checkout" _ _ _ _)) _).
    + vm_compute. apply list_elem_of_here.
    + vm_compute. do 2 apply list_elem_of_further. apply list_elem_of_here.
    + discriminate.
    + reflexivity.
  - apply Hlog_out. left. reflexivity.
  - apply Hlog_out. right. reflexivity.
  - refine (proj1 (Hmetric None None "checkout" _ _ _ _) _).
    + vm_compute. apply list_elem_of_here.
    + vm_compute. apply list_elem_of_further, list_elem_of_here.
    + discriminate.
    + reflexivity.
  - refine (proj1 (proj2 (Hseries "checkout" "latency_ms" _ _ _)) _).
    + vm_compute. do 2 apply list_elem_of_further. apply list_elem_of_here.
    + reflexivity.
    + reflexivity.
  - apply Hseries_out. right. reflexivity.
Defined.

(** ** Appending under a capacity bound *)

Section defaultdict_facts.
Context {A : Type}.
Implicit Types (d : odict (list A)) (k : string).

Lemma set_set k (v v' : list A) d :
  OrderedDict.set k v (OrderedDict.set k v' d) = OrderedDict.set k v d.
Proof.
  induction d as [|[k0 v0] d IH]; simpl.
  - by rewrite decide_True.
  - destruct (decide (k = k0)) as [->|Hne]; simpl.
    + by rewrite decide_True.
    + by rewrite decide_False, IH.
Qed.

Lemma set_same k (v : list A) d :
  OrderedDict.get k d = Some v → OrderedDict.set k v d = d.
Proof.
  induction d as [|[k0 v0] d IH]; simpl; [done|].
  destruct (decide (k = k0)) as [->|Hne].
  - by intros [= ->].
  - intros H. by rewrite IH.
Qed.

Lemma getitem_default_eq k d :
  getitem_default k d
    = (OrderedDict.get_or k [] d, OrderedDict.set k (OrderedDict.get_or k [] d) d).
Proof.
  unfold getitem_default, OrderedDict.get_or.
  destruct (OrderedDict.get k d) as [v|] eqn:Hget; simpl; [|done].
  by rewrite set_same.
Qed.

Lemma getitem_default_set k (v : list A) d :
  getitem_default k (OrderedDict.set k v d) = (v, OrderedDict.set k v d).
Proof. unfold getitem_default. by rewrite get_set_eq. Qed.

Lemma get_or_set_eq k (v : list A) d :
  OrderedDict.get_or k [] (OrderedDict.set k v d) = v.
Proof. unfold OrderedDict.get_or. by rewrite get_set_eq. Qed.

Lemma get_or_set_ne k k' (v : list A) d :
  k ≠ k' → OrderedDict.get_or k' [] (OrderedDict.set k v d) = OrderedDict.get_or k' [] d.
Proof. intros Hne. unfold OrderedDict.get_or. by rewrite get_set_ne. Qed.

Lemma push_capped_cases (cap : Z) (entries : list A) (x : A) :
  push_capped cap entries x = entries ++ [x] ∨
  ∃ oldest, oldest :: push_capped cap entries x = entries ++ [x].
Proof.
  unfold push_capped. destruct (decide _); [|by left].
  right. destruct (entries ++ [x]) as [|oldest rest] eqn:Heq.
  - by destruct entries.
  - by exists oldest.
Qed.

(** Appending one by one to an empty list keeps the last [cap] entries. *)
Lemma foldl_push_capped (cap : Z) (appended : list A) :
  0 ≤ cap →
  foldl (push_capped cap) [] appended
    = drop (length appended - Z.to_nat cap) appended.
Proof.
  intros Hcap. induction appended as [|x appended IH] using rev_ind; [done|].
  rewrite foldl_app. simpl. rewrite IH. unfold push_capped.
  rewrite !length_app, length_drop. simpl.
  destruct (decide _) as [Hover|Hfits].
  - assert (Hle : (Z.to_nat cap ≤ length appended)%nat) by lia.
    rewrite !skipn_app, drop_drop, length_drop. f_equal; f_equal; lia.
  - replace (length appended + 1 - Z.to_nat cap)%nat with 0%nat by lia.
    replace (length appended - Z.to_nat cap)%nat with 0%nat by lia.
    done.
Qed.

Lemma length_keep_last (cap : Z) (appended : list A) :
  0 ≤ cap →
  Z.of_nat (length (drop (length appended - Z.to_nat cap) appended))
    = Z.min (Z.of_nat (length appended)) cap.
Proof. intros Hcap. rewrite length_drop. lia. Qed.

End defaultdict_facts.

(** The per-service lists after one [add_log]: only the list of the log's
    service changes, by one capped append. *)
Lemma add_log_logs (self : TelemetryStore.t) (log : LogEntry.t) :
  TelemetryStore._logs (TelemetryStore.add_log self log).1
    = OrderedDict.set (LogEntry.service_name log)
        (push_capped (TelemetryStore._max_logs self)
           (OrderedDict.get_or (LogEntry.service_name log) []
              (TelemetryStore._logs self)) log)
        (TelemetryStore._logs self).
Proof.
  unfold TelemetryStore.add_log, push_capped.
  rewrite getitem_default_eq. cbn -[getitem_default OrderedDict.set OrderedDict.get_or].
  rewrite set_set, getitem_default_set.
  cbn -[getitem_default OrderedDict.set OrderedDict.get_or].
  destruct (decide _) as [Hover|Hfits]; [|done].
  destruct (_ ++ [log]) as [|removed rest]; [done|].
  cbn -[OrderedDict.set]. rewrite set_set.
  by destruct (_ !! LogEntry.id removed).
Qed.

Lemma add_metric_metrics (self : TelemetryStore.t) (metric : MetricDataPoint.t) :
  TelemetryStore._metrics (TelemetryStore.add_metric self metric).1
    = OrderedDict.set (MetricDataPoint.service_name metric)
        (push_capped (TelemetryStore._max_metrics self)
           (OrderedDict.get_or (MetricDataPoint.service_name metric) []
              (TelemetryStore._metrics self)) metric)
        (TelemetryStore._metrics self).
Proof.
  unfold TelemetryStore.add_metric, push_capped.
  rewrite getitem_default_eq. cbn -[getitem_default OrderedDict.set OrderedDict.get_or].
  rewrite set_set, getitem_default_set.
  cbn -[getitem_default OrderedDict.set OrderedDict.get_or].
  destruct (decide _) as [Hover|Hfits]; [|done].
  destruct (_ ++ [metric]) as [|removed rest]; [done|].
  cbn -[OrderedDict.set]. rewrite set_set.
  by destruct (_ !! MetricDataPoint.id removed).
Qed.

Lemma add_log_max_logs (self : TelemetryStore.t) (log : LogEntry.t) :
  TelemetryStore._max_logs (TelemetryStore.add_log self log).1
    = TelemetryStore._max_logs self.
Proof.
  unfold TelemetryStore.add_log.
  destruct (getitem_default _ _) as [entries logs].
  cbn -[getitem_default OrderedDict.set].
  destruct (getitem_default _ _) as [entries' logs'].
  cbn -[OrderedDict.set].
  destruct (decide _); [|done].
  destruct entries' as [|removed rest]; [done|].
  cbn -[OrderedDict.set]. by destruct (_ !! LogEntry.id removed).
Qed.

Lemma add_metric_max_metrics (self : TelemetryStore.t) (metric : MetricDataPoint.t) :
  TelemetryStore._max_metrics (TelemetryStore.add_metric self metric).1
    = TelemetryStore._max_metrics self.
Proof.
  unfold TelemetryStore.add_metric.
  destruct (getitem_default _ _) as [entries metrics].
  cbn -[getitem_default OrderedDict.set].
  destruct (getitem_default _ _) as [entries' metrics'].
  cbn -[OrderedDict.set].
  destruct (decide _); [|done].
  destruct entries' as [|removed rest]; [done|].
  cbn -[OrderedDict.set]. by destruct (_ !! MetricDataPoint.id removed).
Qed.

Lemma add_log_entries (self : TelemetryStore.t) (log : LogEntry.t) (service : string) :
  OrderedDict.get_or service [] (TelemetryStore._logs (TelemetryStore.add_log self log).1)
    = if decide (LogEntry.service_name log = service)
      then push_capped (TelemetryStore._max_logs self)
             (OrderedDict.get_or service [] (TelemetryStore._logs self)) log
      else OrderedDict.get_or service [] (TelemetryStore._logs self).
Proof.
  rewrite add_log_logs. destruct (decide _) as [<-|Hne].
  - apply get_or_set_eq.
  - by apply get_or_set_ne.
Qed.

Lemma add_metric_entries (self : TelemetryStore.t) (metric : MetricDataPoint.t)
    (service : string) :
  OrderedDict.get_or service []
      (TelemetryStore._metrics (TelemetryStore.add_metric self metric).1)
    = if decide (MetricDataPoint.service_name metric = service)
      then push_capped (TelemetryStore._max_metrics self)
             (OrderedDict.get_or service [] (TelemetryStore._metrics self)) metric
      else OrderedDict.get_or service [] (TelemetryStore._metrics self).
Proof.
  rewrite add_metric_metrics. destruct (decide _) as [<-|Hne].
  - apply get_or_set_eq.
  - by apply get_or_set_ne.
Qed.

Lemma after_add_logs_max_logs (self : TelemetryStore.t) (logs : list LogEntry.t) :
  TelemetryStore._max_logs (after_add_logs self logs) = TelemetryStore._max_logs self.
Proof.
  revert self. induction logs as [|log logs IH]; intros self; simpl; [done|].
  by rewrite IH, add_log_max_logs.
Qed.

Lemma after_add_metrics_max_metrics (self : TelemetryStore.t)
    (metrics : list MetricDataPoint.t) :
  TelemetryStore._max_metrics (after_add_metrics self metrics)
    = TelemetryStore._max_metrics self.
Proof.
  revert self. induction metrics as [|metric metrics IH]; intros self; simpl; [done|].
  by rewrite IH, add_metric_max_metrics.
Qed.

(** The list of a service after a sequence of appends: the appends of that
    service, in their order, each one capped. *)
Lemma after_add_logs_entries (self : TelemetryStore.t) (logs : list LogEntry.t)
    (service : string) :
  OrderedDict.get_or service [] (TelemetryStore._logs (after_add_logs self logs))
    = foldl (push_capped (TelemetryStore._max_logs self))
        (OrderedDict.get_or service [] (TelemetryStore._logs self))
        (filter (λ log, LogEntry.service_name log = service) logs).
Proof.
  revert self. induction logs as [|log logs IH]; intros self; simpl; [done|].
  rewrite IH, add_log_max_logs, add_log_entries, filter_cons.
  by destruct (decide _).
Qed.

Lemma after_add_metrics_entries (self : TelemetryStore.t)
    (metrics : list MetricDataPoint.t) (service : string) :
  OrderedDict.get_or service []
      (TelemetryStore._metrics (after_add_metrics self metrics))
    = foldl (push_capped (TelemetryStore._max_metrics self))
        (OrderedDict.get_or service [] (TelemetryStore._metrics self))
        (filter (λ metric, MetricDataPoint.service_name metric = service) metrics).
Proof.
  revert self. induction metrics as [|metric metrics IH]; intros self; simpl; [done|].
  rewrite IH, add_metric_max_metrics, add_metric_entries, filter_cons.
  by destruct (decide _).
Qed.

(** C2.  From a store without logs and with a non-negative bound, after any
    sequence of [add_log] calls the list of each service holds
    min(appended for that service, bound) entries, which are the last ones
    appended for it, in the order of the appends; the same holds for
    [add_metric].  One call adds its entry at the end of the list of its
    service, removes at most the head of that list, and changes no other list. *)
Theorem capacity_keeps_most_recent (fresh self : TelemetryStore.t) :
  TelemetryStore._logs fresh = [] →
  TelemetryStore._metrics fresh = [] →
  0 ≤ TelemetryStore._max_logs fresh →
  0 ≤ TelemetryStore._max_metrics fresh →
  (∀ logs service,
     let appended := filter (λ log, LogEntry.service_name log = service) logs in
     let kept :=
       OrderedDict.get_or service []
         (TelemetryStore._logs (after_add_logs fresh logs)) in
     Z.of_nat (length kept)
       = Z.min (Z.of_nat (length appended)) (TelemetryStore._max_logs fresh) ∧
     kept = drop (length appended - length kept) appended) ∧
  (∀ metrics service,
     let appended :=
       filter (λ metric, MetricDataPoint.service_name metric = service) metrics in
     let kept :=
       OrderedDict.get_or service []
         (TelemetryStore._metrics (after_add_metrics fresh metrics)) in
     Z.of_nat (length kept)
       = Z.min (Z.of_nat (length appended)) (TelemetryStore._max_metrics fresh) ∧
     kept = drop (length appended - length kept) appended) ∧
  (∀ log,
     let service := LogEntry.service_name log in
     let before := OrderedDict.get_or service [] (TelemetryStore._logs self) in
     let self' := (TelemetryStore.add_log self log).1 in
     let after := OrderedDict.get_or service [] (TelemetryStore._logs self') in
     (after = before ++ [log] ∨ ∃ oldest, oldest :: after = before ++ [log]) ∧
     ∀ other, other ≠ service →
       OrderedDict.get_or other [] (TelemetryStore._logs self')
         = OrderedDict.get_or other [] (TelemetryStore._logs self)) ∧
  (∀ metric,
     let service := MetricDataPoint.service_name metric in
     let before := OrderedDict.get_or service [] (TelemetryStore._metrics self) in
     let self' := (TelemetryStore.add_metric self metric).1 in
     let after := OrderedDict.get_or service [] (TelemetryStore._metrics self') in
     (after = before ++ [metric] ∨ ∃ oldest, oldest :: after = before ++ [metric]) ∧
     ∀ other, other ≠ service →
       OrderedDict.get_or other [] (TelemetryStore._metrics self')
         = OrderedDict.get_or other [] (TelemetryStore._metrics self)).
Proof.
  intros Hlogs Hmetrics Hcap_logs Hcap_metrics.
  split; [|split; [|split]].
  - intros logs service appended kept. subst kept.
    rewrite after_add_logs_entries, Hlogs. change (OrderedDict.get_or service [] []) with
      (@nil LogEntry.t).
    rewrite foldl_push_capped by done. fold appended.
    split; [by apply length_keep_last|].
    rewrite length_drop. f_equal. lia.
  - intros metrics service appended kept. subst kept.
    rewrite after_add_metrics_entries, Hmetrics.
    change (OrderedDict.get_or service [] []) with (@nil MetricDataPoint.t).
    rewrite foldl_push_capped by done. fold appended.
    split; [by apply length_keep_last|].
    rewrite length_drop. f_equal. lia.
  - intros log service before self' after. subst after self'. split.
    + rewrite add_log_entries, decide_True by done. apply push_capped_cases.
    + intros other Hne. by rewrite add_log_entries, decide_False.
  - intros metric service before self' after. subst after self'. split.
    + rewrite add_metric_entries, decide_True by done. apply push_capped_cases.
    + intros other Hne. by rewrite add_metric_entries, decide_False.
Qed.

Lemma capacity_keeps_most_recent_witness :
  TelemetryStore._logs small_store = [] ∧
  TelemetryStore._metrics small_store = [] ∧
  0 ≤ TelemetryStore._max_logs small_store ∧
  0 ≤ TelemetryStore._max_metrics small_store ∧
  OrderedDict.get_or "x" [] (TelemetryStore._logs (after_add_logs small_store five_logs))
    = [log_at "l3" 3 "x"; log_at "l4" 4 "x"; log_at "l5" 5 "x"] ∧
  OrderedDict.get_or "x" []
      (TelemetryStore._metrics (after_add_metrics small_store five_metrics))
    = [metric_at "m3" 3 "x"; metric_at "m4" 4 "x"; metric_at "m5" 5 "x"].
Proof.
  assert (Hcap_logs : 0 ≤ TelemetryStore._max_logs small_store) by (vm_compute; discriminate).
  assert (Hcap_metrics : 0 ≤ TelemetryStore._max_metrics small_store)
    by (vm_compute; discriminate).
  destruct (capacity_keeps_most_recent small_store small_store
              eq_refl eq_refl Hcap_logs Hcap_metrics) as (Hlogs & Hmetrics & _).
  destruct (Hlogs five_logs "x") as [_ Hl].
  destruct (Hmetrics five_metrics "x") as [_ Hm].
  split; [reflexivity|]. split; [reflexivity|].
  split; [exact Hcap_logs|]. split; [exact Hcap_metrics|]. split.
  - rewrite Hl. vm_compute. reflexivity.
  - rewrite Hm. vm_compute. reflexivity.
Defined.

(** ** The bound on the number of traces *)

Lemma add_trace_traces (self : TelemetryStore.t) (trace : Trace.t) :
  TelemetryStore._traces (TelemetryStore.add_trace self trace).1
    = let traces :=
        OrderedDict.set (Trace.trace_id trace) trace (TelemetryStore._traces self) in
      if decide (TelemetryStore._max_traces self < Z.of_nat (length traces))
      then drop 1 traces else traces.
Proof.
  unfold TelemetryStore.add_trace. cbn -[OrderedDict.set OrderedDict.del].
  destruct (decide _) as [Hover|Hfits]; [|done].
  destruct (OrderedDict.set _ _ _) as [|[k v] d]; [done|].
  cbn -[OrderedDict.del]. by rewrite del_head.
Qed.

Lemma add_trace_returns (self : TelemetryStore.t) (trace : Trace.t) :
  (TelemetryStore.add_trace self trace).2 = Returned (Trace.trace_id trace).
Proof.
  unfold TelemetryStore.add_trace. cbn -[OrderedDict.set OrderedDict.del].
  destruct (decide _) as [Hover|Hfits]; [|done].
  destruct (OrderedDict.set _ _ _) as [|[k v] d] eqn:Hset.
  - by apply set_not_nil in Hset.
  - cbn -[OrderedDict.del]. by rewrite del_head.
Qed.

Lemma add_trace_max_traces (self : TelemetryStore.t) (trace : Trace.t) :
  TelemetryStore._max_traces (TelemetryStore.add_trace self trace).1
    = TelemetryStore._max_traces self.
Proof.
  unfold TelemetryStore.add_trace. cbn -[OrderedDict.set OrderedDict.del].
  destruct (decide _) as [Hover|Hfits]; [|done].
  destruct (OrderedDict.set _ _ _) as [|[k v] d]; [done|].
  cbn -[OrderedDict.del]. by rewrite del_head.
Qed.

Lemma length_set_le {V : Type} (k : string) (v : V) (d : odict V) :
  (length (OrderedDict.set k v d) ≤ S (length d))%nat.
Proof.
  destruct (OrderedDict.get k d) as [v0|] eqn:Hget.
  - rewrite length_set_present by done. lia.
  - rewrite set_absent, length_app by done. simpl. lia.
Qed.

Lemma add_trace_bound (self : TelemetryStore.t) (trace : Trace.t) :
  0 ≤ TelemetryStore._max_traces self →
  Z.of_nat (length (TelemetryStore._traces self)) ≤ TelemetryStore._max_traces self →
  Z.of_nat (length (TelemetryStore._traces (TelemetryStore.add_trace self trace).1))
    ≤ TelemetryStore._max_traces self.
Proof.
  intros Hcap Hlen. rewrite add_trace_traces. cbv zeta.
  pose proof (length_set_le (Trace.trace_id trace) trace (TelemetryStore._traces self)).
  destruct (decide _) as [Hover|Hfits]; [|lia].
  rewrite length_drop. lia.
Qed.

Lemma after_add_traces_bound (self : TelemetryStore.t) (traces : list Trace.t) :
  0 ≤ TelemetryStore._max_traces self →
  Z.of_nat (length (TelemetryStore._traces self)) ≤ TelemetryStore._max_traces self →
  Z.of_nat (length (TelemetryStore._traces (after_add_traces self traces)))
    ≤ TelemetryStore._max_traces self.
Proof.
  revert self. induction traces as [|trace traces IH]; intros self Hcap Hlen; [done|].
  simpl. rewrite <-(add_trace_max_traces self trace).
  apply IH; rewrite add_trace_max_traces; [done|]. by apply add_trace_bound.
Qed.

(** C4.  From a store within a non-negative bound, the number of traces stays
    within the bound after every [add_trace]; the call never raises.  A trace
    with a new id goes last, and when the store was full the first trace of
    the traversal order, and only it, is evicted; a trace with a stored id
    replaces the stored one where it stands and nothing is evicted.  With
    bound 2 and an empty store, adding A, B, C leaves B and C. *)
Theorem trace_cap_evicts_earliest (self : TelemetryStore.t) :
  0 ≤ TelemetryStore._max_traces self →
  Z.of_nat (length (TelemetryStore._traces self)) ≤ TelemetryStore._max_traces self →
  (∀ traces,
     Z.of_nat (length (TelemetryStore._traces (after_add_traces self traces)))
       ≤ TelemetryStore._max_traces self) ∧
  (∀ trace,
     (TelemetryStore.add_trace self trace).2 = Returned (Trace.trace_id trace)) ∧
  (∀ trace,
     OrderedDict.get (Trace.trace_id trace) (TelemetryStore._traces self) = None →
     Z.of_nat (length (TelemetryStore._traces self)) = TelemetryStore._max_traces self →
     ∃ oldest,
       oldest :: TelemetryStore._traces (TelemetryStore.add_trace self trace).1
         = TelemetryStore._traces self ++ [(Trace.trace_id trace, trace)]) ∧
  (∀ trace,
     OrderedDict.get (Trace.trace_id trace) (TelemetryStore._traces self) = None →
     Z.of_nat (length (TelemetryStore._traces self)) < TelemetryStore._max_traces self →
     TelemetryStore._traces (TelemetryStore.add_trace self trace).1
       = TelemetryStore._traces self ++ [(Trace.trace_id trace, trace)]) ∧
  (∀ trace,
     is_Some (OrderedDict.get (Trace.trace_id trace) (TelemetryStore._traces self)) →
     let traces' := TelemetryStore._traces (TelemetryStore.add_trace self trace).1 in
     OrderedDict.keys traces' = OrderedDict.keys (TelemetryStore._traces self) ∧
     OrderedDict.get (Trace.trace_id trace) traces' = Some trace ∧
     ∀ other, other ≠ Trace.trace_id trace →
       OrderedDict.get other traces'
         = OrderedDict.get other (TelemetryStore._traces self)) ∧
  (∀ a b c,
     TelemetryStore._traces self = [] →
     TelemetryStore._max_traces self = 2 →
     Trace.trace_id a ≠ Trace.trace_id b →
     Trace.trace_id a ≠ Trace.trace_id c →
     Trace.trace_id b ≠ Trace.trace_id c →
     TelemetryStore._traces (after_add_traces self [a; b; c])
       = [(Trace.trace_id b, b); (Trace.trace_id c, c)]).
Proof.
  intros Hcap Hlen. split; [|split; [|split; [|split; [|split]]]].
  - intros traces. by apply after_add_traces_bound.
  - apply add_trace_returns.
  - intros trace Hnew Hfull. rewrite add_trace_traces. cbv zeta.
    rewrite set_absent by done.
    rewrite decide_True by (rewrite length_app; simpl; lia).
    destruct (TelemetryStore._traces self ++ _) as [|oldest rest] eqn:Heq.
    + by destruct (TelemetryStore._traces self).
    + by exists oldest.
  - intros trace Hnew Hroom. rewrite add_trace_traces. cbv zeta.
    rewrite set_absent by done.
    by rewrite decide_False by (rewrite length_app; simpl; lia).
  - intros trace Hstored traces'. subst traces'. rewrite add_trace_traces. cbv zeta.
    rewrite decide_False by (rewrite length_set_present by done; lia).
    split; [by apply keys_set_present|]. split; [apply get_set_eq|].
    intros other Hne. by apply get_set_ne.
  - intros a b c Hempty Hmax Hab Hac Hbc. simpl.
    rewrite add_trace_traces, !add_trace_max_traces, Hmax.
    rewrite add_trace_traces, !add_trace_max_traces, Hmax.
    rewrite add_trace_traces, Hmax, Hempty. simpl.
    rewrite (decide_False (P := Trace.trace_id b = Trace.trace_id a)) by congruence.
    simpl. rewrite (decide_False (P := Trace.trace_id c = Trace.trace_id a)) by congruence.
    rewrite (decide_False (P := Trace.trace_id c = Trace.trace_id b)) by congruence.
    reflexivity.
Qed.

Lemma trace_cap_evicts_earliest_witness :
  0 ≤ TelemetryStore._max_traces small_store ∧
  Z.of_nat (length (TelemetryStore._traces small_store))
    ≤ TelemetryStore._max_traces small_store ∧
  TelemetryStore._traces
    (after_add_traces small_store [trace_of "A"; trace_of "B"; trace_of "C"])
    = [("B", trace_of "B"); ("C", trace_of "C")] ∧
  Z.of_nat (length (TelemetryStore._traces
    (after_add_traces small_store [trace_of "A"; trace_of "B"; trace_of "C"]))) ≤ 2.
Proof.
  assert (Hcap : 0 ≤ TelemetryStore._max_traces small_store) by (vm_compute; discriminate).
  assert (Hlen : Z.of_nat (length (TelemetryStore._traces small_store))
                   ≤ TelemetryStore._max_traces small_store)
    by (vm_compute; discriminate).
  destruct (trace_cap_evicts_earliest small_store Hcap Hlen)
    as (Hbound & _ & _ & _ & _ & Habc).
  split; [exact Hcap|]. split; [exact Hlen|]. split.
  - apply (Habc (trace_of "A") (trace_of "B") (trace_of "C"));
      [reflexivity|reflexivity|discriminate|discriminate|discriminate].
  - apply (Hbound [trace_of "A"; trace_of "B"; trace_of "C"]).
Defined.

(** ** The retention sweep *)

Section max_by_facts.
Context {A : Type} (key : A → Z).

Lemma max_by_elem (x : A) (l : list A) : max_by key x l ∈ x :: l.
Proof.
  revert x. induction l as [|y l IH]; intros x; simpl; [left|].
  destruct (decide (key x < key y)).
  - right. apply IH.
  - specialize (IH x). apply elem_of_cons in IH as [->|IH]; [left|].
    right. by right.
Qed.

Lemma max_by_ge_first (x : A) (l : list A) : key x ≤ key (max_by key x l).
Proof.
  revert x. induction l as [|y l IH]; intros x; simpl; [lia|].
  destruct (decide (key x < key y)); [|done].
  specialize (IH y). lia.
Qed.

Lemma max_by_upper (x : A) (l : list A) (y : A) :
  y ∈ x :: l → key y ≤ key (max_by key x l).
Proof.
  revert x. induction l as [|z l IH]; intros x Hy; simpl.
  - apply list_elem_of_singleton in Hy as ->. lia.
  - apply elem_of_cons in Hy as [->|Hy].
    + destruct (decide (key x < key z)); [|apply max_by_ge_first].
      pose proof (max_by_ge_first z l). lia.
    + destruct (decide (key x < key z)); [by apply IH|].
      apply elem_of_cons in Hy as [->|Hy].
      * pose proof (max_by_ge_first x l). lia.
      * apply IH. by right.
Qed.

End max_by_facts.

Lemma trace_expired_spec (cutoff : datetime) (trace : Trace.t) :
  TelemetryStore.trace_expired cutoff trace = true ↔
  Trace.spans trace ≠ [] ∧
  ∃ latest,
    latest ∈ Trace.spans trace ∧
    (∀ span, span ∈ Trace.spans trace → Span.end_time span ≤ Span.end_time latest) ∧
    Span.end_time latest < cutoff.
Proof.
  unfold TelemetryStore.trace_expired.
  destruct (Trace.spans trace) as [|span rest]; [split; [done|by intros [? _]]|].
  rewrite bool_decide_eq_true. split.
  - intros Hlt. split; [done|]. exists (max_by Span.end_time span rest).
    split; [apply max_by_elem|]. split; [|done].
    intros s Hs. by apply max_by_upper.
  - intros (_ & latest & Hin & Hmax & Hlt).
    specialize (Hmax _ (max_by_elem Span.end_time span rest)). lia.
Qed.

Section odict_split_facts.
Context {V : Type}.

Lemma get_app_notin (k : string) (d1 d2 : odict V) :
  k ∉ OrderedDict.keys d1 → OrderedDict.get k (d1 ++ d2) = OrderedDict.get k d2.
Proof.
  unfold OrderedDict.keys. induction d1 as [|[k' v'] d1 IH]; simpl; [done|].
  intros [Hne Hnotin]%not_elem_of_cons. rewrite decide_False by done. by apply IH.
Qed.

Lemma set_app_notin (k : string) (v v0 : V) (d1 d2 : odict V) :
  k ∉ OrderedDict.keys d1 →
  OrderedDict.set k v (d1 ++ (k, v0) :: d2) = d1 ++ (k, v) :: d2.
Proof.
  unfold OrderedDict.keys. induction d1 as [|[k' v'] d1 IH]; simpl.
  - intros _. by rewrite decide_True.
  - intros [Hne Hnotin]%not_elem_of_cons. rewrite decide_False by done.
    by rewrite IH.
Qed.

Lemma get_fmap_values (f : V → V) (k : string) (d : odict V) :
  OrderedDict.get k ((λ item, (item.1, f item.2)) <$> d) = f <$> OrderedDict.get k d.
Proof.
  induction d as [|[k' v'] d IH]; simpl; [done|].
  by destruct (decide (k = k')).
Qed.

Lemma keys_fmap_values (f : V → V) (d : odict V) :
  OrderedDict.keys ((λ item, (item.1, f item.2)) <$> d) = OrderedDict.keys d.
Proof.
  unfold OrderedDict.keys. rewrite <-list_fmap_compose. by apply list_fmap_ext.
Qed.

Lemma keys_filter_subseteq (P : string * V → Prop) `{!∀ item, Decision (P item)}
    (d : odict V) (k : string) :
  k ∈ OrderedDict.keys (filter P d) → k ∈ OrderedDict.keys d.
Proof.
  unfold OrderedDict.keys. intros ([k' v] & -> & Hin)%list_elem_of_fmap.
  apply list_elem_of_filter in Hin as [_ Hin]. by apply (list_elem_of_fmap_2 fst) in Hin.
Qed.

Lemma get_filter (P : string * V → Prop) `{!∀ item, Decision (P item)}
    (d : odict V) (k : string) (v : V) :
  OrderedDict.wf d → OrderedDict.get k d = Some v →
  OrderedDict.get k (filter P d) = if decide (P (k, v)) then Some v else None.
Proof.
  unfold OrderedDict.wf.
  induction d as [|[k' v'] d IH]; simpl; [done|].
  intros [Hk' Hwf]%NoDup_cons. rewrite filter_cons.
  destruct (decide (k = k')) as [->|Hne].
  - intros [= ->]. destruct (decide (P (k', v))); simpl.
    + by rewrite decide_True.
    + apply get_None. intros Hin. by apply keys_filter_subseteq in Hin.
  - intros Hget. destruct (decide (P (k', v'))); simpl.
    + rewrite decide_False by done. by apply IH.
    + by apply IH.
Qed.

End odict_split_facts.

Section sweep_facts.
Context {A : Type}.

(** One round of the sweep on the entry of its service. *)
Lemma sweep_service_at (timestamp : A → datetime) (cutoff : datetime)
    (d1 d2 : odict (list A)) (k : string) (entries : list A) (count : Z) :
  k ∉ OrderedDict.keys d1 →
  TelemetryStore.sweep_service timestamp cutoff (d1 ++ (k, entries) :: d2, count) k
    = (d1 ++ (k, filter (λ x, cutoff < timestamp x) entries) :: d2,
       count + (Z.of_nat (length entries)
                - Z.of_nat (length (filter (λ x, cutoff < timestamp x) entries)))).
Proof.
  intros Hk. unfold TelemetryStore.sweep_service.
  assert (Hget : ∀ v : list A,
            getitem_default k (d1 ++ (k, v) :: d2) = (v, d1 ++ (k, v) :: d2)).
  { intros v. unfold getitem_default. rewrite get_app_notin by done.
    simpl. by rewrite decide_True. }
  rewrite !Hget. rewrite set_app_notin by done. by rewrite Hget.
Qed.

Lemma sweep_from (timestamp : A → datetime) (cutoff : datetime)
    (d1 d2 : odict (list A)) (count : Z) :
  OrderedDict.wf (d1 ++ d2) →
  (foldl (TelemetryStore.sweep_service timestamp cutoff) (d1 ++ d2, count)
         (OrderedDict.keys d2)).1
    = d1 ++ ((λ item, (item.1, filter (λ x, cutoff < timestamp x) item.2)) <$> d2).
Proof.
  revert d1 count. induction d2 as [|[k entries] d2 IH]; intros d1 count Hwf; [done|].
  assert (Hk : k ∉ OrderedDict.keys d1).
  { unfold OrderedDict.wf, OrderedDict.keys in *. rewrite fmap_app in Hwf.
    apply NoDup_app in Hwf as (_ & Hdisj & _). intros Hin.
    apply (Hdisj k Hin). simpl. left. }
  change (OrderedDict.keys ((k, entries) :: d2)) with (k :: OrderedDict.keys d2).
  cbn [foldl]. rewrite sweep_service_at by done.
  rewrite (cons_middle _ d1 d2), (assoc_L (++)).
  rewrite IH.
  - by rewrite <-(assoc_L (++)).
  - unfold OrderedDict.wf, OrderedDict.keys in *.
    rewrite !fmap_app in *. rewrite <-(assoc_L (++)). exact Hwf.
Qed.

Lemma sweep_dict (timestamp : A → datetime) (cutoff : datetime) (d : odict (list A)) :
  OrderedDict.wf d →
  (TelemetryStore.sweep timestamp cutoff d).1
    = (λ item, (item.1, filter (λ x, cutoff < timestamp x) item.2)) <$> d.
Proof. intros Hwf. unfold TelemetryStore.sweep. by apply (sweep_from _ _ []). Qed.

End sweep_facts.

Lemma del_traces_cons_notin (trace_ids : list string) (k : string) (v : Trace.t)
    (d : odict Trace.t) :
  k ∉ trace_ids →
  TelemetryStore.del_traces trace_ids ((k, v) :: d)
    = ((k, v) :: (TelemetryStore.del_traces trace_ids d).1,
       (TelemetryStore.del_traces trace_ids d).2).
Proof.
  revert d. induction trace_ids as [|trace_id rest IH]; intros d Hk; [done|].
  apply not_elem_of_cons in Hk as [Hne Hk].
  cbn [TelemetryStore.del_traces OrderedDict.del].
  rewrite decide_False by done.
  destruct (OrderedDict.del trace_id d) as [d'|]; simpl; [|done].
  by apply IH.
Qed.

Lemma del_traces_filter (P : string * Trace.t → Prop) `{!∀ item, Decision (P item)}
    (d : odict Trace.t) :
  OrderedDict.wf d →
  TelemetryStore.del_traces (filter P d).*1 d = (filter (λ item, ¬ P item) d, None).
Proof.
  unfold OrderedDict.wf, OrderedDict.keys.
  induction d as [|[k v] d IH]; [done|].
  intros [Hk Hwf]%NoDup_cons. rewrite !filter_cons.
  destruct (decide (P (k, v))) as [HP|HP].
  - rewrite decide_False by tauto.
    cbn [fmap list_fmap fst TelemetryStore.del_traces]. rewrite del_head. by apply IH.
  - rewrite decide_True by done. rewrite del_traces_cons_notin.
    + by rewrite IH.
    + intros Hin. apply Hk. by apply (keys_filter_subseteq P).
Qed.

(** C3.  A sweep at time [utcnow], whose cutoff [utcnow - _retention] is a
    valid datetime, returns; it keeps, in every list of logs and of metric
    points, exactly the entries with a timestamp after the cutoff, in their
    order, so it removes exactly those at or before the cutoff; and it removes
    a trace exactly when the trace has a span and the largest end time of its
    spans is before the cutoff, so a trace without spans stays. *)
Theorem sweep_removes_exactly_the_expired (self : TelemetryStore.t) (utcnow : datetime) :
  OrderedDict.wf (TelemetryStore._logs self) →
  OrderedDict.wf (TelemetryStore._metrics self) →
  OrderedDict.wf (TelemetryStore._traces self) →
  0 ≤ utcnow - TelemetryStore._retention self ≤ datetime_max →
  let cutoff := utcnow - TelemetryStore._retention self in
  let self' := (TelemetryStore.cleanup_old_data self utcnow).1 in
  (∃ counts, (TelemetryStore.cleanup_old_data self utcnow).2 = Returned counts) ∧
  OrderedDict.keys (TelemetryStore._logs self')
    = OrderedDict.keys (TelemetryStore._logs self) ∧
  (∀ service,
     OrderedDict.get_or service [] (TelemetryStore._logs self')
       = filter (λ log, cutoff < LogEntry.timestamp log)
           (OrderedDict.get_or service [] (TelemetryStore._logs self))) ∧
  (∀ service log,
     log ∈ OrderedDict.get_or service [] (TelemetryStore._logs self) →
     (log ∉ OrderedDict.get_or service [] (TelemetryStore._logs self')
      ↔ LogEntry.timestamp log ≤ cutoff)) ∧
  OrderedDict.keys (TelemetryStore._metrics self')
    = OrderedDict.keys (TelemetryStore._metrics self) ∧
  (∀ service,
     OrderedDict.get_or service [] (TelemetryStore._metrics self')
       = filter (λ metric, cutoff < MetricDataPoint.timestamp metric)
           (OrderedDict.get_or service [] (TelemetryStore._metrics self))) ∧
  (∀ service metric,
     metric ∈ OrderedDict.get_or service [] (TelemetryStore._metrics self) →
     (metric ∉ OrderedDict.get_or service [] (TelemetryStore._metrics self')
      ↔ MetricDataPoint.timestamp metric ≤ cutoff)) ∧
  TelemetryStore._traces self'
    = filter (λ item, ¬ TelemetryStore.trace_expired cutoff item.2)
        (TelemetryStore._traces self) ∧
  (∀ trace_id trace,
     OrderedDict.get trace_id (TelemetryStore._traces self) = Some trace →
     (OrderedDict.get trace_id (TelemetryStore._traces self') = None
      ↔ Trace.spans trace ≠ [] ∧
        ∃ latest,
          latest ∈ Trace.spans trace ∧
          (∀ span, span ∈ Trace.spans trace →
             Span.end_time span ≤ Span.end_time latest) ∧
          Span.end_time latest < cutoff) ∧
     (Trace.spans trace = [] →
        OrderedDict.get trace_id (TelemetryStore._traces self') = Some trace)).
Proof.
  intros Hwf_logs Hwf_metrics Hwf_traces Hrange cutoff self'.
  assert (Hsub : datetime_sub utcnow (TelemetryStore._retention self) = Some cutoff).
  { unfold datetime_sub. by rewrite decide_True. }
  pose proof (sweep_dict LogEntry.timestamp cutoff _ Hwf_logs) as Hlogs.
  pose proof (sweep_dict MetricDataPoint.timestamp cutoff _ Hwf_metrics) as Hmetrics.
  pose proof (del_traces_filter
                (λ item, TelemetryStore.trace_expired cutoff item.2) _ Hwf_traces)
    as Htraces.
  subst self'. unfold TelemetryStore.cleanup_old_data. rewrite Hsub.
  destruct (TelemetryStore.sweep LogEntry.timestamp _ _) as [logs n_logs].
  destruct (TelemetryStore.sweep MetricDataPoint.timestamp _ _) as [metrics n_metrics].
  cbn [TelemetryStore.set_logs TelemetryStore.set_metrics TelemetryStore._traces
       TelemetryStore._logs TelemetryStore._metrics].
  rewrite Htraces. cbn [fst snd] in *. subst logs metrics.
  cbn [TelemetryStore.set_traces TelemetryStore._traces TelemetryStore._logs
       TelemetryStore._metrics].
  assert (Hget_logs : ∀ service,
    OrderedDict.get_or service []
      ((λ item, (item.1, filter (λ log, cutoff < LogEntry.timestamp log) item.2))
         <$> TelemetryStore._logs self)
    = filter (λ log, cutoff < LogEntry.timestamp log)
        (OrderedDict.get_or service [] (TelemetryStore._logs self))).
  { intros service. unfold OrderedDict.get_or. rewrite get_fmap_values.
    by destruct (OrderedDict.get service (TelemetryStore._logs self)). }
  assert (Hget_metrics : ∀ service,
    OrderedDict.get_or service []
      ((λ item,
          (item.1, filter (λ metric, cutoff < MetricDataPoint.timestamp metric) item.2))
         <$> TelemetryStore._metrics self)
    = filter (λ metric, cutoff < MetricDataPoint.timestamp metric)
        (OrderedDict.get_or service [] (TelemetryStore._metrics self))).
  { intros service. unfold OrderedDict.get_or. rewrite get_fmap_values.
    by destruct (OrderedDict.get service (TelemetryStore._metrics self)). }
  split; [by eexists|].
  split; [apply keys_fmap_values|].
  split; [exact Hget_logs|].
  split.
  { intros service log Hin. rewrite Hget_logs, list_elem_of_filter. split.
    - intros Hnot. destruct (decide (LogEntry.timestamp log ≤ cutoff)); [done|].
      exfalso. apply Hnot. split; [lia|done].
    - intros Hle [Hgt _]. lia. }
  split; [apply keys_fmap_values|].
  split; [exact Hget_metrics|].
  split.
  { intros service metric Hin. rewrite Hget_metrics, list_elem_of_filter. split.
    - intros Hnot. destruct (decide (MetricDataPoint.timestamp metric ≤ cutoff)); [done|].
      exfalso. apply Hnot. split; [lia|done].
    - intros Hle [Hgt _]. lia. }
  split; [done|].
  intros trace_id trace Hget.
  rewrite (get_filter _ _ trace_id trace Hwf_traces Hget). cbn [snd].
  rewrite <-trace_expired_spec.
  destruct (TelemetryStore.trace_expired cutoff trace) eqn:Hexp.
  - rewrite decide_False by (intros Hn; by apply Hn).
    split; [done|]. intros Hnil. unfold TelemetryStore.trace_expired in Hexp.
    by rewrite Hnil in Hexp.
  - rewrite decide_True by (by intros ?). split; [|done]. split; done.
Qed.

Lemma sweep_removes_exactly_the_expired_witness :
  OrderedDict.wf (TelemetryStore._logs sweep_store) ∧
  OrderedDict.wf (TelemetryStore._metrics sweep_store) ∧
  OrderedDict.wf (TelemetryStore._traces sweep_store) ∧
  0 ≤ 200000000000 - TelemetryStore._retention sweep_store ≤ datetime_max ∧
  let self' := (TelemetryStore.cleanup_old_data sweep_store 200000000000).1 in
  OrderedDict.get_or "checkout" [] (TelemetryStore._logs self')
    = [log_at "l2" 113600000001 "checkout"] ∧
  OrderedDict.get_or "checkout" [] (TelemetryStore._metrics self')
    = [metric_at "m2" 113600000001 "checkout"] ∧
  OrderedDict.keys (TelemetryStore._traces self') = ["B"; "C"].
Proof.
  assert (Hwf_logs : OrderedDict.wf (TelemetryStore._logs sweep_store)).
  { apply (bool_decide_unpack _). vm_compute. exact I. }
  assert (Hwf_metrics : OrderedDict.wf (TelemetryStore._metrics sweep_store)).
  { apply (bool_decide_unpack _). vm_compute. exact I. }
  assert (Hwf_traces : OrderedDict.wf (TelemetryStore._traces sweep_store)).
  { apply (bool_decide_unpack _). vm_compute. exact I. }
  assert (Hrange : 0 ≤ 200000000000 - TelemetryStore._retention sweep_store
                     ≤ datetime_max).
  { vm_compute. split; discriminate. }
  destruct (sweep_removes_exactly_the_expired sweep_store 200000000000
              Hwf_logs Hwf_metrics Hwf_traces Hrange)
    as (_ & _ & Hlogs & _ & _ & Hmetrics & _ & Htraces & _).
  split; [exact Hwf_logs|]. split; [exact Hwf_metrics|]. split; [exact Hwf_traces|].
  split; [exact Hrange|]. cbv zeta. split; [|split].
  - rewrite Hlogs. vm_compute. reflexivity.
  - rewrite Hmetrics. vm_compute. reflexivity.
  - rewrite Htraces. vm_compute. reflexivity.
Defined.

(** ** The order of a window query *)

Lemma filter_bind {A B : Type} (P : B → Prop) `{!∀ x, Decision (P x)}
    (f : A → list B) (l : list A) :
  filter P (l ≫= f) = l ≫= λ x, filter P (f x).
Proof.
  induction l as [|x l IH]; [done|].
  by rewrite !bind_cons, filter_app, IH.
Qed.

Lemma filter_none {A : Type} (P : A → Prop) `{!∀ x, Decision (P x)} (l : list A) :
  (∀ x, x ∈ l → ¬ P x) → filter P l = [].
Proof.
  induction l as [|x l IH]; intros Hnone; [done|].
  rewrite filter_cons, decide_False by (apply Hnone; left).
  apply IH. intros y Hy. apply Hnone. by right.
Qed.

Lemma bind_ext_elem {A B : Type} (f g : A → list B) (l : list A) :
  (∀ x, x ∈ l → f x = g x) → l ≫= f = l ≫= g.
Proof.
  induction l as [|x l IH]; intros Heq; [done|].
  rewrite !bind_cons, Heq by left. f_equal. apply IH. intros y Hy. apply Heq. by right.
Qed.

(** A scan of distinct services in which only [service] contributes. *)
Lemma bind_single {B : Type} (g : string → list B) (service : string)
    (services : list string) :
  NoDup services →
  (∀ k, k ≠ service → g k = []) →
  services ≫= g = if decide (service ∈ services) then g service else [].
Proof.
  intros Hnodup Hother. induction Hnodup as [|k services Hk _ IH]; [done|].
  rewrite bind_cons, IH. destruct (decide (k = service)) as [->|Hne].
  - rewrite (decide_False (P := service ∈ services)) by done.
    rewrite (decide_True (P := service ∈ service :: services)) by left.
    by rewrite app_nil_r.
  - rewrite Hother by done. simpl. destruct (decide (service ∈ services)).
    + rewrite decide_True; [done|by right].
    + rewrite decide_False; [done|]. by intros [?|?]%elem_of_cons.
Qed.

Lemma foldl_push_capped_drop {A : Type} (cap : Z) (appended : list A) :
  ∃ n, foldl (push_capped cap) [] appended = drop n appended.
Proof.
  induction appended as [|x appended [n IH]] using rev_ind; [by exists 0%nat|].
  rewrite foldl_app. simpl. rewrite IH.
  assert (Hn : drop n appended ++ [x]
               = drop (n `min` length appended) (appended ++ [x])).
  { rewrite drop_app_le by lia. f_equal.
    destruct (decide (n ≤ length appended)%nat).
    - f_equal. lia.
    - rewrite drop_ge by lia. replace (n `min` length appended)%nat
        with (length appended) by lia. by rewrite drop_all. }
  unfold push_capped. rewrite Hn. destruct (decide _).
  - eexists. by rewrite drop_drop.
  - by eexists.
Qed.

Lemma after_add_logs_wf (self : TelemetryStore.t) (logs : list LogEntry.t) :
  OrderedDict.wf (TelemetryStore._logs self) →
  OrderedDict.wf (TelemetryStore._logs (after_add_logs self logs)).
Proof.
  revert self. induction logs as [|log logs IH]; intros self Hwf; [done|].
  simpl. apply IH. rewrite add_log_logs. by apply wf_set.
Qed.

(** The list of a service in a store filled by appends: a part of the appends
    of that service, in their order. *)
Lemma after_add_logs_entries_drop (fresh : TelemetryStore.t) (inserted : list LogEntry.t)
    (service : string) :
  TelemetryStore._logs fresh = [] →
  ∃ n,
    OrderedDict.get_or service [] (TelemetryStore._logs (after_add_logs fresh inserted))
      = drop n (filter (λ log, LogEntry.service_name log = service) inserted).
Proof.
  intros Hempty. rewrite after_add_logs_entries, Hempty.
  apply foldl_push_capped_drop.
Qed.

Section before_in_facts.
Context {A : Type}.
Implicit Types (l : list A) (a b : A).

Lemma before_in_split l a b :
  before_in l a b ↔ ∃ l1 l2 l3, l = l1 ++ a :: l2 ++ b :: l3.
Proof.
  split.
  - intros (i & j & Hlt & Hi & Hj).
    exists (take i l), (take (j - S i) (drop (S i) l)), (drop (S (j - S i)) (drop (S i) l)).
    rewrite take_drop_middle; [by rewrite take_drop_middle|].
    rewrite lookup_drop. by replace (S i + (j - S i))%nat with j by lia.
  - intros (l1 & l2 & l3 & ->).
    exists (length l1), (length l1 + S (length l2))%nat.
    split; [lia|]. split; [by apply list_lookup_middle|].
    rewrite lookup_app_r by lia.
    replace (length l1 + S (length l2) - length l1)%nat with (S (length l2)) by lia.
    simpl. by apply list_lookup_middle.
Qed.

Lemma before_in_filter (P : A → Prop) `{!∀ x, Decision (P x)} l a b :
  P a → P b → before_in l a b → before_in (filter P l) a b.
Proof.
  intros Ha Hb (l1 & l2 & l3 & ->)%before_in_split. apply before_in_split.
  exists (filter P l1), (filter P l2), (filter P l3).
  rewrite filter_app, filter_cons, decide_True by done.
  by rewrite filter_app, filter_cons, decide_True by done.
Qed.

Lemma before_in_sublist l l' a b :
  l `sublist_of` l' → before_in l a b → before_in l' a b.
Proof.
  intros Hsub (l1 & l2 & l3 & ->)%before_in_split. apply before_in_split.
  apply sublist_app_l in Hsub as (k1 & k2 & -> & _ & Hsub).
  apply sublist_cons_l in Hsub as (k3 & k4 & -> & Hsub).
  apply sublist_app_l in Hsub as (k5 & k6 & -> & _ & Hsub).
  apply sublist_cons_l in Hsub as (k7 & k8 & -> & _).
  exists (k1 ++ k3), (k5 ++ k7), k8. by rewrite <-!(assoc_L (++)).
Qed.

End before_in_facts.

Lemma scan_logs_stable (self : TelemetryStore.t) (start end_ : datetime)
    (services levels : option (list string)) (t : datetime) :
  filter (λ log, LogEntry.timestamp log = t)
      (TelemetryStore.get_logs_in_window self start end_ services levels)
    = or_list services (OrderedDict.keys (TelemetryStore._logs self)) ≫= λ service,
        filter (λ log, LogEntry.timestamp log = t
                       ∧ TelemetryStore.log_selected start end_ levels log)
               (OrderedDict.get_or service [] (TelemetryStore._logs self)).
Proof.
  unfold TelemetryStore.get_logs_in_window, TelemetryStore.scan_logs.
  rewrite sorted_stable, filter_bind. apply bind_ext_elem. intros service _.
  apply list_filter_filter.
Qed.

Lemma same_service_in_insertion_order (fresh : TelemetryStore.t)
    (inserted : list LogEntry.t) (start end_ : datetime)
    (services levels : option (list string)) (service : string) (t : datetime) :
  TelemetryStore._logs fresh = [] →
  NoDup (default [] services) →
  filter (λ log, LogEntry.service_name log = service ∧ LogEntry.timestamp log = t)
    (TelemetryStore.get_logs_in_window (after_add_logs fresh inserted)
       start end_ services levels)
  `sublist_of` inserted.
Proof.
  intros Hempty Hnodup.
  rewrite <-list_filter_filter, scan_logs_stable, filter_bind.
  assert (Htarget :
    NoDup (or_list services
             (OrderedDict.keys (TelemetryStore._logs (after_add_logs fresh inserted))))).
  { assert (Hkeys : NoDup (OrderedDict.keys
                             (TelemetryStore._logs (after_add_logs fresh inserted)))).
    { apply after_add_logs_wf. rewrite Hempty. apply NoDup_nil_2. }
    destruct services as [[|s l]|]; done. }
  rewrite (bind_single _ service _ Htarget).
  - destruct (decide _); [|apply sublist_nil_l].
    destruct (after_add_logs_entries_drop fresh inserted service Hempty) as [n ->].
    etrans; [apply sublist_filter|]. etrans; [apply sublist_filter|].
    etrans; [apply sublist_drop|]. apply sublist_filter.
  - intros k Hne.
    destruct (after_add_logs_entries_drop fresh inserted k Hempty) as [n ->].
    pose proof (sublist_drop
                  (filter (λ log, LogEntry.service_name log = k) inserted) n) as Hlist.
    apply filter_none. intros log Hin Hsvc.
    apply list_elem_of_filter in Hin as [_ Hin].
    apply (elem_of_sublist _ _ _ Hin) in Hlist.
    apply list_elem_of_filter in Hlist as [Hk _]. congruence.
Qed.

(** C5 as stated fails across services: of three logs with one timestamp, the
    second one inserted, of another service than the first, is returned after
    the third. *)
Lemma cross_service_order_counterexample :
  TelemetryStore.get_logs_in_window cross_store 0 10 None None
    = [log_at "l1" 1 "A"; log_at "l3" 1 "A"; log_at "l2" 1 "B"] ∧
  ¬ insertion_order_respected (λ _ _, True) cross_logs
      (TelemetryStore.get_logs_in_window cross_store 0 10 None None).
Proof.
  assert (Hresult : TelemetryStore.get_logs_in_window cross_store 0 10 None None
                    = [log_at "l1" 1 "A"; log_at "l3" 1 "A"; log_at "l2" 1 "B"])
    by (vm_compute; reflexivity).
  split; [exact Hresult|]. rewrite Hresult. intros Horder.
  destruct (Horder (log_at "l3" 1 "A") (log_at "l2" 1 "B"))
    as (i' & j' & Hlt & Hi & Hj);
    [by exists 1%nat, 2%nat; split; [lia|]|reflexivity|exact I|].
  unfold cross_logs in Hi, Hj.
  destruct i' as [|[|[|i']]]; simpl in Hi; try discriminate Hi;
    destruct j' as [|[|[|j']]]; simpl in Hj; try discriminate Hj; lia.
Qed.

(** * Further properties of the store *)

(** ** The calls in closed form *)

(** [add_log] without the intermediate reads of the dictionary. *)
Lemma add_log_eq (self : TelemetryStore.t) (log : LogEntry.t) :
  TelemetryStore.add_log self log =
    let service := LogEntry.service_name log in
    let entries := OrderedDict.get_or service [] (TelemetryStore._logs self) ++ [log] in
    let index := <[LogEntry.id log := log]> (TelemetryStore._logs_by_id self) in
    let appended (logs : odict (list LogEntry.t)) (by_id : gmap string LogEntry.t) :=
      TelemetryStore.mk
        (TelemetryStore._retention self) (TelemetryStore._max_logs self)
        (TelemetryStore._max_metrics self) (TelemetryStore._max_traces self)
        logs (TelemetryStore._metrics self) (TelemetryStore._traces self)
        by_id (TelemetryStore._metrics_by_id self)
        ({[service]} ∪ TelemetryStore._services self)
        (TelemetryStore.mk_stats
           (TelemetryStore.logs_ingested (TelemetryStore._stats self) + 1)
           (TelemetryStore.metrics_ingested (TelemetryStore._stats self))
           (TelemetryStore.traces_ingested (TelemetryStore._stats self))) in
    if decide (TelemetryStore._max_logs self < Z.of_nat (length entries)) then
      match entries with
      | [] => (appended (OrderedDict.set service entries (TelemetryStore._logs self)) index,
               Raised IndexError)
      | removed :: rest =>
          let logs := OrderedDict.set service rest (TelemetryStore._logs self) in
          match index !! LogEntry.id removed with
          | None => (appended logs index, Raised (KeyError (LogEntry.id removed)))
          | Some _ =>
              (appended logs (delete (LogEntry.id removed) index),
               Returned (LogEntry.id log))
          end
      end
    else (appended (OrderedDict.set service entries (TelemetryStore._logs self)) index,
          Returned (LogEntry.id log)).
Proof.
  unfold TelemetryStore.add_log.
  rewrite getitem_default_eq. cbn -[getitem_default OrderedDict.set OrderedDict.get_or].
  rewrite set_set, getitem_default_set.
  cbn -[getitem_default OrderedDict.set OrderedDict.get_or].
  destruct (decide _) as [Hover|Hfits]; [|done].
  destruct (_ ++ [log]) as [|removed rest]; [done|].
  cbn -[OrderedDict.set]. rewrite set_set.
  by destruct (_ !! LogEntry.id removed).
Qed.

Lemma add_metric_eq (self : TelemetryStore.t) (metric : MetricDataPoint.t) :
  TelemetryStore.add_metric self metric =
    let service := MetricDataPoint.service_name metric in
    let entries :=
      OrderedDict.get_or service [] (TelemetryStore._metrics self) ++ [metric] in
    let index :=
      <[MetricDataPoint.id metric := metric]> (TelemetryStore._metrics_by_id self) in
    let appended (metrics : odict (list MetricDataPoint.t))
                 (by_id : gmap string MetricDataPoint.t) :=
      TelemetryStore.mk
        (TelemetryStore._retention self) (TelemetryStore._max_logs self)
        (TelemetryStore._max_metrics self) (TelemetryStore._max_traces self)
        (TelemetryStore._logs self) metrics (TelemetryStore._traces self)
        (TelemetryStore._logs_by_id self) by_id
        ({[service]} ∪ TelemetryStore._services self)
        (TelemetryStore.mk_stats
           (TelemetryStore.logs_ingested (TelemetryStore._stats self))
           (TelemetryStore.metrics_ingested (TelemetryStore._stats self) + 1)
           (TelemetryStore.traces_ingested (TelemetryStore._stats self))) in
    if decide (TelemetryStore._max_metrics self < Z.of_nat (length entries)) then
      match entries with
      | [] => (appended (OrderedDict.set service entries (TelemetryStore._metrics self))
                        index,
               Raised IndexError)
      | removed :: rest =>
          let metrics := OrderedDict.set service rest (TelemetryStore._metrics self) in
          match index !! MetricDataPoint.id removed with
          | None => (appended metrics index,
                     Raised (KeyError (MetricDataPoint.id removed)))
          | Some _ =>
              (appended metrics (delete (MetricDataPoint.id removed) index),
               Returned (MetricDataPoint.id metric))
          end
      end
    else (appended (OrderedDict.set service entries (TelemetryStore._metrics self)) index,
          Returned (MetricDataPoint.id metric)).
Proof.
  unfold TelemetryStore.add_metric.
  rewrite getitem_default_eq. cbn -[getitem_default OrderedDict.set OrderedDict.get_or].
  rewrite set_set, getitem_default_set.
  cbn -[getitem_default OrderedDict.set OrderedDict.get_or].
  destruct (decide _) as [Hover|Hfits]; [|done].
  destruct (_ ++ [metric]) as [|removed rest]; [done|].
  cbn -[OrderedDict.set]. rewrite set_set.
  by destruct (_ !! MetricDataPoint.id removed).
Qed.

Lemma add_trace_eq (self : TelemetryStore.t) (trace : Trace.t) :
  TelemetryStore.add_trace self trace =
    let traces :=
      OrderedDict.set (Trace.trace_id trace) trace (TelemetryStore._traces self) in
    (TelemetryStore.mk
       (TelemetryStore._retention self) (TelemetryStore._max_logs self)
       (TelemetryStore._max_metrics self) (TelemetryStore._max_traces self)
       (TelemetryStore._logs self) (TelemetryStore._metrics self)
       (if decide (TelemetryStore._max_traces self < Z.of_nat (length traces))
        then drop 1 traces else traces)
       (TelemetryStore._logs_by_id self) (TelemetryStore._metrics_by_id self)
       (foldl (λ services span, {[Span.service_name span]} ∪ services)
              (TelemetryStore._services self) (Trace.spans trace))
       (TelemetryStore.mk_stats
          (TelemetryStore.logs_ingested (TelemetryStore._stats self))
          (TelemetryStore.metrics_ingested (TelemetryStore._stats self))
          (TelemetryStore.traces_ingested (TelemetryStore._stats self) + 1)),
     Returned (Trace.trace_id trace)).
Proof.
  unfold TelemetryStore.add_trace. cbn -[OrderedDict.set OrderedDict.del].
  destruct (decide _) as [Hover|Hfits]; [|done].
  destruct (OrderedDict.set _ _ _) as [|[k v] d] eqn:Hset.
  - by apply set_not_nil in Hset.
  - cbn -[OrderedDict.del]. by rewrite del_head.
Qed.

Section stored_facts.
Context {A : Type}.
Implicit Types (d : odict (list A)).

Lemma stored_from (total : Z) (lists : list (list A)) :
  foldl (λ total entries, total + Z.of_nat (length entries)) total lists
    = total + foldl (λ total entries, total + Z.of_nat (length entries)) 0 lists.
Proof.
  revert total. induction lists as [|l lists IH]; intros total; simpl; [lia|].
  rewrite IH, (IH (0 + _)). lia.
Qed.

Lemma stored_cons (k : string) (entries : list A) d :
  TelemetryStore.stored ((k, entries) :: d)
    = Z.of_nat (length entries) + TelemetryStore.stored d.
Proof.
  unfold TelemetryStore.stored, OrderedDict.values.
  rewrite fmap_cons. cbn [foldl snd]. rewrite stored_from. lia.
Qed.

Lemma stored_nonneg d : 0 ≤ TelemetryStore.stored d.
Proof.
  induction d as [|[k entries] d IH]; [done|]. rewrite stored_cons. lia.
Qed.

Lemma stored_sweep_le (timestamp : A → datetime) (cutoff : datetime) d :
  TelemetryStore.stored
      ((λ item, (item.1, filter (λ x, cutoff < timestamp x) item.2)) <$> d)
    ≤ TelemetryStore.stored d.
Proof.
  induction d as [|[k entries] d IH]; [done|].
  rewrite fmap_cons, !stored_cons. simpl.
  pose proof (length_filter (λ x, cutoff < timestamp x) entries). lia.
Qed.

Lemma sweep_from_count (timestamp : A → datetime) (cutoff : datetime)
    (d1 d2 : odict (list A)) (count : Z) :
  OrderedDict.wf (d1 ++ d2) →
  (foldl (TelemetryStore.sweep_service timestamp cutoff) (d1 ++ d2, count)
         (OrderedDict.keys d2)).2
    = count
      + (TelemetryStore.stored d2
         - TelemetryStore.stored
             ((λ item, (item.1, filter (λ x, cutoff < timestamp x) item.2)) <$> d2)).
Proof.
  revert d1 count. induction d2 as [|[k entries] d2 IH]; intros d1 count Hwf.
  { simpl. unfold TelemetryStore.stored. simpl. lia. }
  assert (Hk : k ∉ OrderedDict.keys d1).
  { unfold OrderedDict.wf, OrderedDict.keys in *. rewrite fmap_app in Hwf.
    apply NoDup_app in Hwf as (_ & Hdisj & _). intros Hin.
    apply (Hdisj k Hin). simpl. left. }
  change (OrderedDict.keys ((k, entries) :: d2)) with (k :: OrderedDict.keys d2).
  cbn [foldl]. rewrite sweep_service_at by done.
  rewrite (cons_middle _ d1 d2), (assoc_L (++)).
  rewrite IH.
  - rewrite fmap_cons, !stored_cons. simpl. lia.
  - unfold OrderedDict.wf, OrderedDict.keys in *.
    rewrite !fmap_app in *. rewrite <-(assoc_L (++)). exact Hwf.
Qed.

Lemma sweep_eq (timestamp : A → datetime) (cutoff : datetime) d :
  OrderedDict.wf d →
  TelemetryStore.sweep timestamp cutoff d
    = ((λ item, (item.1, filter (λ x, cutoff < timestamp x) item.2)) <$> d,
       TelemetryStore.stored d
       - TelemetryStore.stored
           ((λ item, (item.1, filter (λ x, cutoff < timestamp x) item.2)) <$> d)).
Proof.
  intros Hwf. apply injective_projections.
  - by apply sweep_dict.
  - unfold TelemetryStore.sweep. cbn [snd].
    pose proof (sweep_from_count timestamp cutoff [] d 0 Hwf) as Hcount.
    rewrite app_nil_l in Hcount. rewrite Hcount. lia.
Qed.

End stored_facts.

Lemma length_filter_complement {A : Type} (P : A → Prop) `{!∀ x, Decision (P x)}
    (l : list A) :
  (length (filter P l) + length (filter (λ x, ¬ P x) l))%nat = length l.
Proof. by rewrite <-length_app, filter_app_complement. Qed.

(** The sweep in closed form, for dictionaries without repeated keys. *)
Lemma cleanup_old_data_eq (self : TelemetryStore.t) (utcnow : datetime) :
  OrderedDict.wf (TelemetryStore._logs self) →
  OrderedDict.wf (TelemetryStore._metrics self) →
  OrderedDict.wf (TelemetryStore._traces self) →
  TelemetryStore.cleanup_old_data self utcnow =
    match datetime_sub utcnow (TelemetryStore._retention self) with
    | None => (self, Raised OverflowError)
    | Some cutoff =>
        let logs :=
          (λ item, (item.1, filter (λ log, cutoff < LogEntry.timestamp log) item.2))
            <$> TelemetryStore._logs self in
        let metrics :=
          (λ item,
             (item.1, filter (λ metric, cutoff < MetricDataPoint.timestamp metric) item.2))
            <$> TelemetryStore._metrics self in
        let traces :=
          filter (λ item, ¬ TelemetryStore.trace_expired cutoff item.2)
                 (TelemetryStore._traces self) in
        (TelemetryStore.mk
           (TelemetryStore._retention self) (TelemetryStore._max_logs self)
           (TelemetryStore._max_metrics self) (TelemetryStore._max_traces self)
           logs metrics traces
           (TelemetryStore._logs_by_id self) (TelemetryStore._metrics_by_id self)
           (TelemetryStore._services self) (TelemetryStore._stats self),
         Returned
           (TelemetryStore.mk_removed
              (TelemetryStore.stored (TelemetryStore._logs self)
               - TelemetryStore.stored logs)
              (TelemetryStore.stored (TelemetryStore._metrics self)
               - TelemetryStore.stored metrics)
              (Z.of_nat (length (TelemetryStore._traces self))
               - Z.of_nat (length traces))))
    end.
Proof.
  intros Hwf_logs Hwf_metrics Hwf_traces. unfold TelemetryStore.cleanup_old_data.
  destruct (datetime_sub _ _) as [cutoff|]; [|done].
  rewrite !sweep_eq by done.
  cbn [TelemetryStore.set_logs TelemetryStore.set_metrics TelemetryStore._traces
       TelemetryStore._logs TelemetryStore._metrics].
  rewrite (del_traces_filter (λ item, TelemetryStore.trace_expired cutoff item.2))
    by done.
  unfold TelemetryStore.set_traces. simpl. do 3 f_equal.
  rewrite length_fmap.
  pose proof (length_filter_complement
                (λ item : string * Trace.t, TelemetryStore.trace_expired cutoff item.2)
                (TelemetryStore._traces self)).
  lia.
Qed.

(** ** Batches *)

(** X1.  [add_traces_batch] never raises: it returns the ids of the traces in
    the order given and leaves the store that the calls of [add_trace], one
    after the other, leave. *)
Theorem add_traces_batch_total (self : TelemetryStore.t) (traces : list Trace.t) :
  TelemetryStore.add_traces_batch self traces
    = (after_add_traces self traces, Returned (Trace.trace_id <$> traces)).
Proof.
  revert self. induction traces as [|trace traces IH]; intros self; [done|].
  cbn [TelemetryStore.add_traces_batch after_add_traces foldl fmap list_fmap].
  pose proof (add_trace_returns self trace) as Hret.
  destruct (TelemetryStore.add_trace self trace) as [self' out] eqn:Hadd.
  simpl in Hret. subst out. by rewrite IH.
Qed.

(** X2.  A batch of logs is not atomic.  When [add_logs_batch] returns, it
    returns the ids of the logs in the order given and the store is the one
    the calls of [add_log] leave.  When it raises, a call of [add_log] raised
    that error: the logs before it stay added, the store is as that failing
    call left it, and the logs after it were not tried. *)
Theorem add_logs_batch_not_atomic (self : TelemetryStore.t) (logs : list LogEntry.t) :
  match TelemetryStore.add_logs_batch self logs with
  | (self', Returned ids) =>
      ids = LogEntry.id <$> logs ∧ self' = after_add_logs self logs
  | (self', Raised e) =>
      ∃ added failing rest,
        logs = added ++ failing :: rest ∧
        TelemetryStore.add_logs_batch self added
          = (after_add_logs self added, Returned (LogEntry.id <$> added)) ∧
        TelemetryStore.add_log (after_add_logs self added) failing = (self', Raised e)
  end.
Proof.
  revert self. induction logs as [|log logs IH]; intros self; [done|].
  cbn [TelemetryStore.add_logs_batch].
  destruct (TelemetryStore.add_log self log) as [self1 [log_id|e]] eqn:Hadd.
  - assert (Hid : log_id = LogEntry.id log).
    { rewrite add_log_eq in Hadd. cbv zeta in Hadd.
      destruct (decide _); [|by injection Hadd as _ <-].
      destruct (_ ++ [log]) as [|removed rest]; [done|].
      destruct (_ !! LogEntry.id removed); [by injection Hadd as _ <-|done]. }
    assert (Hself1 : self1 = (TelemetryStore.add_log self log).1) by by rewrite Hadd.
    specialize (IH self1).
    destruct (TelemetryStore.add_logs_batch self1 logs) as [self2 [ids|e]].
    + destruct IH as [-> ->]. subst log_id self1. done.
    + destruct IH as (added & failing & rest & -> & Hadded & Hfail).
      exists (log :: added), failing, rest. split; [done|].
      cbn [TelemetryStore.add_logs_batch after_add_logs foldl]. rewrite Hadd.
      fold (after_add_logs self1 added). rewrite Hadded.
      subst log_id self1. split; [done|].
      exact Hfail.
  - exists [], log, logs. done.
Qed.

(** ** One append: outcome and point lookups *)

(** X3.  [add_log] raises only [KeyError], and exactly when the list of the
    service is over its bound and the id of its oldest entry is not in the
    by-id index.  Raising or not, the call has stored the log: the list of the
    service is the capped append, the counter is one more, the service is
    registered. *)
Theorem add_log_raises_only_on_unindexed_head (self : TelemetryStore.t)
    (log : LogEntry.t) :
  let service := LogEntry.service_name log in
  let entries := OrderedDict.get_or service [] (TelemetryStore._logs self) ++ [log] in
  let index := <[LogEntry.id log := log]> (TelemetryStore._logs_by_id self) in
  let self' := (TelemetryStore.add_log self log).1 in
  (∀ e,
     (TelemetryStore.add_log self log).2 = Raised e ↔
     ∃ removed rest,
       entries = removed :: rest ∧
       TelemetryStore._max_logs self < Z.of_nat (length entries) ∧
       index !! LogEntry.id removed = None ∧
       e = KeyError (LogEntry.id removed)) ∧
  (∀ log_id,
     (TelemetryStore.add_log self log).2 = Returned log_id → log_id = LogEntry.id log) ∧
  OrderedDict.get_or service [] (TelemetryStore._logs self')
    = push_capped (TelemetryStore._max_logs self)
        (OrderedDict.get_or service [] (TelemetryStore._logs self)) log ∧
  TelemetryStore.logs_ingested (TelemetryStore._stats self')
    = TelemetryStore.logs_ingested (TelemetryStore._stats self) + 1 ∧
  service ∈ TelemetryStore._services self'.
Proof.
  intros service entries index self'. subst self'.
  split; [|split; [|split; [|split]]].
  - intros e. rewrite add_log_eq. cbv zeta. fold service entries index.
    destruct (decide _) as [Hover|Hfits].
    + destruct entries as [|removed rest] eqn:Hentries.
      { subst entries. by destruct (OrderedDict.get_or _ _ _). }
      destruct (index !! LogEntry.id removed) eqn:Hidx; simpl.
      * split; [done|]. intros (removed' & rest' & [= <- <-] & _ & Hnone & _).
        congruence.
      * split.
        -- intros [= <-]. by exists removed, rest.
        -- intros (removed' & rest' & [= <- <-] & _ & _ & ->). done.
    + simpl. split; [done|]. intros (removed & rest & _ & Hover & _). lia.
  - intros log_id. rewrite add_log_eq. cbv zeta. fold service entries index.
    destruct (decide _); [|by intros [= <-]].
    destruct entries as [|removed rest]; [done|].
    destruct (index !! LogEntry.id removed); [by intros [= <-]|done].
  - by rewrite add_log_entries, decide_True.
  - rewrite add_log_eq. cbv zeta.
    destruct (decide _); [|done].
    destruct (_ ++ [log]) as [|removed rest]; [done|].
    by destruct (_ !! LogEntry.id removed).
  - rewrite add_log_eq. cbv zeta.
    destruct (decide _); [|simpl; set_solver].
    destruct (_ ++ [log]) as [|removed rest]; [simpl; set_solver|].
    destruct (_ !! LogEntry.id removed); simpl; set_solver.
Qed.

(** X4.  Point lookups after [add_log].  With a bound of at least 1 and an id
    that no entry of the service's list has, the added log is found by its id.
    The entry that the call evicts is no longer found by its id.  A lookup of
    any other id returns what it returned before, or nothing. *)
Theorem add_log_then_get_log_by_id (self : TelemetryStore.t) (log : LogEntry.t) :
  let service := LogEntry.service_name log in
  let before := OrderedDict.get_or service [] (TelemetryStore._logs self) in
  let self' := (TelemetryStore.add_log self log).1 in
  (1 ≤ TelemetryStore._max_logs self →
   (∀ entry, entry ∈ before → LogEntry.id entry ≠ LogEntry.id log) →
   TelemetryStore.get_log_by_id self' (LogEntry.id log) = Some log) ∧
  (∀ removed rest,
     before ++ [log] = removed :: rest →
     TelemetryStore._max_logs self < Z.of_nat (length (before ++ [log])) →
     (TelemetryStore.add_log self log).2 = Returned (LogEntry.id log) →
     TelemetryStore.get_log_by_id self' (LogEntry.id removed) = None) ∧
  (∀ log_id,
     log_id ≠ LogEntry.id log →
     TelemetryStore.get_log_by_id self' log_id = TelemetryStore.get_log_by_id self log_id ∨
     TelemetryStore.get_log_by_id self' log_id = None).
Proof.
  intros service before self'. subst self'. unfold TelemetryStore.get_log_by_id.
  rewrite add_log_eq. cbv zeta. fold service before.
  split; [|split].
  - intros Hcap Hfresh. destruct (decide _) as [Hover|Hfits]; [|by simplify_map_eq].
    destruct before as [|removed rest] eqn:Hbefore.
    { simpl in Hover. lia. }
    cbn [app]. assert (Hne : LogEntry.id removed ≠ LogEntry.id log).
    { apply Hfresh. left. }
    destruct (_ !! LogEntry.id removed); simpl; by simplify_map_eq.
  - intros removed rest Heq Hover. rewrite Heq in *. rewrite decide_True by done.
    destruct (_ !! LogEntry.id removed) eqn:Hidx; simpl; [|done].
    intros _. by simplify_map_eq.
  - intros log_id Hne. destruct (decide _) as [Hover|Hfits].
    + destruct (before ++ [log]) as [|removed rest]; simpl.
      { left. by simplify_map_eq. }
      destruct (_ !! LogEntry.id removed); simpl.
      * destruct (decide (log_id = LogEntry.id removed)) as [->|Hne'].
        -- right. by simplify_map_eq.
        -- left. by simplify_map_eq.
      * left. by simplify_map_eq.
    + simpl. left. by simplify_map_eq.
Qed.

(** ** Stores reached by calls *)

Lemma after_calls_snoc (self : TelemetryStore.t) (calls : list call) (c : call) :
  after_calls self (calls ++ [c]) = do_call (after_calls self calls) c.
Proof. unfold after_calls. by rewrite foldl_app. Qed.

Lemma after_calls_preserves (P : TelemetryStore.t → Prop) (self : TelemetryStore.t)
    (calls : list call) :
  P self → (∀ self c, P self → P (do_call self c)) → P (after_calls self calls).
Proof.
  intros Hself Hstep. induction calls as [|c calls IH] using rev_ind; [done|].
  rewrite after_calls_snoc. by apply Hstep.
Qed.

(** What [cleanup_old_data] leaves alone, whatever the dictionaries are. *)
Lemma cleanup_frame (self : TelemetryStore.t) (utcnow : datetime) :
  let self' := (TelemetryStore.cleanup_old_data self utcnow).1 in
  TelemetryStore._retention self' = TelemetryStore._retention self ∧
  TelemetryStore._max_logs self' = TelemetryStore._max_logs self ∧
  TelemetryStore._max_metrics self' = TelemetryStore._max_metrics self ∧
  TelemetryStore._max_traces self' = TelemetryStore._max_traces self ∧
  TelemetryStore._logs_by_id self' = TelemetryStore._logs_by_id self ∧
  TelemetryStore._metrics_by_id self' = TelemetryStore._metrics_by_id self ∧
  TelemetryStore._services self' = TelemetryStore._services self ∧
  TelemetryStore._stats self' = TelemetryStore._stats self.
Proof.
  unfold TelemetryStore.cleanup_old_data.
  destruct (datetime_sub _ _); [|done].
  destruct (TelemetryStore.sweep LogEntry.timestamp _ _).
  destruct (TelemetryStore.sweep MetricDataPoint.timestamp _ _).
  destruct (TelemetryStore.del_traces _ _) as [? [?|]]; done.
Qed.

(** Splitting [add_log] and [add_metric] into their cases. *)
Ltac add_log_cases log :=
  rewrite add_log_eq; cbv zeta;
  destruct (decide (_ < _)%Z) as [?Hover|?Hfits];
  [ destruct (_ ++ [log]) as [|?removed ?rest] eqn:?Hentries;
    [ | destruct (_ !! LogEntry.id _) eqn:?Hindex ] | ].

Ltac add_metric_cases metric :=
  rewrite add_metric_eq; cbv zeta;
  destruct (decide (_ < _)%Z) as [?Hover|?Hfits];
  [ destruct (_ ++ [metric]) as [|?removed ?rest] eqn:?Hentries;
    [ | destruct (_ !! MetricDataPoint.id _) eqn:?Hindex ] | ].

Lemma add_log_frame (self : TelemetryStore.t) (log : LogEntry.t) :
  let self' := (TelemetryStore.add_log self log).1 in
  TelemetryStore._retention self' = TelemetryStore._retention self ∧
  TelemetryStore._max_logs self' = TelemetryStore._max_logs self ∧
  TelemetryStore._max_metrics self' = TelemetryStore._max_metrics self ∧
  TelemetryStore._max_traces self' = TelemetryStore._max_traces self ∧
  TelemetryStore._metrics self' = TelemetryStore._metrics self ∧
  TelemetryStore._traces self' = TelemetryStore._traces self ∧
  TelemetryStore._metrics_by_id self' = TelemetryStore._metrics_by_id self ∧
  TelemetryStore._services self'
    = {[LogEntry.service_name log]} ∪ TelemetryStore._services self ∧
  TelemetryStore._stats self'
    = TelemetryStore.mk_stats
        (TelemetryStore.logs_ingested (TelemetryStore._stats self) + 1)
        (TelemetryStore.metrics_ingested (TelemetryStore._stats self))
        (TelemetryStore.traces_ingested (TelemetryStore._stats self)).
Proof. cbv zeta. add_log_cases log; done. Qed.

Lemma add_metric_frame (self : TelemetryStore.t) (metric : MetricDataPoint.t) :
  let self' := (TelemetryStore.add_metric self metric).1 in
  TelemetryStore._retention self' = TelemetryStore._retention self ∧
  TelemetryStore._max_logs self' = TelemetryStore._max_logs self ∧
  TelemetryStore._max_metrics self' = TelemetryStore._max_metrics self ∧
  TelemetryStore._max_traces self' = TelemetryStore._max_traces self ∧
  TelemetryStore._logs self' = TelemetryStore._logs self ∧
  TelemetryStore._traces self' = TelemetryStore._traces self ∧
  TelemetryStore._logs_by_id self' = TelemetryStore._logs_by_id self ∧
  TelemetryStore._services self'
    = {[MetricDataPoint.service_name metric]} ∪ TelemetryStore._services self ∧
  TelemetryStore._stats self'
    = TelemetryStore.mk_stats
        (TelemetryStore.logs_ingested (TelemetryStore._stats self))
        (TelemetryStore.metrics_ingested (TelemetryStore._stats self) + 1)
        (TelemetryStore.traces_ingested (TelemetryStore._stats self)).
Proof. cbv zeta. add_metric_cases metric; done. Qed.

Lemma add_trace_frame (self : TelemetryStore.t) (trace : Trace.t) :
  let self' := (TelemetryStore.add_trace self trace).1 in
  TelemetryStore._retention self' = TelemetryStore._retention self ∧
  TelemetryStore._max_logs self' = TelemetryStore._max_logs self ∧
  TelemetryStore._max_metrics self' = TelemetryStore._max_metrics self ∧
  TelemetryStore._max_traces self' = TelemetryStore._max_traces self ∧
  TelemetryStore._logs self' = TelemetryStore._logs self ∧
  TelemetryStore._metrics self' = TelemetryStore._metrics self ∧
  TelemetryStore._logs_by_id self' = TelemetryStore._logs_by_id self ∧
  TelemetryStore._metrics_by_id self' = TelemetryStore._metrics_by_id self ∧
  TelemetryStore._services self'
    = foldl (λ services span, {[Span.service_name span]} ∪ services)
            (TelemetryStore._services self) (Trace.spans trace) ∧
  TelemetryStore._stats self'
    = TelemetryStore.mk_stats
        (TelemetryStore.logs_ingested (TelemetryStore._stats self))
        (TelemetryStore.metrics_ingested (TelemetryStore._stats self))
        (TelemetryStore.traces_ingested (TelemetryStore._stats self) + 1).
Proof. cbv zeta. rewrite add_trace_eq. done. Qed.

(** No call changes the horizon or a bound. *)
Lemma do_call_config (self : TelemetryStore.t) (c : call) :
  TelemetryStore._retention (do_call self c) = TelemetryStore._retention self ∧
  TelemetryStore._max_logs (do_call self c) = TelemetryStore._max_logs self ∧
  TelemetryStore._max_metrics (do_call self c) = TelemetryStore._max_metrics self ∧
  TelemetryStore._max_traces (do_call self c) = TelemetryStore._max_traces self.
Proof.
  destruct c as [log|metric|trace|utcnow|]; simpl.
  - destruct (add_log_frame self log) as (? & ? & ? & ? & _). done.
  - destruct (add_metric_frame self metric) as (? & ? & ? & ? & _). done.
  - destruct (add_trace_frame self trace) as (? & ? & ? & ? & _). done.
  - destruct (cleanup_frame self utcnow) as (? & ? & ? & ? & _). done.
  - done.
Qed.

Lemma after_calls_config (self : TelemetryStore.t) (calls : list call) :
  TelemetryStore._retention (after_calls self calls) = TelemetryStore._retention self ∧
  TelemetryStore._max_logs (after_calls self calls) = TelemetryStore._max_logs self ∧
  TelemetryStore._max_metrics (after_calls self calls)
    = TelemetryStore._max_metrics self ∧
  TelemetryStore._max_traces (after_calls self calls) = TelemetryStore._max_traces self.
Proof.
  induction calls as [|c calls IH] using rev_ind; [done|].
  rewrite after_calls_snoc.
  destruct (do_call_config (after_calls self calls) c) as (-> & -> & -> & ->).
  exact IH.
Qed.

Lemma wf_filter {V : Type} (P : string * V → Prop) `{!∀ item, Decision (P item)}
    (d : odict V) :
  OrderedDict.wf d → OrderedDict.wf (filter P d).
Proof.
  unfold OrderedDict.wf, OrderedDict.keys. intros Hwf.
  apply (sublist_NoDup _ d.*1); [exact Hwf|apply fmap_sublist, sublist_filter].
Qed.

Lemma wf_drop {V : Type} (n : nat) (d : odict V) :
  OrderedDict.wf d → OrderedDict.wf (drop n d).
Proof.
  unfold OrderedDict.wf, OrderedDict.keys. intros Hwf.
  apply (sublist_NoDup _ d.*1); [exact Hwf|apply fmap_sublist, sublist_drop].
Qed.

Lemma wf_fmap_values {V : Type} (f : V → V) (d : odict V) :
  OrderedDict.wf d → OrderedDict.wf ((λ item, (item.1, f item.2)) <$> d).
Proof. unfold OrderedDict.wf. by rewrite keys_fmap_values. Qed.

Lemma do_call_dicts_wf (self : TelemetryStore.t) (c : call) :
  dicts_wf self → dicts_wf (do_call self c).
Proof.
  intros (Hlogs & Hmetrics & Htraces). unfold dicts_wf.
  destruct c as [log|metric|trace|utcnow|]; simpl.
  - destruct (add_log_frame self log) as (_ & _ & _ & _ & -> & -> & _).
    rewrite add_log_logs. split; [by apply wf_set|done].
  - destruct (add_metric_frame self metric) as (_ & _ & _ & _ & -> & -> & _).
    rewrite add_metric_metrics. split; [done|]. split; [by apply wf_set|done].
  - destruct (add_trace_frame self trace) as (_ & _ & _ & _ & -> & -> & _).
    rewrite add_trace_traces. cbv zeta. split; [done|]. split; [done|].
    destruct (decide _); [apply wf_drop|]; by apply wf_set.
  - rewrite cleanup_old_data_eq by done.
    destruct (datetime_sub _ _); [|done]. simpl.
    split; [by apply wf_fmap_values|]. split; [by apply wf_fmap_values|].
    by apply wf_filter.
  - repeat split; apply NoDup_nil_2.
Qed.

Lemma after_calls_dicts_wf (self : TelemetryStore.t) (calls : list call) :
  dicts_wf self → dicts_wf (after_calls self calls).
Proof. intros Hwf. apply after_calls_preserves; [done|apply do_call_dicts_wf]. Qed.

Lemma empty_store_dicts_wf (retention : timedelta) (max_logs max_metrics max_traces : Z) :
  dicts_wf (empty_store retention max_logs max_metrics max_traces).
Proof. repeat split; apply NoDup_nil_2. Qed.

(** The lists after a sweep, in a store without repeated keys. *)
Lemma cleanup_entries (self : TelemetryStore.t) (utcnow : datetime) :
  dicts_wf self →
  let self' := (TelemetryStore.cleanup_old_data self utcnow).1 in
  (∀ service,
     OrderedDict.get_or service [] (TelemetryStore._logs self')
       `sublist_of` OrderedDict.get_or service [] (TelemetryStore._logs self)) ∧
  (∀ service,
     OrderedDict.get_or service [] (TelemetryStore._metrics self')
       `sublist_of` OrderedDict.get_or service [] (TelemetryStore._metrics self)) ∧
  TelemetryStore._traces self' `sublist_of` TelemetryStore._traces self.
Proof.
  intros (Hlogs & Hmetrics & Htraces). cbv zeta.
  rewrite cleanup_old_data_eq by done.
  destruct (datetime_sub _ _) as [cutoff|]; [|done]. simpl.
  split; [|split].
  - intros service. unfold OrderedDict.get_or. rewrite get_fmap_values.
    destruct (OrderedDict.get service _); simpl; [apply sublist_filter|done].
  - intros service. unfold OrderedDict.get_or. rewrite get_fmap_values.
    destruct (OrderedDict.get service _); simpl; [apply sublist_filter|done].
  - apply sublist_filter.
Qed.

Lemma length_push_capped {A : Type} (cap : Z) (entries : list A) (x : A) :
  Z.of_nat (length entries) ≤ cap →
  Z.of_nat (length (push_capped cap entries x)) ≤ cap.
Proof.
  intros Hlen. unfold push_capped. destruct (decide _) as [Hover|Hfits]; [|lia].
  rewrite length_drop, length_app. simpl. lia.
Qed.

Lemma do_call_within_bounds (self : TelemetryStore.t) (c : call) :
  dicts_wf self → within_bounds self → within_bounds (do_call self c).
Proof.
  intros Hwf (Hlogs & Hmetrics & Htraces). unfold within_bounds.
  destruct (do_call_config self c) as (_ & -> & -> & ->).
  destruct c as [log|metric|trace|utcnow|]; simpl.
  - destruct (add_log_frame self log) as (_ & _ & _ & _ & -> & -> & _).
    split; [|done]. intros service. rewrite add_log_entries.
    destruct (decide _) as [<-|]; [|done]. by apply length_push_capped.
  - destruct (add_metric_frame self metric) as (_ & _ & _ & _ & -> & -> & _).
    split; [done|]. split; [|done]. intros service. rewrite add_metric_entries.
    destruct (decide _) as [<-|]; [|done]. by apply length_push_capped.
  - destruct (add_trace_frame self trace) as (_ & _ & _ & _ & -> & -> & _).
    split; [done|]. split; [done|]. rewrite add_trace_traces. cbv zeta.
    pose proof (length_set_le (Trace.trace_id trace) trace (TelemetryStore._traces self)).
    destruct (decide _) as [Hover|Hfits]; [|lia]. rewrite length_drop. lia.
  - destruct (cleanup_entries self utcnow Hwf) as (Hl & Hm & Ht).
    split; [|split].
    + intros service. specialize (Hl service). apply sublist_length in Hl.
      specialize (Hlogs service). lia.
    + intros service. specialize (Hm service). apply sublist_length in Hm.
      specialize (Hmetrics service). lia.
    + apply sublist_length in Ht. lia.
  - split; [|split]; [intros service; simpl; specialize (Hlogs service); lia
                     |intros service; simpl; specialize (Hmetrics service); lia
                     |simpl; lia].
Qed.

(** X5.  The bounds hold whatever is called.  In a store that [__init__]
    returned with bounds that are not negative, after any sequence of
    [add_log], [add_metric], [add_trace], [cleanup_old_data] and [clear] calls,
    no list of logs or of metric points is longer than its bound and the
    traces are no more than theirs. *)
Theorem bounds_hold_after_any_calls (settings : Settings.t)
    (retention_hours max_logs_per_service max_metrics_per_service max_traces : option Z)
    (fresh : TelemetryStore.t) (calls : list call) :
  TelemetryStore.__init__ settings retention_hours
    max_logs_per_service max_metrics_per_service max_traces = Returned fresh →
  0 ≤ TelemetryStore._max_logs fresh →
  0 ≤ TelemetryStore._max_metrics fresh →
  0 ≤ TelemetryStore._max_traces fresh →
  let self := after_calls fresh calls in
  (∀ service,
     Z.of_nat (length (OrderedDict.get_or service [] (TelemetryStore._logs self)))
       ≤ TelemetryStore._max_logs fresh) ∧
  (∀ service,
     Z.of_nat (length (OrderedDict.get_or service [] (TelemetryStore._metrics self)))
       ≤ TelemetryStore._max_metrics fresh) ∧
  Z.of_nat (length (TelemetryStore._traces self)) ≤ TelemetryStore._max_traces fresh.
Proof.
  intros Hinit Hlogs Hmetrics Htraces self. subst self.
  apply init_empty in Hinit.
  assert (Hinv : dicts_wf (after_calls fresh calls)
                 ∧ within_bounds (after_calls fresh calls)).
  { apply (after_calls_preserves (λ self, dicts_wf self ∧ within_bounds self)).
    - split; [rewrite Hinit; apply empty_store_dicts_wf|].
      rewrite Hinit in *. repeat split; simpl in *; try done.
    - intros self c [Hwf Hb]. split; [by apply do_call_dicts_wf|].
      by apply do_call_within_bounds. }
  destruct Hinv as [_ Hb]. unfold within_bounds in Hb.
  by destruct (after_calls_config fresh calls) as (_ & <- & <- & <-).
Qed.

Lemma elem_of_push_capped {A : Type} (cap : Z) (entries : list A) (x y : A) :
  y ∈ push_capped cap entries x → y ∈ entries ∨ y = x.
Proof.
  unfold push_capped. intros Hin.
  assert (Hin' : y ∈ entries ++ [x]).
  { destruct (decide _); [|done]. by apply (elem_of_sublist _ _ _ Hin), sublist_drop. }
  apply elem_of_app in Hin' as [?|?%list_elem_of_singleton]; auto.
Qed.

Lemma get_sublist {V : Type} (k : string) (v : V) (d d' : odict V) :
  OrderedDict.wf d → d' `sublist_of` d →
  OrderedDict.get k d' = Some v → OrderedDict.get k d = Some v.
Proof.
  intros Hwf Hsub Hget. apply elem_get_Some; [done|].
  apply (elem_of_sublist _ _ _ (get_Some_elem _ _ _ Hget) Hsub).
Qed.

Lemma get_set_Some {V : Type} (k k' : string) (v v' : V) (d : odict V) :
  OrderedDict.get k' (OrderedDict.set k v d) = Some v' →
  (k' = k ∧ v' = v) ∨ (k' ≠ k ∧ OrderedDict.get k' d = Some v').
Proof.
  destruct (decide (k = k')) as [->|Hne].
  - rewrite get_set_eq. intros [= ->]. by left.
  - rewrite get_set_ne by done. intros Hget. right. split; [congruence|done].
Qed.

(** The traces after [add_trace], in a store without repeated keys: the new
    one, or one of before. *)
Lemma add_trace_get (self : TelemetryStore.t) (trace : Trace.t) (k : string)
    (t : Trace.t) :
  OrderedDict.wf (TelemetryStore._traces self) →
  OrderedDict.get k (TelemetryStore._traces (TelemetryStore.add_trace self trace).1)
    = Some t →
  (k = Trace.trace_id trace ∧ t = trace) ∨
  OrderedDict.get k (TelemetryStore._traces self) = Some t.
Proof.
  intros Hwf. rewrite add_trace_traces. cbv zeta. intros Hget.
  assert (Hget' : OrderedDict.get k
                    (OrderedDict.set (Trace.trace_id trace) trace
                       (TelemetryStore._traces self)) = Some t).
  { destruct (decide _); [|done].
    eapply get_sublist; [by apply wf_set|apply sublist_drop|exact Hget]. }
  apply get_set_Some in Hget' as [?|[_ ?]]; auto.
Qed.

Lemma elem_of_registered (services : gset string) (spans : list Span.t)
    (service : string) :
  service ∈ foldl (λ services span, {[Span.service_name span]} ∪ services) services spans
  ↔ service ∈ services ∨ ∃ span, span ∈ spans ∧ Span.service_name span = service.
Proof.
  revert services. induction spans as [|span spans IH]; intros services; simpl.
  - split; [by left|]. intros [?|(? & []%elem_of_nil & _)]. done.
  - rewrite IH. split.
    + intros [[->%elem_of_singleton|?]%elem_of_union|(s & Hs & <-)].
      * right. exists span. split; [left|done].
      * by left.
      * right. exists s. split; [by right|done].
    + intros [?|(s & [->|Hs]%elem_of_cons & <-)].
      * left. apply elem_of_union. by right.
      * left. apply elem_of_union. left. by apply elem_of_singleton.
      * right. by exists s.
Qed.

Lemma do_call_keyed (self : TelemetryStore.t) (c : call) :
  dicts_wf self → keyed self → keyed (do_call self c).
Proof.
  intros Hwf (Hlogs & Hmetrics & Htraces). unfold keyed.
  destruct c as [log|metric|trace|utcnow|]; simpl.
  - destruct (add_log_frame self log) as (_ & _ & _ & _ & -> & -> & _).
    split; [|done]. intros service entry. rewrite add_log_entries.
    destruct (decide _) as [<-|]; [|by apply Hlogs].
    intros [?| ->]%elem_of_push_capped; [by apply Hlogs|done].
  - destruct (add_metric_frame self metric) as (_ & _ & _ & _ & -> & -> & _).
    split; [done|]. split; [|done]. intros service entry. rewrite add_metric_entries.
    destruct (decide _) as [<-|]; [|by apply Hmetrics].
    intros [?| ->]%elem_of_push_capped; [by apply Hmetrics|done].
  - destruct (add_trace_frame self trace) as (_ & _ & _ & _ & -> & -> & _).
    split; [done|]. split; [done|]. intros k t Hget.
    apply add_trace_get in Hget as [[-> ->]|Hget]; [done| |apply Hwf]. by apply Htraces.
  - destruct (cleanup_entries self utcnow Hwf) as (Hl & Hm & Ht).
    split; [|split].
    + intros service entry Hin. apply Hlogs. by apply (elem_of_sublist _ _ _ Hin).
    + intros service entry Hin. apply Hmetrics. by apply (elem_of_sublist _ _ _ Hin).
    + intros k t Hget. apply Htraces. eapply get_sublist; [apply Hwf|exact Ht|exact Hget].
  - split; [|split]; [intros ?? []%elem_of_nil|intros ?? []%elem_of_nil|done].
Qed.

Lemma do_call_registry_covers (self : TelemetryStore.t) (c : call) :
  dicts_wf self → registry_covers self → registry_covers (do_call self c).
Proof.
  intros Hwf (Hlogs & Hmetrics & Htraces). unfold registry_covers.
  destruct c as [log|metric|trace|utcnow|]; simpl.
  - destruct (add_log_frame self log) as (_ & _ & _ & _ & -> & -> & _ & -> & _).
    split; [|split].
    + intros service entry. rewrite add_log_entries.
      destruct (decide _) as [<-|].
      * intros [?| ->]%elem_of_push_capped; [|set_solver].
        apply elem_of_union. right. by eapply Hlogs.
      * intros Hin. apply elem_of_union. right. by eapply Hlogs.
    + intros service entry Hin. apply elem_of_union. right. by eapply Hmetrics.
    + intros k t span Hget Hspan. apply elem_of_union. right. by eapply Htraces.
  - destruct (add_metric_frame self metric) as (_ & _ & _ & _ & -> & -> & _ & -> & _).
    split; [|split].
    + intros service entry Hin. apply elem_of_union. right. by eapply Hlogs.
    + intros service entry. rewrite add_metric_entries.
      destruct (decide _) as [<-|].
      * intros [?| ->]%elem_of_push_capped; [|set_solver].
        apply elem_of_union. right. by eapply Hmetrics.
      * intros Hin. apply elem_of_union. right. by eapply Hmetrics.
    + intros k t span Hget Hspan. apply elem_of_union. right. by eapply Htraces.
  - destruct (add_trace_frame self trace)
      as (_ & _ & _ & _ & -> & -> & _ & _ & -> & _).
    split; [|split].
    + intros service entry Hin. apply elem_of_registered. left. by eapply Hlogs.
    + intros service entry Hin. apply elem_of_registered. left. by eapply Hmetrics.
    + intros k t span Hget Hspan. apply elem_of_registered.
      apply add_trace_get in Hget as [[-> ->]|Hget]; [|left; by eapply Htraces|apply Hwf].
      right. by exists span.
  - destruct (cleanup_entries self utcnow Hwf) as (Hl & Hm & Ht).
    destruct (cleanup_frame self utcnow) as (_ & _ & _ & _ & _ & _ & -> & _).
    split; [|split].
    + intros service entry Hin. eapply Hlogs. by apply (elem_of_sublist _ _ _ Hin).
    + intros service entry Hin. eapply Hmetrics. by apply (elem_of_sublist _ _ _ Hin).
    + intros k t span Hget Hspan. eapply Htraces; [|exact Hspan].
      eapply get_sublist; [apply Hwf|exact Ht|exact Hget].
  - split; [|split]; [intros ?? []%elem_of_nil|intros ?? []%elem_of_nil|done].
Qed.

(** X6.  The registry covers what is stored, whatever is called.  In a store
    that [__init__] returned, after any sequence of calls the service name of
    every stored log, of every stored metric point and of every span of a
    stored trace is among [get_services]; each log and metric point stands in
    the list of its own service and each trace under its own id. *)
Theorem registry_covers_stored_after_any_calls (settings : Settings.t)
    (retention_hours max_logs_per_service max_metrics_per_service max_traces : option Z)
    (fresh : TelemetryStore.t) (calls : list call) :
  TelemetryStore.__init__ settings retention_hours
    max_logs_per_service max_metrics_per_service max_traces = Returned fresh →
  let self := after_calls fresh calls in
  (∀ service log,
     log ∈ OrderedDict.get_or service [] (TelemetryStore._logs self) →
     LogEntry.service_name log = service ∧
     service ∈ TelemetryStore.get_services self) ∧
  (∀ service metric,
     metric ∈ OrderedDict.get_or service [] (TelemetryStore._metrics self) →
     MetricDataPoint.service_name metric = service ∧
     service ∈ TelemetryStore.get_services self) ∧
  (∀ trace_id trace span,
     TelemetryStore.get_trace_by_id self trace_id = Some trace →
     Trace.trace_id trace = trace_id ∧
     (span ∈ Trace.spans trace →
      Span.service_name span ∈ TelemetryStore.get_services self)).
Proof.
  intros Hinit self. subst self. apply init_empty in Hinit.
  assert (Hinv : dicts_wf (after_calls fresh calls)
                 ∧ keyed (after_calls fresh calls)
                 ∧ registry_covers (after_calls fresh calls)).
  { apply (after_calls_preserves
             (λ self, dicts_wf self ∧ keyed self ∧ registry_covers self)).
    - rewrite Hinit. split; [apply empty_store_dicts_wf|].
      split; (split; [|split]); try (by intros ?? []%elem_of_nil); done.
    - intros self c (Hwf & Hk & Hr). split; [by apply do_call_dicts_wf|].
      split; [by apply do_call_keyed|by apply do_call_registry_covers]. }
  destruct Hinv as (_ & (Hk1 & Hk2 & Hk3) & (Hr1 & Hr2 & Hr3)).
  unfold TelemetryStore.get_services, TelemetryStore.get_trace_by_id.
  split; [|split].
  - intros service log Hin. specialize (Hk1 _ _ Hin). split; [done|].
    apply elem_of_elements. rewrite <-Hk1. by eapply Hr1.
  - intros service metric Hin. specialize (Hk2 _ _ Hin). split; [done|].
    apply elem_of_elements. rewrite <-Hk2. by eapply Hr2.
  - intros trace_id trace span Hget. split; [by apply Hk3|].
    intros Hspan. apply elem_of_elements. by eapply Hr3.
Qed.

Lemma count_calls_snoc (calls : list call) (c : call) :
  count_calls (calls ++ [c]) =
    let '(n_logs, n_metrics, n_traces) := count_calls calls in
    match c with
    | AddLog _ => (n_logs + 1, n_metrics, n_traces)
    | AddMetric _ => (n_logs, n_metrics + 1, n_traces)
    | AddTrace _ => (n_logs, n_metrics, n_traces + 1)
    | Cleanup _ | Clear => (n_logs, n_metrics, n_traces)
    end.
Proof.
  unfold count_calls. rewrite foldl_app. cbn [foldl].
  by destruct (foldl _ _ calls) as [[n_logs n_metrics] n_traces].
Qed.

(** X7.  The ingested counters count calls.  After any sequence of calls,
    each counter is its value before plus the number of [add_log],
    [add_metric] or [add_trace] calls of the sequence: a call counts whether
    it raised or not and whether its entry was evicted or swept since, and
    [cleanup_old_data] and [clear] change no counter. *)
Theorem counters_count_calls (self : TelemetryStore.t) (calls : list call) :
  let '(n_logs, n_metrics, n_traces) := count_calls calls in
  let report := TelemetryStore.get_stats (after_calls self calls) in
  TelemetryStore.report_logs_ingested report
    = TelemetryStore.report_logs_ingested (TelemetryStore.get_stats self) + n_logs ∧
  TelemetryStore.report_metrics_ingested report
    = TelemetryStore.report_metrics_ingested (TelemetryStore.get_stats self)
      + n_metrics ∧
  TelemetryStore.report_traces_ingested report
    = TelemetryStore.report_traces_ingested (TelemetryStore.get_stats self) + n_traces ∧
  0 ≤ n_logs ∧ 0 ≤ n_metrics ∧ 0 ≤ n_traces.
Proof.
  induction calls as [|c calls IH] using rev_ind.
  { simpl. lia. }
  rewrite count_calls_snoc, after_calls_snoc.
  destruct (count_calls calls) as [[n_logs n_metrics] n_traces].
  cbv zeta in IH. simpl in IH. destruct IH as (Hl & Hm & Ht & ? & ? & ?).
  destruct c as [log|metric|trace|utcnow|]; simpl.
  - destruct (add_log_frame (after_calls self calls) log)
      as (_ & _ & _ & _ & _ & _ & _ & _ & ->). simpl. lia.
  - destruct (add_metric_frame (after_calls self calls) metric)
      as (_ & _ & _ & _ & _ & _ & _ & _ & ->). simpl. lia.
  - destruct (add_trace_frame (after_calls self calls) trace)
      as (_ & _ & _ & _ & _ & _ & _ & _ & _ & ->). simpl. lia.
  - destruct (cleanup_frame (after_calls self calls) utcnow)
      as (_ & _ & _ & _ & _ & _ & _ & ->). lia.
  - lia.
Qed.

(** ** The by-id index *)

Lemma add_log_logs_indexed (self : TelemetryStore.t) (log : LogEntry.t) :
  keyed self → logs_indexed self →
  TelemetryStore._logs_by_id self !! LogEntry.id log = None →
  logs_indexed (TelemetryStore.add_log self log).1 ∧
  (TelemetryStore.add_log self log).2 = Returned (LogEntry.id log).
Proof.
  intros (Hkeyed & _) (Hnodup & Hindexed) Hfresh.
  set (service := LogEntry.service_name log).
  set (before := OrderedDict.get_or service [] (TelemetryStore._logs self)).
  assert (Hnew : ∀ s entry,
            entry ∈ OrderedDict.get_or s [] (TelemetryStore._logs self) →
            LogEntry.id entry ≠ LogEntry.id log).
  { intros s entry Hin Heq. apply Hindexed in Hin. congruence. }
  assert (F1 : NoDup (LogEntry.id <$> before ++ [log])).
  { rewrite fmap_app. change (LogEntry.id <$> [log]) with [LogEntry.id log].
    apply NoDup_app. split; [apply Hnodup|].
    split; [|apply NoDup_singleton].
    intros i (entry & -> & Hin)%list_elem_of_fmap Heq%list_elem_of_singleton.
    by apply (Hnew service entry). }
  assert (F2 : ∀ s entry,
            entry ∈ OrderedDict.get_or s [] (TelemetryStore._logs self)
            ∨ entry = log →
            <[LogEntry.id log := log]> (TelemetryStore._logs_by_id self)
              !! LogEntry.id entry = Some entry).
  { intros s entry [Hin| ->]; [|by simplify_map_eq].
    rewrite lookup_insert_ne by (apply not_eq_sym; by eapply Hnew). by eapply Hindexed. }
  unfold logs_indexed.
  rewrite add_log_eq. cbv zeta. fold service before.
  destruct (decide _) as [Hover|Hfits]; simpl.
  - destruct (before ++ [log]) as [|removed rest] eqn:Hentries.
    { by destruct before. }
    assert (Hremoved : removed ∈ before ∨ removed = log).
    { assert (Hin : removed ∈ before ++ [log]) by (rewrite Hentries; left).
      apply elem_of_app in Hin as [?|?%list_elem_of_singleton]; auto. }
    rewrite (F2 service removed Hremoved). simpl. split; [|done].
    rewrite fmap_cons in F1. apply NoDup_cons in F1 as [Hhead Hrest].
    assert (Hsvc_removed : LogEntry.service_name removed = service).
    { destruct Hremoved as [Hin| ->]; [by apply Hkeyed|done]. }
    split.
    + intros s. destruct (decide (service = s)) as [<-|Hne].
      * by rewrite get_or_set_eq.
      * rewrite get_or_set_ne by done. apply Hnodup.
    + intros s entry. destruct (decide (service = s)) as [<-|Hne].
      * rewrite get_or_set_eq. intros Hin.
        assert (Hin' : entry ∈ before ∨ entry = log).
        { assert (Hin' : entry ∈ before ++ [log]) by (rewrite Hentries; by right).
          apply elem_of_app in Hin' as [?|?%list_elem_of_singleton]; auto. }
        rewrite lookup_delete_ne; [by apply (F2 service)|].
        intros Heq. apply Hhead. rewrite Heq. by apply list_elem_of_fmap_2.
      * rewrite get_or_set_ne by done. intros Hin.
        rewrite lookup_delete_ne; [apply (F2 s); by left|].
        intros Heq.
        assert (Hsame : Some removed = Some entry).
        { rewrite <-(F2 service removed Hremoved), Heq. apply (F2 s). by left. }
        injection Hsame as ->. apply Hne. rewrite <-Hsvc_removed. by apply Hkeyed.
  - split; [|done]. split.
    + intros s. destruct (decide (service = s)) as [<-|Hne].
      * by rewrite get_or_set_eq.
      * rewrite get_or_set_ne by done. apply Hnodup.
    + intros s entry. destruct (decide (service = s)) as [<-|Hne].
      * rewrite get_or_set_eq. intros [?|?%list_elem_of_singleton]%elem_of_app;
          apply (F2 service); auto.
      * rewrite get_or_set_ne by done. intros Hin. apply (F2 s). by left.
Qed.

Lemma add_metric_metrics_indexed (self : TelemetryStore.t) (metric : MetricDataPoint.t) :
  keyed self → metrics_indexed self →
  TelemetryStore._metrics_by_id self !! MetricDataPoint.id metric = None →
  metrics_indexed (TelemetryStore.add_metric self metric).1 ∧
  (TelemetryStore.add_metric self metric).2 = Returned (MetricDataPoint.id metric).
Proof.
  intros (_ & Hkeyed & _) (Hnodup & Hindexed) Hfresh.
  set (service := MetricDataPoint.service_name metric).
  set (before := OrderedDict.get_or service [] (TelemetryStore._metrics self)).
  assert (Hnew : ∀ s entry,
            entry ∈ OrderedDict.get_or s [] (TelemetryStore._metrics self) →
            MetricDataPoint.id entry ≠ MetricDataPoint.id metric).
  { intros s entry Hin Heq. apply Hindexed in Hin. congruence. }
  assert (F1 : NoDup (MetricDataPoint.id <$> before ++ [metric])).
  { rewrite fmap_app. change (MetricDataPoint.id <$> [metric]) with [MetricDataPoint.id metric].
    apply NoDup_app. split; [apply Hnodup|].
    split; [|apply NoDup_singleton].
    intros i (entry & -> & Hin)%list_elem_of_fmap Heq%list_elem_of_singleton.
    by apply (Hnew service entry). }
  assert (F2 : ∀ s entry,
            entry ∈ OrderedDict.get_or s [] (TelemetryStore._metrics self)
            ∨ entry = metric →
            <[MetricDataPoint.id metric := metric]> (TelemetryStore._metrics_by_id self)
              !! MetricDataPoint.id entry = Some entry).
  { intros s entry [Hin| ->]; [|by simplify_map_eq].
    rewrite lookup_insert_ne by (apply not_eq_sym; by eapply Hnew). by eapply Hindexed. }
  unfold metrics_indexed.
  rewrite add_metric_eq. cbv zeta. fold service before.
  destruct (decide _) as [Hover|Hfits]; simpl.
  - destruct (before ++ [metric]) as [|removed rest] eqn:Hentries.
    { by destruct before. }
    assert (Hremoved : removed ∈ before ∨ removed = metric).
    { assert (Hin : removed ∈ before ++ [metric]) by (rewrite Hentries; left).
      apply elem_of_app in Hin as [?|?%list_elem_of_singleton]; auto. }
    rewrite (F2 service removed Hremoved). simpl. split; [|done].
    rewrite fmap_cons in F1. apply NoDup_cons in F1 as [Hhead Hrest].
    assert (Hsvc_removed : MetricDataPoint.service_name removed = service).
    { destruct Hremoved as [Hin| ->]; [by apply Hkeyed|done]. }
    split.
    + intros s. destruct (decide (service = s)) as [<-|Hne].
      * by rewrite get_or_set_eq.
      * rewrite get_or_set_ne by done. apply Hnodup.
    + intros s entry. destruct (decide (service = s)) as [<-|Hne].
      * rewrite get_or_set_eq. intros Hin.
        assert (Hin' : entry ∈ before ∨ entry = metric).
        { assert (Hin' : entry ∈ before ++ [metric]) by (rewrite Hentries; by right).
          apply elem_of_app in Hin' as [?|?%list_elem_of_singleton]; auto. }
        rewrite lookup_delete_ne; [by apply (F2 service)|].
        intros Heq. apply Hhead. rewrite Heq. by apply list_elem_of_fmap_2.
      * rewrite get_or_set_ne by done. intros Hin.
        rewrite lookup_delete_ne; [apply (F2 s); by left|].
        intros Heq.
        assert (Hsame : Some removed = Some entry).
        { rewrite <-(F2 service removed Hremoved), Heq. apply (F2 s). by left. }
        injection Hsame as ->. apply Hne. rewrite <-Hsvc_removed. by apply Hkeyed.
  - split; [|done]. split.
    + intros s. destruct (decide (service = s)) as [<-|Hne].
      * by rewrite get_or_set_eq.
      * rewrite get_or_set_ne by done. apply Hnodup.
    + intros s entry. destruct (decide (service = s)) as [<-|Hne].
      * rewrite get_or_set_eq. intros [?|?%list_elem_of_singleton]%elem_of_app;
          apply (F2 service); auto.
      * rewrite get_or_set_ne by done. intros Hin. apply (F2 s). by left.
Qed.

Lemma added_log_ids_snoc (calls : list call) (c : call) :
  added_log_ids (calls ++ [c])
    = added_log_ids calls ++ match c with AddLog log => [LogEntry.id log] | _ => [] end.
Proof. unfold added_log_ids. by rewrite bind_app, bind_cons, app_nil_r. Qed.

Lemma added_metric_ids_snoc (calls : list call) (c : call) :
  added_metric_ids (calls ++ [c])
    = added_metric_ids calls
      ++ match c with AddMetric metric => [MetricDataPoint.id metric] | _ => [] end.
Proof. unfold added_metric_ids. by rewrite bind_app, bind_cons, app_nil_r. Qed.

(** What the stores reached with distinct ids satisfy. *)
Lemma after_calls_indexed (retention : timedelta) (max_logs max_metrics max_traces : Z)
    (calls : list call) :
  let self := after_calls (empty_store retention max_logs max_metrics max_traces) calls in
  dicts_wf self ∧ keyed self ∧
  (NoDup (added_log_ids calls) →
   logs_indexed self ∧
   ∀ log_id, is_Some (TelemetryStore._logs_by_id self !! log_id) →
             log_id ∈ added_log_ids calls) ∧
  (NoDup (added_metric_ids calls) →
   metrics_indexed self ∧
   ∀ metric_id, is_Some (TelemetryStore._metrics_by_id self !! metric_id) →
                metric_id ∈ added_metric_ids calls).
Proof.
  cbv zeta. induction calls as [|c calls IH] using rev_ind.
  { split; [apply empty_store_dicts_wf|].
    split; [split; [|split]; try (by intros ?? []%elem_of_nil); done|].
    split; intros _; (split; [split|]).
    - intros service. apply NoDup_nil_2.
    - by intros ?? []%elem_of_nil.
    - intros i [? Hi]. simpl in Hi. by rewrite lookup_empty in Hi.
    - intros service. apply NoDup_nil_2.
    - by intros ?? []%elem_of_nil.
    - intros i [? Hi]. simpl in Hi. by rewrite lookup_empty in Hi. }
  destruct IH as (Hwf & Hkeyed & Hlogs & Hmetrics).
  rewrite after_calls_snoc, added_log_ids_snoc, added_metric_ids_snoc.
  set (self := after_calls _ calls) in *.
  split; [by apply do_call_dicts_wf|]. split; [by apply do_call_keyed|].
  destruct c as [log|metric|trace|utcnow|]; simpl.
  - split.
    + intros [Hnd [Hfresh _]]%NoDup_app. destruct (Hlogs Hnd) as [Hidx Hdom].
      assert (Hnone : TelemetryStore._logs_by_id self !! LogEntry.id log = None).
      { destruct (TelemetryStore._logs_by_id self !! LogEntry.id log) eqn:Hl; [|done].
        exfalso. apply (Hfresh (LogEntry.id log)); [apply Hdom; by eexists|left]. }
      split; [by apply add_log_logs_indexed|].
      intros i. rewrite add_log_eq. cbv zeta.
      destruct (decide _); simpl;
        [destruct (_ ++ [log]) as [|removed rest]; simpl;
         [|destruct (_ !! LogEntry.id removed); simpl]|];
        intros [x Hx]; apply elem_of_app;
        (destruct (decide (i = LogEntry.id log)) as [->|Hne];
         [right; left|left; apply Hdom; exists x]).
      * by rewrite lookup_insert_ne in Hx.
      * apply lookup_delete_Some in Hx as [_ Hx]. by rewrite lookup_insert_ne in Hx.
      * by rewrite lookup_insert_ne in Hx.
      * by rewrite lookup_insert_ne in Hx.
    + rewrite app_nil_r.
      destruct (add_log_frame self log) as (_ & _ & _ & _ & Hm & _ & Hmi & _).
      unfold metrics_indexed. rewrite Hm, Hmi. exact Hmetrics.
  - split.
    + rewrite app_nil_r.
      destruct (add_metric_frame self metric) as (_ & _ & _ & _ & Hl & _ & Hli & _).
      unfold logs_indexed. rewrite Hl, Hli. exact Hlogs.
    + intros [Hnd [Hfresh _]]%NoDup_app. destruct (Hmetrics Hnd) as [Hidx Hdom].
      assert (Hnone : TelemetryStore._metrics_by_id self !! MetricDataPoint.id metric
                      = None).
      { destruct (TelemetryStore._metrics_by_id self !! MetricDataPoint.id metric)
          eqn:Hl; [|done].
        exfalso. apply (Hfresh (MetricDataPoint.id metric)); [apply Hdom; by eexists|left]. }
      split; [by apply add_metric_metrics_indexed|].
      intros i. rewrite add_metric_eq. cbv zeta.
      destruct (decide _); simpl;
        [destruct (_ ++ [metric]) as [|removed rest]; simpl;
         [|destruct (_ !! MetricDataPoint.id removed); simpl]|];
        intros [x Hx]; apply elem_of_app;
        (destruct (decide (i = MetricDataPoint.id metric)) as [->|Hne];
         [right; left|left; apply Hdom; exists x]).
      * by rewrite lookup_insert_ne in Hx.
      * apply lookup_delete_Some in Hx as [_ Hx]. by rewrite lookup_insert_ne in Hx.
      * by rewrite lookup_insert_ne in Hx.
      * by rewrite lookup_insert_ne in Hx.
  - rewrite !app_nil_r.
    destruct (add_trace_frame self trace) as (_ & _ & _ & _ & Hl & Hm & Hli & Hmi & _).
    unfold logs_indexed, metrics_indexed. rewrite Hl, Hm, Hli, Hmi. done.
  - rewrite !app_nil_r.
    destruct (cleanup_entries self utcnow Hwf) as (Hl & Hm & _).
    destruct (cleanup_frame self utcnow) as (_ & _ & _ & _ & Hli & Hmi & _).
    unfold logs_indexed, metrics_indexed. rewrite Hli, Hmi. split.
    + intros Hnd. destruct (Hlogs Hnd) as [[Hnodup Hidx] Hdom].
      split; [split|done].
      * intros service. apply (sublist_NoDup _ _ (Hnodup service)).
        apply fmap_sublist, Hl.
      * intros service log Hin. apply (Hidx service).
        by apply (elem_of_sublist _ _ _ Hin).
    + intros Hnd. destruct (Hmetrics Hnd) as [[Hnodup Hidx] Hdom].
      split; [split|done].
      * intros service. apply (sublist_NoDup _ _ (Hnodup service)).
        apply fmap_sublist, Hm.
      * intros service metric Hin. apply (Hidx service).
        by apply (elem_of_sublist _ _ _ Hin).
  - rewrite !app_nil_r. split; intros _; (split; [split|]).
    + intros service. apply NoDup_nil_2.
    + by intros ?? []%elem_of_nil.
    + intros i [? Hi]. simpl in Hi. by rewrite lookup_empty in Hi.
    + intros service. apply NoDup_nil_2.
    + by intros ?? []%elem_of_nil.
    + intros i [? Hi]. simpl in Hi. by rewrite lookup_empty in Hi.
Qed.

(** X8.  With distinct ids nothing stored is lost from the index.  In a store
    that [__init__] returned, after any sequence of calls whose [add_log]
    calls carry pairwise distinct ids, every stored log is returned by
    [get_log_by_id] for its id, and none of the [add_log] calls raised; the
    same holds for metric points. *)
Theorem distinct_ids_keep_stored_indexed (settings : Settings.t)
    (retention_hours max_logs_per_service max_metrics_per_service max_traces : option Z)
    (fresh : TelemetryStore.t) (calls : list call) :
  TelemetryStore.__init__ settings retention_hours
    max_logs_per_service max_metrics_per_service max_traces = Returned fresh →
  (NoDup (added_log_ids calls) →
   (∀ service log,
      log ∈ OrderedDict.get_or service [] (TelemetryStore._logs (after_calls fresh calls)) →
      TelemetryStore.get_log_by_id (after_calls fresh calls) (LogEntry.id log)
        = Some log) ∧
   (∀ before log after,
      calls = before ++ AddLog log :: after →
      (TelemetryStore.add_log (after_calls fresh before) log).2
        = Returned (LogEntry.id log))) ∧
  (NoDup (added_metric_ids calls) →
   (∀ service metric,
      metric ∈ OrderedDict.get_or service []
                 (TelemetryStore._metrics (after_calls fresh calls)) →
      TelemetryStore.get_metric_by_id (after_calls fresh calls)
          (MetricDataPoint.id metric)
        = Some metric) ∧
   (∀ before metric after,
      calls = before ++ AddMetric metric :: after →
      (TelemetryStore.add_metric (after_calls fresh before) metric).2
        = Returned (MetricDataPoint.id metric))).
Proof.
  intros Hinit. apply init_empty in Hinit. rewrite Hinit. split.
  - intros Hnd. split.
    + destruct (after_calls_indexed (TelemetryStore._retention fresh)
                  (TelemetryStore._max_logs fresh) (TelemetryStore._max_metrics fresh)
                  (TelemetryStore._max_traces fresh) calls) as (_ & _ & Hlogs & _).
      destruct (Hlogs Hnd) as [[_ Hidx] _]. exact Hidx.
    + intros before log after ->.
      destruct (after_calls_indexed (TelemetryStore._retention fresh)
                  (TelemetryStore._max_logs fresh) (TelemetryStore._max_metrics fresh)
                  (TelemetryStore._max_traces fresh) before) as (_ & Hkeyed & Hlogs & _).
      unfold added_log_ids in Hnd. rewrite bind_app, bind_cons in Hnd.
      apply NoDup_app in Hnd as (Hnd & Hfresh & _).
      destruct (Hlogs Hnd) as [Hidx Hdom].
      apply add_log_logs_indexed; [done|done|].
      destruct (_ !! LogEntry.id log) eqn:Hl; [|done].
      exfalso. apply (Hfresh (LogEntry.id log)); [apply Hdom; by eexists|].
      apply elem_of_app. left. left.
  - intros Hnd. split.
    + destruct (after_calls_indexed (TelemetryStore._retention fresh)
                  (TelemetryStore._max_logs fresh) (TelemetryStore._max_metrics fresh)
                  (TelemetryStore._max_traces fresh) calls) as (_ & _ & _ & Hmetrics).
      destruct (Hmetrics Hnd) as [[_ Hidx] _]. exact Hidx.
    + intros before metric after ->.
      destruct (after_calls_indexed (TelemetryStore._retention fresh)
                  (TelemetryStore._max_logs fresh) (TelemetryStore._max_metrics fresh)
                  (TelemetryStore._max_traces fresh) before)
        as (_ & Hkeyed & _ & Hmetrics).
      unfold added_metric_ids in Hnd. rewrite bind_app, bind_cons in Hnd.
      apply NoDup_app in Hnd as (Hnd & Hfresh & _).
      destruct (Hmetrics Hnd) as [Hidx Hdom].
      apply add_metric_metrics_indexed; [done|done|].
      destruct (_ !! MetricDataPoint.id metric) eqn:Hl; [|done].
      exfalso. apply (Hfresh (MetricDataPoint.id metric)); [apply Hdom; by eexists|].
      apply elem_of_app. left. left.
Qed.

Lemma add_log_index_sound (self : TelemetryStore.t) (log : LogEntry.t) :
  log_index_sound self → log_index_sound (TelemetryStore.add_log self log).1.
Proof.
  intros Hsound i entry.
  set (service := LogEntry.service_name log).
  set (before := OrderedDict.get_or service [] (TelemetryStore._logs self)).
  assert (Hold : ∀ entries,
            <[LogEntry.id log := log]> (TelemetryStore._logs_by_id self) !! i
              = Some entry →
            (∀ e, e ∈ before ++ [log] → e ∈ entries ∨ LogEntry.id e ≠ i) →
            LogEntry.id entry = i ∧
            entry ∈ OrderedDict.get_or (LogEntry.service_name entry) []
                      (OrderedDict.set service entries (TelemetryStore._logs self))).
  { intros entries Hget Hkept.
    assert (Hentry : LogEntry.id entry = i ∧
              (entry ∈ OrderedDict.get_or (LogEntry.service_name entry) []
                         (TelemetryStore._logs self) ∨ entry = log)).
    { destruct (decide (LogEntry.id log = i)) as [<-|Hne].
      - rewrite lookup_insert_eq in Hget. injection Hget as <-. auto.
      - rewrite lookup_insert_ne in Hget by done.
        destruct (Hsound _ _ Hget). auto. }
    destruct Hentry as [Hid Hstored]. split; [done|].
    destruct (decide (service = LogEntry.service_name entry)) as [Hsvc|Hne].
    - rewrite <-Hsvc, get_or_set_eq.
      destruct (Hkept entry) as [?|?]; [|done|done].
      apply elem_of_app. destruct Hstored as [Hin| ->].
      + left. unfold before. by rewrite Hsvc.
      + right. left.
    - rewrite get_or_set_ne by done. destruct Hstored as [?| ->]; done. }
  rewrite add_log_eq. cbv zeta. fold service before.
  destruct (decide _) as [Hover|Hfits]; simpl.
  - destruct (before ++ [log]) as [|removed rest] eqn:Hentries.
    { by destruct before. }
    destruct (_ !! LogEntry.id removed) eqn:Hidx; simpl.
    + intros [Hne Hget]%lookup_delete_Some. apply Hold; [done|].
      intros e [->|?]%elem_of_cons; auto.
    + intros Hget. apply Hold; [done|].
      intros e [->|?]%elem_of_cons; [|auto]. right. intros <-. congruence.
  - intros Hget. apply Hold; [done|]. auto.
Qed.

Lemma add_metric_index_sound (self : TelemetryStore.t) (metric : MetricDataPoint.t) :
  metric_index_sound self → metric_index_sound (TelemetryStore.add_metric self metric).1.
Proof.
  intros Hsound i entry.
  set (service := MetricDataPoint.service_name metric).
  set (before := OrderedDict.get_or service [] (TelemetryStore._metrics self)).
  assert (Hold : ∀ entries,
            <[MetricDataPoint.id metric := metric]> (TelemetryStore._metrics_by_id self) !! i
              = Some entry →
            (∀ e, e ∈ before ++ [metric] → e ∈ entries ∨ MetricDataPoint.id e ≠ i) →
            MetricDataPoint.id entry = i ∧
            entry ∈ OrderedDict.get_or (MetricDataPoint.service_name entry) []
                      (OrderedDict.set service entries (TelemetryStore._metrics self))).
  { intros entries Hget Hkept.
    assert (Hentry : MetricDataPoint.id entry = i ∧
              (entry ∈ OrderedDict.get_or (MetricDataPoint.service_name entry) []
                         (TelemetryStore._metrics self) ∨ entry = metric)).
    { destruct (decide (MetricDataPoint.id metric = i)) as [<-|Hne].
      - rewrite lookup_insert_eq in Hget. injection Hget as <-. auto.
      - rewrite lookup_insert_ne in Hget by done.
        destruct (Hsound _ _ Hget). auto. }
    destruct Hentry as [Hid Hstored]. split; [done|].
    destruct (decide (service = MetricDataPoint.service_name entry)) as [Hsvc|Hne].
    - rewrite <-Hsvc, get_or_set_eq.
      destruct (Hkept entry) as [?|?]; [|done|done].
      apply elem_of_app. destruct Hstored as [Hin| ->].
      + left. unfold before. by rewrite Hsvc.
      + right. left.
    - rewrite get_or_set_ne by done. destruct Hstored as [?| ->]; done. }
  rewrite add_metric_eq. cbv zeta. fold service before.
  destruct (decide _) as [Hover|Hfits]; simpl.
  - destruct (before ++ [metric]) as [|removed rest] eqn:Hentries.
    { by destruct before. }
    destruct (_ !! MetricDataPoint.id removed) eqn:Hidx; simpl.
    + intros [Hne Hget]%lookup_delete_Some. apply Hold; [done|].
      intros e [->|?]%elem_of_cons; auto.
    + intros Hget. apply Hold; [done|].
      intros e [->|?]%elem_of_cons; [|auto]. right. intros <-. congruence.
  - intros Hget. apply Hold; [done|]. auto.
Qed.

Lemma no_cleanup_snoc (calls : list call) (c : call) :
  no_cleanup (calls ++ [c]) →
  no_cleanup calls ∧ ∀ utcnow, c ≠ Cleanup utcnow.
Proof.
  intros Hno. split.
  - intros utcnow Hin. apply (Hno utcnow), elem_of_app. by left.
  - intros utcnow ->. apply (Hno utcnow), elem_of_app. right. left.
Qed.

(** X9.  Without a sweep the index holds only what is stored.  In a store that
    [__init__] returned, after any sequence of [add_log], [add_metric],
    [add_trace] and [clear] calls, a log that [get_log_by_id] returns has the
    id asked for and is in the list of its service; the same holds for
    [get_metric_by_id]. *)
Theorem index_holds_only_stored_without_sweep (settings : Settings.t)
    (retention_hours max_logs_per_service max_metrics_per_service max_traces : option Z)
    (fresh : TelemetryStore.t) (calls : list call) :
  TelemetryStore.__init__ settings retention_hours
    max_logs_per_service max_metrics_per_service max_traces = Returned fresh →
  no_cleanup calls →
  let self := after_calls fresh calls in
  (∀ log_id log,
     TelemetryStore.get_log_by_id self log_id = Some log →
     LogEntry.id log = log_id ∧
     log ∈ OrderedDict.get_or (LogEntry.service_name log) [] (TelemetryStore._logs self)) ∧
  (∀ metric_id metric,
     TelemetryStore.get_metric_by_id self metric_id = Some metric →
     MetricDataPoint.id metric = metric_id ∧
     metric ∈ OrderedDict.get_or (MetricDataPoint.service_name metric) []
                (TelemetryStore._metrics self)).
Proof.
  intros Hinit Hno. apply init_empty in Hinit. cbv zeta.
  change (log_index_sound (after_calls fresh calls)
          ∧ metric_index_sound (after_calls fresh calls)).
  induction calls as [|c calls IH] using rev_ind.
  { rewrite Hinit. split; intros i x Hx; simpl in Hx; by rewrite lookup_empty in Hx. }
  apply no_cleanup_snoc in Hno as [Hno Hc]. destruct (IH Hno) as [Hlogs Hmetrics].
  rewrite after_calls_snoc. set (self := after_calls fresh calls) in *.
  destruct c as [log|metric|trace|utcnow|]; simpl.
  - split; [by apply add_log_index_sound|].
    destruct (add_log_frame self log) as (_ & _ & _ & _ & Hm & _ & Hmi & _).
    unfold metric_index_sound. by rewrite Hm, Hmi.
  - split; [|by apply add_metric_index_sound].
    destruct (add_metric_frame self metric) as (_ & _ & _ & _ & Hl & _ & Hli & _).
    unfold log_index_sound. by rewrite Hl, Hli.
  - destruct (add_trace_frame self trace) as (_ & _ & _ & _ & Hl & Hm & Hli & Hmi & _).
    unfold log_index_sound, metric_index_sound. by rewrite Hl, Hm, Hli, Hmi.
  - by destruct (Hc utcnow).
  - split; intros i x Hx; simpl in Hx; by rewrite lookup_empty in Hx.
Qed.

(** ** Queries *)

Lemma StronglySorted_filter {A : Type} (R : relation A) (P : A → Prop)
    `{!∀ x, Decision (P x)} (l : list A) :
  StronglySorted R l → StronglySorted R (filter P l).
Proof.
  induction 1 as [|x l Hs IH Hall]; [constructor|].
  rewrite filter_cons. destruct (decide (P x)); [|done].
  constructor; [done|]. rewrite Forall_forall in *.
  intros y [_ Hy]%list_elem_of_filter. by apply Hall.
Qed.

(** Filtering commutes with the stable sort. *)
Lemma sorted_filter {A : Type} (key : A → Z) (P : A → Prop) `{!∀ x, Decision (P x)}
    (l : list A) :
  sorted key (filter P l) = filter P (sorted key l).
Proof.
  symmetry. apply stable_sort_unique.
  - apply StronglySorted_filter, sorted_StronglySorted.
  - intros t. trans (filter P (filter (λ a, key a = t) (sorted key l))).
    + rewrite !list_filter_filter. apply list_filter_iff. intros x. tauto.
    + rewrite sorted_stable, !list_filter_filter. apply list_filter_iff.
      intros x. tauto.
Qed.

Lemma error_level_value (level : LogLevel) :
  LogLevel_value level ∈ ["ERROR"; "FATAL"; "CRITICAL"] ↔
  level = ERROR ∨ level = FATAL ∨ level = CRITICAL.
Proof.
  split.
  - intros Hin. destruct level; auto; exfalso;
      repeat (apply elem_of_cons in Hin as [Hin|Hin]; [discriminate Hin|]);
      by apply elem_of_nil in Hin.
  - intros [-> | [-> | ->]]; simpl.
    + left.
    + right. left.
    + do 2 right. left.
Qed.

Lemma log_selected_levels (start end_ : datetime) (levels : list string)
    (log : LogEntry.t) :
  levels ≠ [] →
  TelemetryStore.log_selected start end_ (Some levels) log
  ↔ LogLevel_value (LogEntry.level log) ∈ levels
    ∧ TelemetryStore.log_selected start end_ None log.
Proof.
  intros Hne. rewrite !Is_true_true, !log_selected_spec.
  destruct levels as [|level levels]; [done|]. simpl. split.
  - intros [Hts Hlv]. split; [by apply Hlv|]. split; [done|]. discriminate.
  - intros [Hlv [Hts _]]. split; [done|]. by intros _.
Qed.

(** X10.  [get_error_logs_in_window] returns the logs of [get_logs_in_window]
    for the same window and services whose level is ERROR, FATAL or CRITICAL,
    in the same order. *)
Theorem error_logs_are_the_error_levels_of_the_window (self : TelemetryStore.t)
    (start end_ : datetime) (services : option (list string)) :
  TelemetryStore.get_error_logs_in_window self start end_ services
    = filter (λ log, LogEntry.level log = ERROR ∨ LogEntry.level log = FATAL
                     ∨ LogEntry.level log = CRITICAL)
             (TelemetryStore.get_logs_in_window self start end_ services None).
Proof.
  unfold TelemetryStore.get_error_logs_in_window, TelemetryStore.get_logs_in_window.
  rewrite <-sorted_filter. f_equal.
  unfold TelemetryStore.scan_logs. cbv zeta. rewrite filter_bind.
  apply bind_ext_elem. intros service _. rewrite list_filter_filter.
  apply list_filter_iff. intros log.
  rewrite log_selected_levels by done. by rewrite error_level_value.
Qed.

Lemma span_of_service_in_window_spec (service_name : string) (start end_ : datetime)
    (span : Span.t) :
  TelemetryStore.span_of_service_in_window service_name start end_ span = true ↔
  Span.service_name span = service_name ∧ start ≤ Span.start_time span ≤ end_.
Proof.
  unfold TelemetryStore.span_of_service_in_window.
  destruct (decide (Span.service_name span = service_name)) as [Heq|Hne].
  - rewrite (bool_decide_eq_true_2 _ Heq), bool_decide_eq_true. tauto.
  - rewrite (bool_decide_eq_false_2 _ Hne). split; [done|]. tauto.
Qed.

Lemma span_in_window_spec (start end_ : datetime) (services : option (list string))
    (span : Span.t) :
  TelemetryStore.span_in_window start end_ services span = true ↔
  (truthy services = true → Span.service_name span ∈ default [] services) ∧
  start ≤ Span.start_time span ≤ end_.
Proof.
  unfold TelemetryStore.span_in_window. destruct (truthy services); simpl.
  - destruct (decide (Span.service_name span ∈ default [] services)) as [Hin|Hout].
    + rewrite (bool_decide_eq_true_2 _ Hin). simpl. rewrite bool_decide_eq_true. tauto.
    + rewrite (bool_decide_eq_false_2 _ Hout). simpl. split; [done|].
      intros [H _]. by specialize (H eq_refl).
  - rewrite bool_decide_eq_true. split; [|tauto]. intros ?. split; [discriminate|done].
Qed.

Lemma existsb_elem_of {A : Type} (f : A → bool) (l : list A) :
  existsb f l = true ↔ ∃ x, x ∈ l ∧ f x = true.
Proof.
  rewrite existsb_exists. split; intros (x & Hin & Hx); exists x;
    (split; [by apply list_elem_of_In|done]).
Qed.

(** X11.  [get_traces_for_service] returns the stored traces that have a span
    of the service starting in the window, bounds included; each such trace
    comes once, however many of its spans match, and in the order of the
    store. *)
Theorem traces_for_service_spec (self : TelemetryStore.t) (service_name : string)
    (start end_ : datetime) :
  let result := TelemetryStore.get_traces_for_service self service_name start end_ in
  result `sublist_of` OrderedDict.values (TelemetryStore._traces self) ∧
  (∀ trace,
     trace ∈ result ↔
     trace ∈ OrderedDict.values (TelemetryStore._traces self) ∧
     ∃ span,
       span ∈ Trace.spans trace ∧
       Span.service_name span = service_name ∧
       start ≤ Span.start_time span ≤ end_) ∧
  (OrderedDict.wf (TelemetryStore._traces self) →
   (∀ trace_id trace,
      OrderedDict.get trace_id (TelemetryStore._traces self) = Some trace →
      Trace.trace_id trace = trace_id) →
   NoDup (Trace.trace_id <$> result)).
Proof.
  cbv zeta. unfold TelemetryStore.get_traces_for_service. split; [|split].
  - apply sublist_filter.
  - intros trace. rewrite list_elem_of_filter, Is_true_true, existsb_elem_of.
    split.
    + intros [(span & Hin & Hsel) Htrace]. split; [done|]. exists span.
      by apply span_of_service_in_window_spec in Hsel.
    + intros [Htrace (span & Hin & Hsel)]. split; [|done]. exists span.
      split; [done|]. by apply span_of_service_in_window_spec.
  - intros Hwf Hkeyed.
    apply (sublist_NoDup _ (Trace.trace_id <$> OrderedDict.values
                                                 (TelemetryStore._traces self))).
    + unfold OrderedDict.wf, OrderedDict.keys, OrderedDict.values in *.
      rewrite <-list_fmap_compose.
      erewrite list_fmap_ext; [exact Hwf|]. intros i [k t] Hlookup. simpl.
      apply Hkeyed, elem_get_Some; [done|]. by eapply list_elem_of_lookup_2.
    + apply fmap_sublist, sublist_filter.
Qed.

(** X12.  [get_error_traces_in_window] returns the stored traces whose error
    flag is set and that have a span starting in the window, of one of the
    services when a non-empty list is given; an empty list is no filter.  For
    one service it returns the traces of [get_traces_for_service] whose error
    flag is set. *)
Theorem error_traces_in_window_spec (self : TelemetryStore.t) (start end_ : datetime) :
  (∀ services trace,
     trace ∈ TelemetryStore.get_error_traces_in_window self start end_ services ↔
     trace ∈ OrderedDict.values (TelemetryStore._traces self) ∧
     Trace.has_error trace = true ∧
     ∃ span,
       span ∈ Trace.spans trace ∧
       (truthy services = true → Span.service_name span ∈ default [] services) ∧
       start ≤ Span.start_time span ≤ end_) ∧
  TelemetryStore.get_error_traces_in_window self start end_ (Some [])
    = TelemetryStore.get_error_traces_in_window self start end_ None ∧
  (∀ service_name,
     TelemetryStore.get_error_traces_in_window self start end_ (Some [service_name])
       = filter (λ trace, Trace.has_error trace)
           (TelemetryStore.get_traces_for_service self service_name start end_)).
Proof.
  unfold TelemetryStore.get_error_traces_in_window. split; [|split].
  - intros services trace. rewrite list_elem_of_filter, Is_true_true.
    unfold TelemetryStore.error_trace_selected.
    destruct (Trace.has_error trace); simpl.
    + rewrite existsb_elem_of. split.
      * intros [(span & Hin & Hsel) Htrace]. split; [done|]. split; [done|].
        exists span. by apply span_in_window_spec in Hsel.
      * intros (Htrace & _ & span & Hin & Hsel). split; [|done]. exists span.
        split; [done|]. by apply span_in_window_spec.
    + split; [by intros [? _]|]. by intros (_ & ? & _).
  - done.
  - intros service_name. unfold TelemetryStore.get_traces_for_service.
    rewrite list_filter_filter. apply list_filter_iff. intros trace.
    unfold TelemetryStore.error_trace_selected.
    assert (Hsame : existsb (TelemetryStore.span_in_window start end_ (Some [service_name]))
                      (Trace.spans trace)
                    = existsb (TelemetryStore.span_of_service_in_window
                                 service_name start end_) (Trace.spans trace)).
    { induction (Trace.spans trace) as [|span spans IH]; [done|]. simpl. rewrite IH.
      f_equal. unfold TelemetryStore.span_in_window,
        TelemetryStore.span_of_service_in_window. simpl.
      destruct (decide (Span.service_name span = service_name)) as [Heq|Hne].
      - rewrite (bool_decide_eq_true_2 (Span.service_name span = service_name)) by done.
        rewrite (bool_decide_eq_true_2 (Span.service_name span ∈ [service_name]));
          [done|]. rewrite Heq. left.
      - rewrite (bool_decide_eq_false_2 (Span.service_name span = service_name)) by done.
        rewrite (bool_decide_eq_false_2 (Span.service_name span ∈ [service_name]));
          [done|]. by intros ?%list_elem_of_singleton. }
    rewrite Hsame. destruct (Trace.has_error trace); simpl; tauto.
Qed.

Lemma elem_of_metric_names (names : gset string) (metrics : list MetricDataPoint.t)
    (name : string) :
  name ∈ foldl (λ names metric, {[MetricDataPoint.metric_name metric]} ∪ names)
               names metrics
  ↔ name ∈ names
    ∨ ∃ metric, metric ∈ metrics ∧ MetricDataPoint.metric_name metric = name.
Proof.
  revert names. induction metrics as [|metric metrics IH]; intros names; simpl.
  - split; [by left|]. intros [?|(? & []%elem_of_nil & _)]. done.
  - rewrite IH. split.
    + intros [[->%elem_of_singleton|?]%elem_of_union|(m & Hm & <-)].
      * right. exists metric. split; [left|done].
      * by left.
      * right. exists m. split; [by right|done].
    + intros [?|(m & [->|Hm]%elem_of_cons & <-)].
      * left. apply elem_of_union. by right.
      * left. apply elem_of_union. left. by apply elem_of_singleton.
      * right. by exists m.
Qed.

(** X13.  [get_metric_names_for_service] lists, each once, the metric names
    of the stored points of the service: a name is listed exactly when
    [get_metric_series] for that service and name is not empty for some
    window. *)
Theorem metric_names_are_those_with_a_series (self : TelemetryStore.t)
    (service_name : string) :
  let names := TelemetryStore.get_metric_names_for_service self service_name in
  NoDup names ∧
  (∀ name,
     name ∈ names ↔
     ∃ metric,
       metric ∈ OrderedDict.get_or service_name [] (TelemetryStore._metrics self) ∧
       MetricDataPoint.metric_name metric = name) ∧
  (∀ name,
     name ∈ names ↔
     ∃ start end_,
       TelemetryStore.get_metric_series self service_name name start end_ ≠ []).
Proof.
  cbv zeta. unfold TelemetryStore.get_metric_names_for_service. cbv zeta.
  assert (Hnames : ∀ name,
    name ∈ elements
             (foldl (λ names metric, {[MetricDataPoint.metric_name metric]} ∪ names)
                    (∅ : gset string)
                    (OrderedDict.get_or service_name [] (TelemetryStore._metrics self)))
    ↔ ∃ metric,
        metric ∈ OrderedDict.get_or service_name [] (TelemetryStore._metrics self) ∧
        MetricDataPoint.metric_name metric = name).
  { intros name. rewrite elem_of_elements, elem_of_metric_names. split; [|auto].
    intros [[]%elem_of_empty|?]. done. }
  split; [apply NoDup_elements|]. split; [exact Hnames|].
  intros name. rewrite Hnames. split.
  - intros (metric & Hin & Hname).
    exists (MetricDataPoint.timestamp metric), (MetricDataPoint.timestamp metric).
    intros Hnil.
    assert (Hm : metric ∈ TelemetryStore.get_metric_series self service_name name
                   (MetricDataPoint.timestamp metric) (MetricDataPoint.timestamp metric)).
    { apply elem_of_get_metric_series. split; [done|].
      apply series_selected_spec. split; [done|lia]. }
    rewrite Hnil in Hm. by apply elem_of_nil in Hm.
  - intros (start & end_ & Hne).
    destruct (TelemetryStore.get_metric_series self service_name name start end_)
      as [|metric series] eqn:Hseries; [done|].
    assert (Hm : metric ∈ TelemetryStore.get_metric_series self service_name name
                   start end_) by (rewrite Hseries; left).
    apply elem_of_get_metric_series in Hm as [Hin Hsel].
    apply series_selected_spec in Hsel as [Hname _]. by exists metric.
Qed.

Lemma filter_filter_same {A : Type} (P : A → Prop) `{!∀ x, Decision (P x)} (l : list A) :
  filter P (filter P l) = filter P l.
Proof. rewrite list_filter_filter. apply list_filter_iff. intros x. tauto. Qed.

(** X14.  What a sweep reports is what it removed.  In a store reached by
    calls from one that [__init__] returned, a sweep whose cutoff is a valid
    datetime returns three counts that are not negative and are the
    differences of the stored counts of [get_stats] before and after it; a
    sweep whose cutoff is not a valid datetime raises [OverflowError] and
    leaves the store as it was. *)
Theorem sweep_reports_what_it_removed (settings : Settings.t)
    (retention_hours max_logs_per_service max_metrics_per_service max_traces : option Z)
    (fresh : TelemetryStore.t) (calls : list call) (utcnow : datetime) :
  TelemetryStore.__init__ settings retention_hours
    max_logs_per_service max_metrics_per_service max_traces = Returned fresh →
  let self := after_calls fresh calls in
  let swept := TelemetryStore.cleanup_old_data self utcnow in
  (0 ≤ utcnow - TelemetryStore._retention self ≤ datetime_max →
   ∃ counts,
     swept.2 = Returned counts ∧
     TelemetryStore.removed_logs counts
       = TelemetryStore.logs_stored (TelemetryStore.get_stats self)
         - TelemetryStore.logs_stored (TelemetryStore.get_stats swept.1) ∧
     TelemetryStore.removed_metrics counts
       = TelemetryStore.metrics_stored (TelemetryStore.get_stats self)
         - TelemetryStore.metrics_stored (TelemetryStore.get_stats swept.1) ∧
     TelemetryStore.removed_traces counts
       = TelemetryStore.traces_stored (TelemetryStore.get_stats self)
         - TelemetryStore.traces_stored (TelemetryStore.get_stats swept.1) ∧
     0 ≤ TelemetryStore.removed_logs counts ∧
     0 ≤ TelemetryStore.removed_metrics counts ∧
     0 ≤ TelemetryStore.removed_traces counts) ∧
  (¬ 0 ≤ utcnow - TelemetryStore._retention self ≤ datetime_max →
   swept = (self, Raised OverflowError)).
Proof.
  intros Hinit self swept. subst swept. apply init_empty in Hinit.
  assert (Hwf : dicts_wf self).
  { subst self. rewrite Hinit. apply after_calls_dicts_wf, empty_store_dicts_wf. }
  destruct Hwf as (Hl & Hm & Ht). rewrite cleanup_old_data_eq by done.
  unfold datetime_sub. split.
  - intros Hrange. rewrite decide_True by done. cbv zeta. eexists. split; [done|].
    unfold TelemetryStore.get_stats. simpl.
    pose proof (stored_sweep_le LogEntry.timestamp
                  (utcnow - TelemetryStore._retention self) (TelemetryStore._logs self)).
    pose proof (stored_sweep_le MetricDataPoint.timestamp
                  (utcnow - TelemetryStore._retention self)
                  (TelemetryStore._metrics self)).
    pose proof (length_filter
                  (λ item : string * Trace.t,
                     ¬ TelemetryStore.trace_expired
                         (utcnow - TelemetryStore._retention self) item.2)
                  (TelemetryStore._traces self)).
    repeat split; lia.
  - intros Hrange. by rewrite decide_False.
Qed.

(** X15.  A second sweep at the same instant removes nothing.  In a store
    reached by calls from one that [__init__] returned, after a sweep that
    returned, the sweep at the same [utcnow] returns three zeros and leaves
    the store as the first one left it. *)
Theorem sweep_is_idempotent (settings : Settings.t)
    (retention_hours max_logs_per_service max_metrics_per_service max_traces : option Z)
    (fresh : TelemetryStore.t) (calls : list call) (utcnow : datetime) :
  TelemetryStore.__init__ settings retention_hours
    max_logs_per_service max_metrics_per_service max_traces = Returned fresh →
  0 ≤ utcnow - TelemetryStore._retention fresh ≤ datetime_max →
  let once := (TelemetryStore.cleanup_old_data (after_calls fresh calls) utcnow).1 in
  TelemetryStore.cleanup_old_data once utcnow
    = (once, Returned (TelemetryStore.mk_removed 0 0 0)).
Proof.
  intros Hinit Hrange once. apply init_empty in Hinit.
  assert (Hwf : dicts_wf (after_calls fresh calls)).
  { rewrite Hinit. apply after_calls_dicts_wf, empty_store_dicts_wf. }
  assert (Hwf' : dicts_wf once) by exact (do_call_dicts_wf _ (Cleanup utcnow) Hwf).
  destruct (after_calls_config fresh calls) as (Hret & _).
  destruct Hwf as (Hl & Hm & Ht). destruct Hwf' as (Hl' & Hm' & Ht').
  rewrite (cleanup_old_data_eq once) by done. subst once.
  rewrite cleanup_old_data_eq by done. rewrite Hret.
  unfold datetime_sub.
  rewrite (decide_True (P := 0 ≤ utcnow - TelemetryStore._retention fresh ≤ datetime_max))
    by done.
  cbv zeta. simpl. rewrite decide_True by done.
  set (cutoff := utcnow - TelemetryStore._retention fresh).
  assert (Hlogs : ∀ d : odict (list LogEntry.t),
    (λ item, (item.1, filter (λ log, cutoff < LogEntry.timestamp log) item.2))
      <$> ((λ item, (item.1, filter (λ log, cutoff < LogEntry.timestamp log) item.2))
             <$> d)
    = (λ item, (item.1, filter (λ log, cutoff < LogEntry.timestamp log) item.2)) <$> d).
  { intros d. rewrite <-list_fmap_compose. apply list_fmap_ext.
    intros i [k entries] _. simpl. by rewrite filter_filter_same. }
  assert (Hmetrics : ∀ d : odict (list MetricDataPoint.t),
    (λ item, (item.1, filter (λ m, cutoff < MetricDataPoint.timestamp m) item.2))
      <$> ((λ item, (item.1, filter (λ m, cutoff < MetricDataPoint.timestamp m) item.2))
             <$> d)
    = (λ item, (item.1, filter (λ m, cutoff < MetricDataPoint.timestamp m) item.2))
        <$> d).
  { intros d. rewrite <-list_fmap_compose. apply list_fmap_ext.
    intros i [k entries] _. simpl. by rewrite filter_filter_same. }
  rewrite Hlogs, Hmetrics, filter_filter_same. do 2 f_equal. f_equal; lia.
Qed.

Lemma get_app {V : Type} (k : string) (d1 d2 : odict V) :
  OrderedDict.get k (d1 ++ d2)
    = match OrderedDict.get k d1 with
      | Some v => Some v
      | None => OrderedDict.get k d2
      end.
Proof.
  induction d1 as [|[k' v'] d1 IH]; simpl; [done|]. by destruct (decide (k = k')).
Qed.

(** X16.  Point lookups after [add_trace], in a store whose traces are within
    a bound of at least 1: the added trace is found by its id; when the call
    evicts the first trace, that one is no longer found; a lookup of any other
    id returns what it returned before, or nothing. *)
Theorem add_trace_then_get_trace_by_id (self : TelemetryStore.t) (trace : Trace.t) :
  OrderedDict.wf (TelemetryStore._traces self) →
  1 ≤ TelemetryStore._max_traces self →
  Z.of_nat (length (TelemetryStore._traces self)) ≤ TelemetryStore._max_traces self →
  let self' := (TelemetryStore.add_trace self trace).1 in
  TelemetryStore.get_trace_by_id self' (Trace.trace_id trace) = Some trace ∧
  (∀ oldest_id oldest rest,
     TelemetryStore._traces self = (oldest_id, oldest) :: rest →
     TelemetryStore.get_trace_by_id self (Trace.trace_id trace) = None →
     Z.of_nat (length (TelemetryStore._traces self)) = TelemetryStore._max_traces self →
     TelemetryStore.get_trace_by_id self' oldest_id = None) ∧
  (∀ trace_id,
     trace_id ≠ Trace.trace_id trace →
     TelemetryStore.get_trace_by_id self' trace_id
       = TelemetryStore.get_trace_by_id self trace_id ∨
     TelemetryStore.get_trace_by_id self' trace_id = None).
Proof.
  intros Hwf Hcap Hlen self'. subst self'. unfold TelemetryStore.get_trace_by_id.
  rewrite add_trace_traces. cbv zeta.
  destruct (OrderedDict.get (Trace.trace_id trace) (TelemetryStore._traces self))
    as [old|] eqn:Hget.
  - rewrite decide_False
      by (rewrite length_set_present by (by eexists); lia).
    split; [apply get_set_eq|]. split; [done|].
    intros trace_id Hne. left. by apply get_set_ne.
  - rewrite set_absent by done. rewrite length_app. simpl.
    destruct (decide _) as [Hover|Hfits].
    + destruct (TelemetryStore._traces self) as [|[k v] d] eqn:Htraces.
      { simpl in Hover. lia. }
      simpl in Hget. destruct (decide (Trace.trace_id trace = k)) as [|Hk]; [done|].
      unfold OrderedDict.wf, OrderedDict.keys in Hwf. simpl in Hwf.
      apply NoDup_cons in Hwf as [Hnotin Hwf].
      replace (drop 1 (((k, v) :: d) ++ [(Trace.trace_id trace, trace)]))
        with (d ++ [(Trace.trace_id trace, trace)]) by done.
      rewrite !get_app. simpl. split; [|split].
      * rewrite Hget. by rewrite decide_True.
      * intros oldest_id oldest rest Heq _ _. injection Heq as Hk' _ _.
        rewrite <-Hk'.
        assert (Hnone : OrderedDict.get k d = None) by by apply get_None.
        rewrite get_app, Hnone. simpl. by rewrite decide_False.
      * intros trace_id Hne. rewrite get_app. simpl.
        destruct (decide (trace_id = k)) as [->|Hne'].
        -- right. assert (Hnone : OrderedDict.get k d = None) by by apply get_None.
           rewrite Hnone. by rewrite decide_False.
        -- left. destruct (OrderedDict.get trace_id d); [done|].
           by rewrite decide_False.
    + rewrite !get_app, Hget. simpl. split; [by rewrite decide_True|].
      split; [intros; lia|].
      intros trace_id Hne. left. rewrite get_app.
      destruct (OrderedDict.get trace_id _); [done|]. simpl. by rewrite decide_False.
Qed.

(** ** The properties above at the example data *)

(** The third of the clashing logs makes [add_log] raise: the evicted log of
    service x has the id under which the log of service y is indexed, and the
    fourth finds that id gone. *)
Example add_logs_batch_clashing_ids :
  ∃ self',
    TelemetryStore.add_logs_batch tiny_store clashing_logs
      = (self', Raised (KeyError "same")) ∧
    OrderedDict.get_or "y" [] (TelemetryStore._logs self') = [log_at "l4" 4 "y"] ∧
    TelemetryStore.logs_ingested (TelemetryStore._stats self') = 4.
Proof. eexists. split; [vm_compute; reflexivity|]. split; vm_compute; reflexivity. Qed.

Lemma add_log_then_get_log_by_id_witness :
  let self := after_add_logs small_store five_logs in
  let log := log_at "l6" 6 "x" in
  let self' := (TelemetryStore.add_log self log).1 in
  1 ≤ TelemetryStore._max_logs self ∧
  TelemetryStore.get_log_by_id self' "l6" = Some log ∧
  TelemetryStore.get_log_by_id self' "l3" = None ∧
  TelemetryStore.get_log_by_id self' "l4" = Some (log_at "l4" 4 "x").
Proof.
  intros self log self'.
  destruct (add_log_then_get_log_by_id self log) as (Hadded & Hevicted & Hother).
  assert (Hcap : 1 ≤ TelemetryStore._max_logs self) by (vm_compute; discriminate).
  split; [exact Hcap|]. split; [|split].
  - apply Hadded; [exact Hcap|]. vm_compute.
    intros entry Hin. repeat (apply elem_of_cons in Hin as [->|Hin]; [discriminate|]).
    by apply elem_of_nil in Hin.
  - apply (Hevicted (log_at "l3" 3 "x") [log_at "l4" 4 "x"; log_at "l5" 5 "x"; log]).
    + vm_compute. reflexivity.
    + vm_compute. reflexivity.
    + vm_compute. reflexivity.
  - vm_compute. reflexivity.
Defined.

Lemma bounds_hold_after_any_calls_witness :
  TelemetryStore.__init__ Settings.defaults None (Some 3) (Some 3) (Some 2)
    = Returned small_store ∧
  0 ≤ TelemetryStore._max_logs small_store ∧
  0 ≤ TelemetryStore._max_metrics small_store ∧
  0 ≤ TelemetryStore._max_traces small_store ∧
  Z.of_nat (length (OrderedDict.get_or "x" []
                      (TelemetryStore._logs (after_calls small_store example_calls))))
    ≤ 3 ∧
  Z.of_nat (length (TelemetryStore._traces (after_calls small_store example_calls))) ≤ 2.
Proof.
  assert (H0l : 0 ≤ TelemetryStore._max_logs small_store) by (vm_compute; discriminate).
  assert (H0m : 0 ≤ TelemetryStore._max_metrics small_store)
    by (vm_compute; discriminate).
  assert (H0t : 0 ≤ TelemetryStore._max_traces small_store)
    by (vm_compute; discriminate).
  destruct (bounds_hold_after_any_calls Settings.defaults None (Some 3) (Some 3) (Some 2)
              small_store example_calls small_store_init H0l H0m H0t)
    as (Hlogs & _ & Htraces).
  split; [exact small_store_init|]. split; [exact H0l|]. split; [exact H0m|].
  split; [exact H0t|]. split; [exact (Hlogs "x")|exact Htraces].
Defined.

Lemma registry_covers_stored_after_any_calls_witness :
  TelemetryStore.__init__ Settings.defaults None (Some 3) (Some 3) (Some 2)
    = Returned small_store ∧
  "y" ∈ TelemetryStore.get_services (after_calls small_store example_calls) ∧
  "gateway" ∈ TelemetryStore.get_services (after_calls small_store example_calls).
Proof.
  destruct (registry_covers_stored_after_any_calls Settings.defaults
              None (Some 3) (Some 3) (Some 2) small_store example_calls
              small_store_init) as (Hlogs & _ & Htraces).
  split; [exact small_store_init|]. split.
  - apply (Hlogs "y" (log_at "l6" 113600000006 "y")). vm_compute. left.
  - destruct (Htraces "B" (Trace.new "B" [span_of "B" 150000000000])
                (span_of "B" 150000000000)) as [_ Hspan]; [vm_compute; reflexivity|].
    apply Hspan. vm_compute. left.
Defined.

Lemma example_calls_distinct_ids :
  NoDup (added_log_ids example_calls) ∧ NoDup (added_metric_ids example_calls).
Proof. split; apply (bool_decide_unpack _); vm_compute; exact I. Qed.

Lemma distinct_ids_keep_stored_indexed_witness :
  TelemetryStore.__init__ Settings.defaults None (Some 3) (Some 3) (Some 2)
    = Returned small_store ∧
  NoDup (added_log_ids example_calls) ∧
  NoDup (added_metric_ids example_calls) ∧
  TelemetryStore.get_log_by_id (after_calls small_store example_calls) "l6"
    = Some (log_at "l6" 113600000006 "y") ∧
  TelemetryStore.get_metric_by_id (after_calls small_store example_calls) "m2"
    = Some (metric_at "m2" 113600000002 "x").
Proof.
  destruct example_calls_distinct_ids as [Hlogs Hmetrics].
  destruct (distinct_ids_keep_stored_indexed Settings.defaults
              None (Some 3) (Some 3) (Some 2) small_store example_calls
              small_store_init) as [Hl Hm].
  destruct (Hl Hlogs) as [Hl' _]. destruct (Hm Hmetrics) as [Hm' _].
  split; [exact small_store_init|]. split; [exact Hlogs|]. split; [exact Hmetrics|].
  split.
  - apply (Hl' "y" (log_at "l6" 113600000006 "y")). vm_compute. left.
  - apply (Hm' "x" (metric_at "m2" 113600000002 "x")). vm_compute. left.
Defined.

Lemma index_holds_only_stored_without_sweep_witness :
  TelemetryStore.__init__ Settings.defaults None (Some 3) (Some 3) (Some 2)
    = Returned small_store ∧
  no_cleanup example_calls_without_sweep ∧
  log_at "l5" 113600000005 "x"
    ∈ OrderedDict.get_or "x" []
        (TelemetryStore._logs (after_calls small_store example_calls_without_sweep)).
Proof.
  assert (Hno : no_cleanup example_calls_without_sweep).
  { intros utcnow Hin. unfold example_calls_without_sweep in Hin.
    repeat (apply elem_of_cons in Hin as [Hin|Hin]; [discriminate Hin|]).
    by apply elem_of_nil in Hin. }
  destruct (index_holds_only_stored_without_sweep Settings.defaults
              None (Some 3) (Some 3) (Some 2) small_store example_calls_without_sweep
              small_store_init Hno) as [Hlogs _].
  split; [exact small_store_init|]. split; [exact Hno|].
  destruct (Hlogs "l5" (log_at "l5" 113600000005 "x")) as [_ Hin];
    [vm_compute; reflexivity|exact Hin].
Defined.

Lemma traces_for_service_spec_witness :
  let self := after_calls small_store example_calls in
  OrderedDict.wf (TelemetryStore._traces self) ∧
  NoDup (Trace.trace_id
           <$> TelemetryStore.get_traces_for_service self "gateway" 0 150000000000) ∧
  TelemetryStore.get_traces_for_service self "gateway" 0 150000000000
    = [Trace.new "B" [span_of "B" 150000000000]].
Proof.
  intros self.
  assert (Hwf : OrderedDict.wf (TelemetryStore._traces self)).
  { apply (bool_decide_unpack _). vm_compute. exact I. }
  destruct (traces_for_service_spec self "gateway" 0 150000000000) as (_ & _ & Hnodup).
  split; [exact Hwf|]. split; [|vm_compute; reflexivity].
  apply Hnodup; [exact Hwf|].
  intros trace_id trace Hget. apply get_Some_elem in Hget.
  assert (Htraces : TelemetryStore._traces self
                    = [("B", Trace.new "B" [span_of "B" 150000000000])])
    by (vm_compute; reflexivity).
  rewrite Htraces in Hget. apply list_elem_of_singleton in Hget.
  by injection Hget as -> ->.
Defined.

Lemma sweep_reports_what_it_removed_witness :
  TelemetryStore.__init__ Settings.defaults None (Some 3) (Some 3) (Some 2)
    = Returned small_store ∧
  let self := after_calls small_store example_calls_without_sweep in
  0 ≤ 200000000000 - TelemetryStore._retention self ≤ datetime_max ∧
  (TelemetryStore.cleanup_old_data self 200000000000).2
    = Returned (TelemetryStore.mk_removed 1 1 1) ∧
  ¬ 0 ≤ 0 - TelemetryStore._retention self ≤ datetime_max ∧
  TelemetryStore.cleanup_old_data self 0 = (self, Raised OverflowError).
Proof.
  split; [exact small_store_init|]. cbv zeta.
  set (self := after_calls small_store example_calls_without_sweep).
  destruct (sweep_reports_what_it_removed Settings.defaults
              None (Some 3) (Some 3) (Some 2) small_store example_calls_without_sweep
              200000000000 small_store_init) as [Hin _].
  destruct (sweep_reports_what_it_removed Settings.defaults
              None (Some 3) (Some 3) (Some 2) small_store example_calls_without_sweep
              0 small_store_init) as [_ Hout].
  assert (Hrange : 0 ≤ 200000000000 - TelemetryStore._retention self ≤ datetime_max).
  { vm_compute. split; discriminate. }
  assert (Hnot : ¬ 0 ≤ 0 - TelemetryStore._retention self ≤ datetime_max).
  { vm_compute. intros [H _]. by apply H. }
  split; [exact Hrange|]. split; [|split; [exact Hnot|exact (Hout Hnot)]].
  destruct (Hin Hrange) as (counts & Hret & _). fold self in Hret. rewrite Hret.
  f_equal. vm_compute in Hret. injection Hret as <-. reflexivity.
Defined.

Lemma sweep_is_idempotent_witness :
  TelemetryStore.__init__ Settings.defaults None (Some 3) (Some 3) (Some 2)
    = Returned small_store ∧
  0 ≤ 200000000000 - TelemetryStore._retention small_store ≤ datetime_max ∧
  let once :=
    (TelemetryStore.cleanup_old_data
       (after_calls small_store example_calls_without_sweep) 200000000000).1 in
  TelemetryStore.cleanup_old_data once 200000000000
    = (once, Returned (TelemetryStore.mk_removed 0 0 0)).
Proof.
  assert (Hrange : 0 ≤ 200000000000 - TelemetryStore._retention small_store
                     ≤ datetime_max).
  { vm_compute. split; discriminate. }
  split; [exact small_store_init|]. split; [exact Hrange|].
  exact (sweep_is_idempotent Settings.defaults None (Some 3) (Some 3) (Some 2)
           small_store example_calls_without_sweep 200000000000
           small_store_init Hrange).
Defined.

Lemma add_trace_then_get_trace_by_id_witness :
  let self := after_add_traces small_store [trace_of "A"; trace_of "B"] in
  let self' := (TelemetryStore.add_trace self (trace_of "C")).1 in
  OrderedDict.wf (TelemetryStore._traces self) ∧
  1 ≤ TelemetryStore._max_traces self ∧
  Z.of_nat (length (TelemetryStore._traces self)) ≤ TelemetryStore._max_traces self ∧
  TelemetryStore.get_trace_by_id self' "C" = Some (trace_of "C") ∧
  TelemetryStore.get_trace_by_id self' "A" = None.
Proof.
  intros self self'.
  assert (Hwf : OrderedDict.wf (TelemetryStore._traces self)).
  { apply (bool_decide_unpack _). vm_compute. exact I. }
  assert (Hcap : 1 ≤ TelemetryStore._max_traces self) by (vm_compute; discriminate).
  assert (Hlen : Z.of_nat (length (TelemetryStore._traces self))
                   ≤ TelemetryStore._max_traces self) by (vm_compute; discriminate).
  destruct (add_trace_then_get_trace_by_id self (trace_of "C") Hwf Hcap Hlen)
    as (Hadded & Hevicted & _).
  split; [exact Hwf|]. split; [exact Hcap|]. split; [exact Hlen|].
  split; [exact Hadded|].
  apply (Hevicted "A" (trace_of "A") [("B", trace_of "B")]); vm_compute; reflexivity.
Defined.

(** ** The order of a window query after any calls *)

Lemma keys_set {V : Type} (k : string) (v : V) (d : odict V) :
  OrderedDict.keys (OrderedDict.set k v d)
    = if decide (k ∈ OrderedDict.keys d) then OrderedDict.keys d
      else OrderedDict.keys d ++ [k].
Proof.
  induction d as [|[k' v'] d IH]; [done|].
  cbn [OrderedDict.set]. unfold OrderedDict.keys in *. cbn [fmap list_fmap fst].
  destruct (decide (k = k')) as [->|Hne].
  - by rewrite decide_True by left.
  - cbn [fmap list_fmap fst]. rewrite IH. destruct (decide (k ∈ d.*1)).
    + by rewrite decide_True by (by right).
    + rewrite decide_False; [done|]. by intros [?|?]%elem_of_cons.
Qed.

(** A sweep filters the list of every service, or raises and leaves them. *)
Lemma cleanup_logs (self : TelemetryStore.t) (utcnow : datetime) :
  OrderedDict.wf (TelemetryStore._logs self) →
  TelemetryStore._logs (TelemetryStore.cleanup_old_data self utcnow).1 =
    match datetime_sub utcnow (TelemetryStore._retention self) with
    | None => TelemetryStore._logs self
    | Some cutoff =>
        (λ item, (item.1, filter (λ log, cutoff < LogEntry.timestamp log) item.2))
          <$> TelemetryStore._logs self
    end.
Proof.
  intros Hwf. unfold TelemetryStore.cleanup_old_data.
  destruct (datetime_sub _ _) as [cutoff|]; [|done].
  rewrite (sweep_eq LogEntry.timestamp) by done.
  destruct (TelemetryStore.sweep MetricDataPoint.timestamp _ _) as [metrics n_metrics].
  by destruct (TelemetryStore.del_traces _ _) as [traces [e|]].
Qed.

Lemma added_logs_snoc (calls : list call) (c : call) :
  added_logs (calls ++ [c])
    = added_logs calls ++ match c with AddLog log => [log] | _ => [] end.
Proof. unfold added_logs. by rewrite bind_app, bind_cons, app_nil_r. Qed.

Lemma services_by_first_log_snoc (calls : list call) (c : call) :
  services_by_first_log (calls ++ [c]) =
    match c with
    | AddLog log =>
        if decide (LogEntry.service_name log ∈ services_by_first_log calls)
        then services_by_first_log calls
        else services_by_first_log calls ++ [LogEntry.service_name log]
    | Clear => []
    | AddMetric _ | AddTrace _ | Cleanup _ => services_by_first_log calls
    end.
Proof. unfold services_by_first_log. by rewrite foldl_app. Qed.

Lemma sublist_push_capped {A : Type} (cap : Z) (entries : list A) (x : A) :
  push_capped cap entries x `sublist_of` entries ++ [x].
Proof. unfold push_capped. destruct (decide _); [apply sublist_drop|done]. Qed.

(** In a store reached from one without logs by any calls: no service name
    is a key twice, the list of a service is a part of the logs added for
    it, in their order, and the keys stand in the order in which the
    services first received a log since the last clear. *)
Lemma after_calls_logs (fresh : TelemetryStore.t) (calls : list call) :
  TelemetryStore._logs fresh = [] →
  let self := after_calls fresh calls in
  OrderedDict.wf (TelemetryStore._logs self) ∧
  (∀ service,
     OrderedDict.get_or service [] (TelemetryStore._logs self)
       `sublist_of` filter (λ log, LogEntry.service_name log = service)
                      (added_logs calls)) ∧
  OrderedDict.keys (TelemetryStore._logs self) = services_by_first_log calls.
Proof.
  intros Hempty. cbv zeta.
  induction calls as [|c calls (Hwf & Hlists & Hkeys)] using rev_ind.
  { cbn. rewrite Hempty. split; [apply NoDup_nil_2|]. split; [|done].
    intros service. apply sublist_nil_l. }
  rewrite after_calls_snoc, added_logs_snoc, services_by_first_log_snoc.
  set (self := after_calls fresh calls) in *.
  destruct c as [log|metric|trace|utcnow|]; cbn [do_call].
  - rewrite add_log_logs. split; [by apply wf_set|]. split.
    + intros service. rewrite <-add_log_logs, add_log_entries, filter_app, filter_cons.
      destruct (decide (LogEntry.service_name log = service)) as [Hsvc|Hne].
      * etrans; [apply sublist_push_capped|].
        rewrite filter_nil. apply sublist_app; [apply Hlists|done].
      * rewrite filter_nil, app_nil_r. apply Hlists.
    + rewrite keys_set, Hkeys. done.
  - destruct (add_metric_frame self metric) as (_ & _ & _ & _ & -> & _).
    by rewrite app_nil_r.
  - destruct (add_trace_frame self trace) as (_ & _ & _ & _ & -> & _).
    by rewrite app_nil_r.
  - rewrite cleanup_logs, app_nil_r by done.
    destruct (datetime_sub _ _) as [cutoff|]; [|done].
    split; [by apply wf_fmap_values|]. split; [|by rewrite keys_fmap_values].
    intros service. unfold OrderedDict.get_or. rewrite get_fmap_values.
    etrans; [|apply (Hlists service)]. unfold OrderedDict.get_or.
    destruct (OrderedDict.get service _); [apply sublist_filter|done].
  - cbn. split; [apply NoDup_nil_2|]. split; [|done].
    intros service. apply sublist_nil_l.
Qed.

Lemma same_service_in_order_added (fresh : TelemetryStore.t) (calls : list call)
    (start end_ : datetime) (services levels : option (list string))
    (service : string) (t : datetime) :
  TelemetryStore._logs fresh = [] →
  NoDup (default [] services) →
  filter (λ log, LogEntry.service_name log = service ∧ LogEntry.timestamp log = t)
    (TelemetryStore.get_logs_in_window (after_calls fresh calls)
       start end_ services levels)
  `sublist_of` added_logs calls.
Proof.
  intros Hempty Hnodup.
  destruct (after_calls_logs fresh calls Hempty) as (Hwf & Hlists & _).
  rewrite <-list_filter_filter, scan_logs_stable, filter_bind.
  assert (Htarget :
    NoDup (or_list services
             (OrderedDict.keys (TelemetryStore._logs (after_calls fresh calls))))).
  { destruct services as [[|s l]|]; done. }
  rewrite (bind_single _ service _ Htarget).
  - destruct (decide _); [|apply sublist_nil_l].
    etrans; [apply sublist_filter|]. etrans; [apply sublist_filter|].
    etrans; [apply Hlists|]. apply sublist_filter.
  - intros k Hne. apply filter_none. intros log Hin Hsvc.
    apply list_elem_of_filter in Hin as [_ Hin].
    pose proof (Hlists k) as Hlist. apply (elem_of_sublist _ _ _ Hin) in Hlist.
    apply list_elem_of_filter in Hlist as [Hk _]. congruence.
Qed.

(** C5 as the code has it.  The result of the log window query is sorted by
    timestamp, non-decreasing, and the sort is stable with respect to the
    scan: the entries with one timestamp come service by service, in the
    order in which the query visits the services, and within a service in the
    order of its list.  So in a store reached from one without logs by any
    calls (adds, sweeps and clears), queried without a repeated service
    name, the returned entries of one service with one timestamp stand in
    the order of their insertion.  Without a services argument the query
    visits the services in the order in which each first received a log
    since the store was created or last cleared. *)
Theorem logs_in_window_stable_per_service (self : TelemetryStore.t)
    (start end_ : datetime) (services levels : option (list string)) :
  let result := TelemetryStore.get_logs_in_window self start end_ services levels in
  StronglySorted (key_le LogEntry.timestamp) result ∧
  result ≡ₚ TelemetryStore.scan_logs self start end_ services levels ∧
  (∀ t,
     filter (λ log, LogEntry.timestamp log = t) result
       = or_list services (OrderedDict.keys (TelemetryStore._logs self)) ≫= λ service,
           filter (λ log, LogEntry.timestamp log = t
                          ∧ TelemetryStore.log_selected start end_ levels log)
                  (OrderedDict.get_or service [] (TelemetryStore._logs self))) ∧
  (∀ fresh calls service t,
     TelemetryStore._logs fresh = [] →
     self = after_calls fresh calls →
     NoDup (default [] services) →
     filter (λ log, LogEntry.service_name log = service ∧ LogEntry.timestamp log = t)
            result
     `sublist_of` added_logs calls) ∧
  (∀ fresh calls,
     TelemetryStore._logs fresh = [] →
     self = after_calls fresh calls →
     NoDup (default [] services) →
     insertion_order_respected
       (λ a b, LogEntry.service_name a = LogEntry.service_name b)
       (added_logs calls) result) ∧
  (∀ fresh calls,
     TelemetryStore._logs fresh = [] →
     self = after_calls fresh calls →
     or_list None (OrderedDict.keys (TelemetryStore._logs self))
       = services_by_first_log calls).
Proof.
  intros result. subst result. split; [|split; [|split; [|split; [|split]]]].
  - apply sorted_StronglySorted.
  - apply sorted_Permutation.
  - apply scan_logs_stable.
  - intros fresh calls service t Hempty -> Hnodup.
    by apply same_service_in_order_added.
  - intros fresh calls Hempty -> Hnodup a b Hbefore Hts Hsvc.
    eapply before_in_sublist.
    + apply (same_service_in_order_added fresh calls start end_ services levels
               (LogEntry.service_name a) (LogEntry.timestamp a) Hempty Hnodup).
    + apply before_in_filter; [done|done|exact Hbefore].
  - intros fresh calls Hempty ->. cbn [or_list].
    by destruct (after_calls_logs fresh calls Hempty) as (_ & _ & ->).
Qed.

Lemma logs_in_window_stable_per_service_witness :
  TelemetryStore.get_logs_in_window (after_calls default_store interleaved_calls)
    0 200000000000 None None
    = [log_at "l1" 100000000001 "A"; log_at "l3" 100000000001 "A";
       log_at "l2" 100000000001 "B"] ∧
  insertion_order_respected
    (λ a b, LogEntry.service_name a = LogEntry.service_name b)
    (added_logs interleaved_calls)
    (TelemetryStore.get_logs_in_window (after_calls default_store interleaved_calls)
       0 200000000000 None None) ∧
  OrderedDict.keys (TelemetryStore._logs (after_calls default_store interleaved_calls))
    = ["A"; "B"].
Proof.
  assert (Hnodup : NoDup (default [] (@None (list string)))) by apply NoDup_nil_2.
  assert (Hempty : TelemetryStore._logs default_store = []) by reflexivity.
  destruct (logs_in_window_stable_per_service
              (after_calls default_store interleaved_calls) 0 200000000000 None None)
    as (_ & _ & _ & _ & Horder & Hkeys).
  split; [by vm_compute|]. split.
  - exact (Horder default_store interleaved_calls Hempty eq_refl Hnodup).
  - exact (Hkeys default_store interleaved_calls Hempty eq_refl).
Defined.

(** * Time utilities *)

Lemma windows_from_S (start : datetime) (window_size step : timedelta) (n : nat) :
  windows_from start window_size step (S n)
    = (start, start + window_size) :: windows_from (start + step) window_size step n.
Proof.
  unfold windows_from. rewrite <-cons_seq, fmap_cons, <-fmap_S_seq, <-list_fmap_compose.
  f_equal; [f_equal; lia|]. apply list_fmap_ext. intros i k _. simpl. f_equal; lia.
Qed.

Lemma sliding_windows_loop_returns (end_ : datetime) (window_size step : timedelta)
    (n : nat) :
  0 < step → 0 ≤ window_size → end_ + step ≤ datetime_max →
  ∀ (fuel : nat) (current : datetime) (windows : list (datetime * datetime)),
    0 ≤ current → current + window_size ≤ datetime_max →
    n = Z.to_nat ((end_ - current - window_size) `div` step + 1) →
    (n < fuel)%nat →
    TimeUtils.sliding_windows_loop fuel end_ window_size step current windows
      = Some (Returned (windows ++ windows_from current window_size step n)).
Proof.
  intros Hstep Hsize Hend. induction n as [|n IH];
    intros fuel current windows Hcur Hmax Hn Hfuel;
    (destruct fuel as [|fuel]; [lia|]); cbn [TimeUtils.sliding_windows_loop];
    unfold datetime_add; rewrite decide_True by lia.
  - assert (end_ - current - window_size < 0).
    { destruct (decide (0 ≤ end_ - current - window_size)) as [Hge|]; [|lia].
      pose proof (Z.div_pos _ _ Hge Hstep). lia. }
    rewrite decide_False by lia. by rewrite app_nil_r.
  - assert (0 ≤ end_ - current - window_size).
    { destruct (decide (0 ≤ end_ - current - window_size)) as [|Hlt]; [done|].
      assert ((end_ - current - window_size) `div` step < 0)
        by (apply Z.div_lt_upper_bound; lia).
      lia. }
    rewrite decide_True by lia. rewrite decide_True by lia.
    rewrite (IH fuel (current + step)); [|lia|lia| |lia].
    + by rewrite windows_from_S, <-(assoc_L (++)).
    + replace (end_ - (current + step) - window_size)
        with (end_ - current - window_size + (-1) * step) by lia.
      rewrite Z.div_add by lia. lia.
Qed.

(** X17.  [sliding_windows] with a positive step and a window size that is not
    negative returns, once given enough rounds, the windows
    [(start + k * step, start + k * step + window_size)] for every [k] from 0
    for which the window ends at or before [end_], and no other; their number
    is [(end_ - start - window_size) // step + 1], or 0 if that is negative.
    The datetimes involved are assumed to stay below [datetime.max]. *)
Theorem sliding_windows_returns_every_fitting_window (start end_ : datetime)
    (window_size step : timedelta) :
  0 < step → 0 ≤ window_size → 0 ≤ start →
  start + window_size ≤ datetime_max → end_ + step ≤ datetime_max →
  let n := Z.to_nat ((end_ - start - window_size) `div` step + 1) in
  (∀ fuel, (n < fuel)%nat →
     TimeUtils.sliding_windows fuel start end_ window_size step
       = Some (Returned (windows_from start window_size step n))) ∧
  (∀ k : Z,
     (start + k * step, start + k * step + window_size)
       ∈ windows_from start window_size step n
     ↔ 0 ≤ k ∧ start + k * step + window_size ≤ end_).
Proof.
  intros Hstep Hsize Hstart Hmax Hend n. split.
  - intros fuel Hfuel. unfold TimeUtils.sliding_windows.
    by rewrite (sliding_windows_loop_returns end_ window_size step n).
  - intros k. unfold windows_from. rewrite list_elem_of_fmap. split.
    + intros (i & Heq & Hi). injection Heq as Heq _.
      assert (k = Z.of_nat i) by nia. subst k.
      apply elem_of_seq in Hi. split; [lia|]. subst n.
      destruct (decide (0 ≤ end_ - start - window_size)) as [Hge|Hlt].
      2: { assert ((end_ - start - window_size) `div` step < 0)
             by (apply Z.div_lt_upper_bound; lia).
           lia. }
      assert (Z.of_nat i ≤ (end_ - start - window_size) `div` step) by lia.
      pose proof (Z.mul_div_le (end_ - start - window_size) step Hstep). nia.
    + intros [Hk Hfit]. exists (Z.to_nat k). split; [f_equal; lia|].
      apply elem_of_seq. split; [lia|]. subst n.
      assert (k ≤ (end_ - start - window_size) `div` step)
        by (apply Z.div_le_lower_bound; lia).
      lia.
Qed.

Lemma sliding_windows_loop_never_returns (end_ : datetime) (window_size step : timedelta)
    (fuel : nat) (current : datetime) (windows result : list (datetime * datetime)) :
  step ≤ 0 → current + window_size ≤ end_ →
  TimeUtils.sliding_windows_loop fuel end_ window_size step current windows
    ≠ Some (Returned result).
Proof.
  intros Hstep. revert current windows.
  induction fuel as [|fuel IH]; intros current windows Hfits; [done|].
  cbn [TimeUtils.sliding_windows_loop]. unfold datetime_add.
  destruct (decide (0 ≤ current + window_size ≤ datetime_max)); [|done].
  rewrite decide_True by done.
  destruct (decide (0 ≤ current + step ≤ datetime_max)); [|done].
  apply IH. lia.
Qed.

Lemma sliding_windows_loop_overflows (end_ : datetime) (window_size step : timedelta)
    (n : nat) :
  step < 0 →
  ∀ (current : datetime) (windows : list (datetime * datetime)),
    current + window_size ≤ end_ → current < Z.of_nat n →
    ∃ fuel,
      TimeUtils.sliding_windows_loop fuel end_ window_size step current windows
        = Some (Raised OverflowError).
Proof.
  intros Hstep. induction n as [|n IH]; intros current windows Hfits Hn.
  - exists 1%nat. cbn [TimeUtils.sliding_windows_loop]. unfold datetime_add.
    destruct (decide (0 ≤ current + window_size ≤ datetime_max)); [|done].
    rewrite decide_True by done. by rewrite decide_False by lia.
  - destruct (decide (0 ≤ current + window_size ≤ datetime_max)) as [Hw|Hw].
    + destruct (decide (0 ≤ current + step ≤ datetime_max)) as [Hs|Hs].
      * destruct (IH (current + step) (windows ++ [(current, current + window_size)]))
          as [fuel Hfuel]; [lia|lia|].
        exists (S fuel). cbn [TimeUtils.sliding_windows_loop]. unfold datetime_add.
        rewrite (decide_True (P := 0 ≤ current + window_size ≤ datetime_max)) by done.
        rewrite (decide_True (P := current + window_size ≤ end_)) by done.
        by rewrite (decide_True (P := 0 ≤ current + step ≤ datetime_max)) by done.
      * exists 1%nat. cbn [TimeUtils.sliding_windows_loop]. unfold datetime_add.
        rewrite (decide_True (P := 0 ≤ current + window_size ≤ datetime_max)) by done.
        rewrite (decide_True (P := current + window_size ≤ end_)) by done.
        by rewrite (decide_False (P := 0 ≤ current + step ≤ datetime_max)) by done.
    + exists 1%nat. cbn [TimeUtils.sliding_windows_loop]. unfold datetime_add.
      by rewrite (decide_False (P := 0 ≤ current + window_size ≤ datetime_max)) by done.
Qed.

(** X18.  [sliding_windows] with a step that is not positive never returns
    when the first window fits: with step 0 its loop does not end, however
    many rounds it is given, and with a negative step it ends by raising
    [OverflowError]. *)
Theorem sliding_windows_needs_a_positive_step (start end_ : datetime)
    (window_size step : timedelta) :
  step ≤ 0 → 0 ≤ start ≤ datetime_max → 0 ≤ start + window_size ≤ datetime_max →
  start + window_size ≤ end_ →
  (∀ fuel result,
     TimeUtils.sliding_windows fuel start end_ window_size step
       ≠ Some (Returned result)) ∧
  (step = 0 →
   ∀ fuel, TimeUtils.sliding_windows fuel start end_ window_size step = None) ∧
  (step < 0 →
   ∃ fuel,
     TimeUtils.sliding_windows fuel start end_ window_size step
       = Some (Raised OverflowError)).
Proof.
  intros Hstep Hstart Hrange Hfits. unfold TimeUtils.sliding_windows. split; [|split].
  - intros fuel result. by apply sliding_windows_loop_never_returns.
  - intros -> fuel. generalize (@nil (datetime * datetime)).
    induction fuel as [|fuel IH]; intros windows; [done|].
    cbn [TimeUtils.sliding_windows_loop]. unfold datetime_add.
    rewrite decide_True by done. rewrite decide_True by done.
    rewrite Z.add_0_r. rewrite decide_True by lia. apply IH.
  - intros Hneg.
    apply (sliding_windows_loop_overflows end_ window_size step (S (Z.to_nat start)));
      [done|done|lia].
Qed.

(** X19.  [time_window] with margins that are not negative returns a window
    that contains its center by the test of [is_within_window], when both
    ends are valid datetimes, and raises [OverflowError] otherwise; with the
    default margins the window is 35 minutes long. *)
Theorem time_window_contains_its_center (center : datetime) (before after : timedelta) :
  0 ≤ before → 0 ≤ after →
  (0 ≤ center - before → center + after ≤ datetime_max →
   TimeUtils.time_window center before after
     = Returned (center - before, center + after) ∧
   TimeUtils.is_within_window center (center - before) (center + after) = true) ∧
  (center - before < 0 ∨ datetime_max < center + after →
   TimeUtils.time_window center before after = Raised OverflowError) ∧
  (∀ window_start window_end,
     TimeUtils.time_window center TimeUtils.default_before TimeUtils.default_after
       = Returned (window_start, window_end) →
     window_end - window_start = 35 * 60000000).
Proof.
  intros Hbefore Hafter. unfold TimeUtils.time_window, datetime_sub, datetime_add.
  split; [|split].
  - intros Hlow Hhigh. rewrite !decide_True by lia. split; [done|].
    unfold TimeUtils.is_within_window. apply bool_decide_eq_true. lia.
  - intros Hout. destruct (decide (0 ≤ center - before ≤ datetime_max)); [|done].
    by rewrite decide_False by lia.
  - intros window_start window_end.
    destruct (decide _); [|done]. destruct (decide _); [|done].
    intros [= <- <-]. unfold TimeUtils.default_before, TimeUtils.default_after. lia.
Qed.

Lemma sliding_windows_returns_every_fitting_window_witness :
  TimeUtils.sliding_windows 5 0 100 30 20
    = Some (Returned [(0, 30); (20, 50); (40, 70); (60, 90)]) ∧
  ((0 + 3 * 20, 0 + 3 * 20 + 30) ∈ windows_from 0 30 20 4
   ↔ 0 ≤ 3 ∧ 0 + 3 * 20 + 30 ≤ 100).
Proof.
  assert (H30 : 0 + 30 ≤ datetime_max) by (by vm_compute).
  assert (H100 : 100 + 20 ≤ datetime_max) by (by vm_compute).
  pose proof (sliding_windows_returns_every_fitting_window 0 100 30 20
                ltac:(lia) ltac:(lia) ltac:(lia) H30 H100) as [Hrun Hmem].
  split; [apply (Hrun 5%nat); vm_compute; lia | apply (Hmem 3)].
Defined.

Lemma sliding_windows_needs_a_positive_step_witness :
  TimeUtils.sliding_windows 7 0 100 30 0 = None ∧
  ∃ fuel,
    TimeUtils.sliding_windows fuel 50 100 30 (-20) = Some (Raised OverflowError).
Proof.
  assert (H0 : 0 ≤ 0 ≤ datetime_max) by (by vm_compute).
  assert (H30 : 0 ≤ 0 + 30 ≤ datetime_max) by (by vm_compute).
  assert (H50 : 0 ≤ 50 ≤ datetime_max) by (by vm_compute).
  assert (H80 : 0 ≤ 50 + 30 ≤ datetime_max) by (by vm_compute).
  split.
  - apply (sliding_windows_needs_a_positive_step 0 100 30 0
             ltac:(lia) H0 H30 ltac:(lia)); reflexivity.
  - apply (sliding_windows_needs_a_positive_step 50 100 30 (-20)
             ltac:(lia) H50 H80 ltac:(lia)); lia.
Defined.

Lemma time_window_contains_its_center_witness :
  TimeUtils.time_window 3600000000 TimeUtils.default_before TimeUtils.default_after
    = Returned (1800000000, 3900000000) ∧
  TimeUtils.is_within_window 3600000000 1800000000 3900000000 = true.
Proof.
  assert (Hbefore : 0 ≤ TimeUtils.default_before) by (by vm_compute).
  assert (Hafter : 0 ≤ TimeUtils.default_after) by (by vm_compute).
  assert (Hlow : 0 ≤ 3600000000 - TimeUtils.default_before) by (by vm_compute).
  assert (Hhigh : 3600000000 + TimeUtils.default_after ≤ datetime_max)
    by (by vm_compute).
  exact (proj1 (time_window_contains_its_center 3600000000 _ _ Hbefore Hafter)
           Hlow Hhigh).
Defined.

(** * Payload validation *)

Section validators.
Import Validators.

Arguments name_char : simpl never.

Lemma append_String (c : Ascii.ascii) (w r : string) :
  String c w +:+ r = String c (w +:+ r).
Proof. reflexivity. Qed.

Lemma append_empty_r (w : string) : w +:+ EmptyString = w.
Proof. induction w as [|c w IH]; [done|]. by rewrite append_String, IH. Qed.

Lemma after_name_chars_app (w r : string) :
  all_name_chars w = true → after_name_chars (w +:+ r) = after_name_chars r.
Proof.
  induction w as [|c w IH]; [done|]. cbn [all_name_chars]. intros [Hc Hw]%andb_true_iff.
  rewrite append_String. cbn [after_name_chars]. rewrite Hc. by apply IH.
Qed.

Lemma after_name_chars_split (s : string) :
  ∃ w, s = w +:+ after_name_chars s ∧ all_name_chars w = true.
Proof.
  induction s as [|c s (w & Hs & Hw)]; [by exists EmptyString|].
  cbn [after_name_chars]. destruct (name_char c) eqn:Hc.
  - exists (String c w). split; [rewrite append_String; by f_equal|].
    cbn [all_name_chars]. by rewrite Hc.
  - by exists EmptyString.
Qed.

Lemma re_match_name_spec (s : string) :
  re_match_name s = true ↔
  ∃ w, w ≠ EmptyString ∧ all_name_chars w = true ∧ (s = w ∨ s = w +:+ newline).
Proof.
  split.
  - destruct s as [|c rest]; [done|]. cbn [re_match_name].
    intros [Hc Hrest]%andb_true_iff.
    destruct (after_name_chars_split rest) as (w & Hsplit & Hw).
    exists (String c w). split; [done|].
    split; [cbn [all_name_chars]; by rewrite Hc|].
    apply orb_true_iff in Hrest as [Hend%bool_decide_eq_true|Hend%bool_decide_eq_true];
      rewrite Hend in Hsplit; [left|right]; rewrite Hsplit at 1;
      by rewrite ?append_String, ?append_empty_r.
  - intros (w & Hne & Hw & Hs). destruct w as [|c w]; [done|].
    cbn [all_name_chars] in Hw. apply andb_true_iff in Hw as [Hc Hw].
    assert (Hnl : after_name_chars newline = newline) by (by vm_compute).
    destruct Hs as [-> | ->]; rewrite ?append_String; cbn [re_match_name];
      rewrite Hc; cbn [andb].
    + rewrite <-(append_empty_r w), after_name_chars_app by done. done.
    + rewrite after_name_chars_app, Hnl by done.
      apply orb_true_iff. right. by apply bool_decide_eq_true.
Qed.

(** X20.  [validate_service_name] accepts exactly the names of at most 128
    characters that are one or more letters, digits, [_] and [-], possibly
    followed by one newline: the [$] of its pattern also matches before a
    final newline.  Every other name gets a non-empty error message. *)
Theorem service_name_accepted_iff (service_name : string) :
  (validate_service_name service_name = (true, None) ↔
   Z.of_nat (String.length service_name) ≤ 128 ∧
   ∃ w, w ≠ EmptyString ∧ all_name_chars w = true ∧
        (service_name = w ∨ service_name = w +:+ newline)) ∧
  (validate_service_name service_name = (true, None) ∨
   ∃ error, validate_service_name service_name = (false, Some error) ∧
            str_truthy (Some error) = true).
Proof.
  unfold validate_service_name.
  destruct (bool_decide_reflect (service_name = EmptyString)) as [->|Hne].
  { split; [|right; by eexists]. split; [done|].
    intros (_ & w & Hw & _ & [Hs|Hs]); [done|]. by destruct w. }
  destruct (decide (128 < _)) as [Hlong|Hshort].
  { split; [|right; by eexists]. split; [done|]. lia. }
  destruct (re_match_name service_name) eqn:Hre; cbn [negb].
  - split; [|by left]. split; [|done]. intros _. split; [lia|].
    by apply re_match_name_spec.
  - split; [|right; by eexists]. split; [done|]. intros [_ Hw].
    apply re_match_name_spec in Hw. congruence.
Qed.
End validators.

Section validate_timestamp.
Import Validators.
Context (utcnow : nat → datetime).

Lemma validate_timestamp_eq (timestamp : pydatetime) (c : calls) :
  validate_timestamp utcnow timestamp c =
  (mk_calls (S (utcnow_calls c)) (uuid4_calls c),
   let now := utcnow (utcnow_calls c) in
   if decide (0 ≤ now - days 7 ≤ datetime_max) then
     if decide (0 ≤ now + minutes 5 ≤ datetime_max) then
       match timestamp with
       | Aware _ _ => Err TypeError
       | Naive t =>
           if decide (t < now - days 7) then
             Ok (false, Some [Lit "Timestamp "; Fmt_datetime timestamp;
                              Lit " is too far in the past (>7 days)"])
           else if decide (now + minutes 5 < t) then
             Ok (false, Some [Lit "Timestamp "; Fmt_datetime timestamp;
                              Lit " is in the future"])
           else Ok (true, None)
       end
     else Err (Exn OverflowError)
   else Err (Exn OverflowError)).
Proof.
  unfold validate_timestamp, mbind, M_bind, datetime_utcnow, datetime_sub, datetime_add.
  cbn zeta. destruct (decide (0 ≤ _ - _ ≤ _)); [|done].
  destruct (decide (0 ≤ _ + _ ≤ _)); [|done].
  destruct timestamp as [t|t o]; [|done]. cbn.
  unfold mret, M_ret. cbn.
  destruct (bool_decide_reflect (t < utcnow (utcnow_calls c) - days 7));
    [by rewrite decide_True|rewrite decide_False by done].
  destruct (bool_decide_reflect (utcnow (utcnow_calls c) + minutes 5 < t));
    [by rewrite decide_True|by rewrite decide_False].
Qed.

(** X21.  [validate_timestamp] reads the clock once and accepts a naive
    timestamp exactly when it lies between seven days before and five
    minutes after that reading, both ends included; a rejection carries a
    non-empty message.  On a timestamp that is aware of its time zone it
    raises [TypeError].  The reading is assumed to be at least seven days
    after [datetime.min] and five minutes before [datetime.max]. *)
Theorem validate_timestamp_window (c : calls) :
  let now := utcnow (utcnow_calls c) in
  let c' := mk_calls (S (utcnow_calls c)) (uuid4_calls c) in
  days 7 ≤ now → now + minutes 5 ≤ datetime_max →
  (∀ t, ∃ error,
     validate_timestamp utcnow (Naive t) c
       = (c', Ok (bool_decide (now - days 7 ≤ t ≤ now + minutes 5), error)) ∧
     (error = None ↔ now - days 7 ≤ t ≤ now + minutes 5) ∧
     (str_truthy error = true ↔ ¬ (now - days 7 ≤ t ≤ now + minutes 5))) ∧
  (∀ t utcoffset,
     validate_timestamp utcnow (Aware t utcoffset) c = (c', Err TypeError)).
Proof.
  intros now c' Hlow Hhigh.
  assert (0 ≤ now - days 7 ≤ datetime_max) by (unfold days, minutes in *; lia).
  assert (0 ≤ now + minutes 5 ≤ datetime_max) by (unfold days, minutes in *; lia).
  split; [intros t|intros t o]; rewrite validate_timestamp_eq; cbn zeta;
    fold now; rewrite !decide_True by done; [|done].
  destruct (decide (t < now - days 7)).
  { eexists. rewrite bool_decide_eq_false_2 by lia. split; [done|].
    split; [split; [done|lia]|split; [lia|done]]. }
  destruct (decide (now + minutes 5 < t)).
  { eexists. rewrite bool_decide_eq_false_2 by lia. split; [done|].
    split; [split; [done|lia]|split; [lia|done]]. }
  eexists. rewrite bool_decide_eq_true_2 by lia. split; [done|].
  split; [split; [lia|done]|split; [done|lia]].
Qed.

Lemma validate_timestamp_outcome (timestamp : pydatetime) (c : calls) :
  ∃ r, validate_timestamp utcnow timestamp c
         = (mk_calls (S (utcnow_calls c)) (uuid4_calls c), r) ∧
       match r with
       | Ok (true, None) =>
           ∃ t, timestamp = Naive t ∧
                utcnow (utcnow_calls c) - days 7 ≤ t ≤ utcnow (utcnow_calls c) + minutes 5
       | Ok (false, Some error) => str_truthy (Some error) = true
       | Ok _ => False
       | Err e => e = TypeError ∨ e = Exn OverflowError
       end.
Proof.
  eexists. split; [apply validate_timestamp_eq|]. cbn zeta.
  repeat case_decide; try (by right). destruct timestamp as [t|]; [|by left].
  repeat case_decide; try done. exists t. split; [done|lia].
Qed.
End validate_timestamp.

Section validate_models.
Import Validators.
Context (utcnow : nat → datetime) (uuid4 : nat → string).

Lemma validate_service_name_cases (service_name : string) :
  validate_service_name service_name = (true, None) ∨
  ∃ error, validate_service_name service_name = (false, Some error) ∧
           str_truthy (Some error) = true.
Proof.
  unfold validate_service_name. repeat case_match; try (by left); right; by eexists.
Qed.

Lemma validate_log_entry_spec (data : LogEntryCreate.t) (c : calls) :
  ∃ c' r,
    validate_log_entry utcnow uuid4 data c = (c', r) ∧
    utcnow_calls c' = S (utcnow_calls c) ∧
    match r with
    | Ok (Some log, None) =>
        uuid4_calls c' = S (uuid4_calls c) ∧
        acceptable_log (utcnow (utcnow_calls c)) data ∧
        log = log_model (uuid4 (uuid4_calls c)) data
    | Ok (None, Some error) =>
        uuid4_calls c' = uuid4_calls c ∧ str_truthy (Some error) = true
    | Ok _ => False
    | Err e => uuid4_calls c' = uuid4_calls c ∧ (e = TypeError ∨ e = Exn OverflowError)
    end.
Proof.
  unfold validate_log_entry, mbind, M_bind.
  destruct (validate_timestamp_outcome utcnow (LogEntryCreate.timestamp data) c)
    as (r & -> & Hr).
  destruct r as [[[|] [error|]]|e]; try done; cbn [negb];
    [| by eexists _, _ | by eexists _, _].
  destruct (validate_service_name_cases (LogEntryCreate.service_name data))
    as [Hname|(error & -> & Herror)]; [rewrite Hname|]; cbn [negb]; [|by eexists _, _].
  case_bool_decide; [by eexists _, _|].
  case_decide; [by eexists _, _|].
  eexists _, _. split; [done|]. split; [done|]. split; [done|].
  split; [|done]. repeat split; try done. lia.
Qed.

Lemma validate_timestamp_timely (timestamp : pydatetime) (c : calls) :
  clock_in_range utcnow → timely (utcnow (utcnow_calls c)) timestamp →
  validate_timestamp utcnow timestamp c
    = (mk_calls (S (utcnow_calls c)) (uuid4_calls c), Ok (true, None)).
Proof.
  intros Hclock (t & -> & Ht). destruct (Hclock (utcnow_calls c)) as [Hlow Hhigh].
  rewrite validate_timestamp_eq. cbn zeta. unfold days, minutes in *.
  rewrite !decide_True by lia. by rewrite !decide_False by lia.
Qed.

Lemma validate_log_entry_acceptable (data : LogEntryCreate.t) (c : calls) :
  clock_in_range utcnow → acceptable_log (utcnow (utcnow_calls c)) data →
  validate_log_entry utcnow uuid4 data c
    = (mk_calls (S (utcnow_calls c)) (S (uuid4_calls c)),
       Ok (Some (log_model (uuid4 (uuid4_calls c)) data), None)).
Proof.
  intros Hclock (Htime & Hname & Hmessage & Hlength).
  unfold validate_log_entry, mbind, M_bind.
  rewrite validate_timestamp_timely, Hname by done. cbn [negb].
  rewrite bool_decide_eq_false_2 by done. by rewrite decide_False by lia.
Qed.

Lemma validate_metric_data_point_spec (data : MetricDataPointCreate.t) (c : calls) :
  ∃ c' r,
    validate_metric_data_point utcnow uuid4 data c = (c', r) ∧
    utcnow_calls c' = S (utcnow_calls c) ∧
    match r with
    | Ok (Some metric, None) =>
        uuid4_calls c' = S (uuid4_calls c) ∧
        acceptable_metric (utcnow (utcnow_calls c)) data ∧
        metric = metric_model (uuid4 (uuid4_calls c)) data
    | Ok (None, Some error) =>
        uuid4_calls c' = uuid4_calls c ∧ str_truthy (Some error) = true
    | Ok _ => False
    | Err e => uuid4_calls c' = uuid4_calls c ∧ (e = TypeError ∨ e = Exn OverflowError)
    end.
Proof.
  unfold validate_metric_data_point, mbind, M_bind.
  destruct (validate_timestamp_outcome utcnow (MetricDataPointCreate.timestamp data) c)
    as (r & -> & Hr).
  destruct r as [[[|] [error|]]|e]; try done; cbn [negb];
    [| by eexists _, _ | by eexists _, _].
  destruct (validate_service_name_cases (MetricDataPointCreate.service_name data))
    as [Hname|(error & -> & Herror)]; [rewrite Hname|]; cbn [negb]; [|by eexists _, _].
  case_bool_decide; [by eexists _, _|].
  case_decide; [by eexists _, _|].
  destruct (PrimFloat.is_nan _ || PrimFloat.is_infinity _) eqn:Hvalue;
    [by eexists _, _|].
  apply orb_false_iff in Hvalue as [Hnan Hinf].
  eexists _, _. split; [done|]. split; [done|]. split; [done|].
  split; [|done]. repeat split; try done. lia.
Qed.

Lemma validate_metric_data_point_acceptable (data : MetricDataPointCreate.t) (c : calls) :
  clock_in_range utcnow → acceptable_metric (utcnow (utcnow_calls c)) data →
  validate_metric_data_point utcnow uuid4 data c
    = (mk_calls (S (utcnow_calls c)) (S (uuid4_calls c)),
       Ok (Some (metric_model (uuid4 (uuid4_calls c)) data), None)).
Proof.
  intros Hclock (Htime & Hname & Hmetric & Hlength & Hnan & Hinf).
  unfold validate_metric_data_point, mbind, M_bind.
  rewrite validate_timestamp_timely, Hname by done. cbn [negb].
  rewrite bool_decide_eq_false_2 by done. rewrite decide_False by lia.
  by rewrite Hnan, Hinf.
Qed.

Lemma validate_span_spec (data : SpanCreate.t) (c : calls) :
  ∃ c' r,
    validate_span utcnow data c = (c', r) ∧
    uuid4_calls c' = uuid4_calls c ∧
    match r with
    | Ok (Some span, None) =>
        utcnow_calls c' = S (S (utcnow_calls c)) ∧
        acceptable_span (utcnow (utcnow_calls c)) (utcnow (S (utcnow_calls c))) data ∧
        span = span_model data
    | Ok (None, Some error) => str_truthy (Some error) = true
    | Ok _ => False
    | Err e => e = TypeError ∨ e = Exn OverflowError
    end.
Proof.
  unfold validate_span, mbind, M_bind.
  destruct (validate_timestamp_outcome utcnow (SpanCreate.start_time data) c)
    as (r & -> & Hr).
  destruct r as [[[|] [error|]]|e]; try done; cbn [negb];
    [| by eexists _, _ | by eexists _, _].
  destruct (validate_timestamp_outcome utcnow (SpanCreate.end_time data)
              (mk_calls (S (utcnow_calls c)) (uuid4_calls c))) as (r & -> & Hr').
  cbn [utcnow_calls uuid4_calls] in *.
  destruct r as [[[|] [error|]]|e]; try done; cbn [negb];
    [| by eexists _, _ | by eexists _, _].
  destruct Hr as (ts & Hts & Hstart), Hr' as (te & Hte & Hend).
  rewrite Hts, Hte. cbn [pydatetime_lt or_raise]. unfold mret, M_ret.
  case_bool_decide; [by eexists _, _|].
  destruct (validate_service_name_cases (SpanCreate.service_name data))
    as [Hname|(error & -> & Herror)]; [rewrite Hname|]; cbn [negb]; [|by eexists _, _].
  case_bool_decide; [by eexists _, _|].
  case_bool_decide; [by eexists _, _|].
  eexists _, _. split; [done|]. split; [done|]. split; [done|].
  split; [|unfold span_model; by rewrite Hts, Hte].
  unfold acceptable_span, timely. rewrite Hts, Hte. cbn [naive].
  repeat split; try done; try (by eexists); lia.
Qed.

Lemma validate_span_acceptable (data : SpanCreate.t) (c : calls) :
  clock_in_range utcnow →
  acceptable_span (utcnow (utcnow_calls c)) (utcnow (S (utcnow_calls c))) data →
  validate_span utcnow data c
    = (mk_calls (S (S (utcnow_calls c))) (uuid4_calls c), Ok (Some (span_model data), None)).
Proof.
  intros Hclock (Hstart & Hend & Horder & Hname & Htrace & Hspan).
  unfold validate_span, mbind, M_bind.
  rewrite validate_timestamp_timely by done. cbn [negb].
  rewrite validate_timestamp_timely by done. cbn [negb utcnow_calls uuid4_calls].
  destruct Hstart as (ts & Hts & _), Hend as (te & Hte & _).
  unfold span_model. rewrite Hts, Hte in *. cbn [naive] in *.
  cbn [pydatetime_lt or_raise]. unfold mret, M_ret.
  rewrite bool_decide_eq_false_2 by lia. rewrite Hname. cbn [negb].
  by rewrite !bool_decide_eq_false_2 by done.
Qed.
End validate_models.

Section validate_trace.
Import Validators.
Context (utcnow : nat → datetime).

Lemma validate_spans_from_spec (spans : list SpanCreate.t) :
  ∀ (idx : nat) (validated_spans : list (option Span.t)) (c : calls),
  ∃ c' r,
    validate_spans_from utcnow idx spans validated_spans c = (c', r) ∧
    uuid4_calls c' = uuid4_calls c ∧
    match r with
    | Ok (inl validated) =>
        validated = validated_spans ++ (Some <$> (span_model <$> spans)) ∧
        utcnow_calls c' = (utcnow_calls c + 2 * length spans)%nat ∧
        ∀ k span_data,
          spans !! k = Some span_data →
          acceptable_span (utcnow (utcnow_calls c + 2 * k)%nat)
            (utcnow (S (utcnow_calls c + 2 * k))) span_data
    | Ok (inr error) => str_truthy (Some error) = true
    | Err e => e = TypeError ∨ e = Exn OverflowError
    end.
Proof.
  induction spans as [|span_data spans IH]; intros idx validated_spans c.
  { eexists _, _. split; [done|]. split; [done|]. cbn.
    rewrite app_nil_r. split; [done|]. split; [lia|]. intros k ?. by rewrite lookup_nil. }
  cbn [validate_spans_from]. unfold mbind, M_bind.
  destruct (validate_span_spec utcnow span_data c) as (c1 & r & -> & Hids & Hr).
  destruct r as [[[span|] [error|]]|e]; try done;
    [|rewrite Hr; by eexists _, _|by eexists _, _].
  destruct Hr as (Hreads & Hspan & ->). cbn [str_truthy].
  destruct (IH (S idx) (validated_spans ++ [Some (span_model span_data)]) c1)
    as (c' & r & -> & Hids' & Hr).
  eexists _, _. split; [done|]. split; [congruence|].
  destruct r as [[validated|error]|e]; [|done..].
  destruct Hr as (-> & Hreads' & Hspans). split; [by rewrite <-(assoc_L (++))|].
  split; [cbn [length]; lia|]. intros [|k] data Hk.
  - cbn in Hk. injection Hk as <-. by rewrite Nat.mul_0_r, Nat.add_0_r.
  - cbn in Hk. specialize (Hspans k data Hk). rewrite Hreads in Hspans.
    by replace (utcnow_calls c + 2 * S k)%nat with (S (S (utcnow_calls c)) + 2 * k)%nat
      by lia.
Qed.

Lemma validate_spans_from_acceptable (spans : list SpanCreate.t) :
  clock_in_range utcnow →
  ∀ (idx : nat) (validated_spans : list (option Span.t)) (c : calls),
    (∀ k span_data,
       spans !! k = Some span_data →
       acceptable_span (utcnow (utcnow_calls c + 2 * k)%nat)
         (utcnow (S (utcnow_calls c + 2 * k))) span_data) →
    validate_spans_from utcnow idx spans validated_spans c
      = (mk_calls (utcnow_calls c + 2 * length spans) (uuid4_calls c),
         Ok (inl (validated_spans ++ (Some <$> (span_model <$> spans))))).
Proof.
  intros Hclock. induction spans as [|span_data spans IH];
    intros idx validated_spans c Hspans.
  { cbn. rewrite app_nil_r, Nat.add_0_r. by destruct c. }
  cbn [validate_spans_from]. unfold mbind, M_bind.
  rewrite validate_span_acceptable; [|done|].
  2: { specialize (Hspans 0%nat span_data eq_refl).
       by rewrite Nat.mul_0_r, Nat.add_0_r in Hspans. }
  cbn [str_truthy]. rewrite IH.
  - cbn [utcnow_calls uuid4_calls length fmap list_fmap].
    rewrite <-(assoc_L (++)). do 2 f_equal. lia.
  - intros k data Hk. cbn [utcnow_calls].
    specialize (Hspans (S k) data Hk).
    by replace (utcnow_calls c + 2 * S k)%nat with (S (S (utcnow_calls c)) + 2 * k)%nat
      in Hspans by lia.
Qed.

Lemma check_trace_ids_spec (trace_id : string) (spans : list Span.t) (c : calls) :
  ∃ mismatch,
    check_trace_ids trace_id (Some <$> spans) c = (c, Ok mismatch) ∧
    match mismatch with
    | None => Forall (λ span, Span.trace_id span = trace_id) spans
    | Some error =>
        str_truthy (Some error) = true ∧
        ¬ Forall (λ span, Span.trace_id span = trace_id) spans
    end.
Proof.
  induction spans as [|span spans (mismatch & IH & Hmismatch)]; [by exists None|].
  cbn [fmap list_fmap check_trace_ids]. case_bool_decide as Hid.
  - eexists. split; [done|]. split; [done|]. by intros [? _]%Forall_cons.
  - exists mismatch. split; [done|].
    destruct mismatch as [error|]; [|by constructor].
    destruct Hmismatch as [? Hnot]. split; [done|]. by intros [_ ?]%Forall_cons.
Qed.

Lemma omap_id_Some {A : Type} (l : list A) : omap id (Some <$> l) = l.
Proof. induction l as [|x l IH]; [done|]. cbn. by rewrite IH. Qed.

Lemma validate_trace_spec (data : TraceCreate.t) (c : calls) :
  ∃ c' r,
    validate_trace utcnow data c = (c', r) ∧
    uuid4_calls c' = uuid4_calls c ∧
    match r with
    | Ok (Some trace, None) =>
        utcnow_calls c' = (utcnow_calls c + 2 * length (TraceCreate.spans data))%nat ∧
        acceptable_trace utcnow (utcnow_calls c) data ∧
        trace = Trace.new (TraceCreate.trace_id data)
                  (span_model <$> TraceCreate.spans data)
    | Ok (None, Some error) => str_truthy (Some error) = true
    | Ok _ => False
    | Err e => e = TypeError ∨ e = Exn OverflowError
    end.
Proof.
  unfold validate_trace. case_bool_decide as Hid; [by eexists _, _|].
  case_bool_decide as Hspans; [by eexists _, _|].
  unfold mbind, M_bind.
  destruct (validate_spans_from_spec (TraceCreate.spans data) 0 [] c)
    as (c' & r & -> & Hids & Hr).
  destruct r as [[validated|error]|e]; [|by eexists _, _..].
  destruct Hr as (-> & Hreads & Hacceptable). rewrite app_nil_l.
  destruct (check_trace_ids_spec (TraceCreate.trace_id data)
              (span_model <$> TraceCreate.spans data) c') as (mismatch & -> & Hmismatch).
  destruct mismatch as [error|]; [eexists _, _; by destruct Hmismatch|].
  eexists _, _. split; [done|]. split; [done|]. rewrite omap_id_Some.
  split; [done|]. split; [|done]. split; [done|]. split; [done|].
  intros k span_data Hk. split; [by apply Hacceptable|].
  rewrite Forall_fmap, Forall_lookup in Hmismatch. apply (Hmismatch k span_data Hk).
Qed.

Lemma validate_trace_acceptable (data : TraceCreate.t) (c : calls) :
  clock_in_range utcnow → acceptable_trace utcnow (utcnow_calls c) data →
  validate_trace utcnow data c
    = (mk_calls (utcnow_calls c + 2 * length (TraceCreate.spans data)) (uuid4_calls c),
       Ok (Some (Trace.new (TraceCreate.trace_id data)
                   (span_model <$> TraceCreate.spans data)),
           None)).
Proof.
  intros Hclock (Hid & Hspans & Hacceptable). unfold validate_trace.
  rewrite !bool_decide_eq_false_2 by done. unfold mbind, M_bind.
  rewrite validate_spans_from_acceptable; [|done|intros; by apply Hacceptable].
  rewrite app_nil_l.
  destruct (check_trace_ids_spec (TraceCreate.trace_id data)
              (span_model <$> TraceCreate.spans data)
              (mk_calls (utcnow_calls c + 2 * length (TraceCreate.spans data))
                 (uuid4_calls c))) as (mismatch & -> & Hmismatch).
  destruct mismatch as [error|]; [|by rewrite omap_id_Some].
  destruct Hmismatch as [_ []]. rewrite Forall_fmap, Forall_lookup.
  intros k span_data Hk. apply (Hacceptable k span_data Hk).
Qed.
End validate_trace.

Section validators_accept.
Import Validators.
Context (utcnow : nat → datetime) (uuid4 : nat → string).

Lemma validate_log_entry_outcome (data : LogEntryCreate.t) (c : calls) :
  validator_outcome (validate_log_entry utcnow uuid4 data c).2.
Proof.
  destruct (validate_log_entry_spec utcnow uuid4 data c) as (c' & r & -> & _ & Hr).
  destruct r as [[[?|] [?|]]|?]; cbn; tauto.
Qed.

Lemma validate_metric_data_point_outcome (data : MetricDataPointCreate.t) (c : calls) :
  validator_outcome (validate_metric_data_point utcnow uuid4 data c).2.
Proof.
  destruct (validate_metric_data_point_spec utcnow uuid4 data c)
    as (c' & r & -> & _ & Hr).
  destruct r as [[[?|] [?|]]|?]; cbn; tauto.
Qed.

Lemma validate_span_outcome (data : SpanCreate.t) (c : calls) :
  validator_outcome (validate_span utcnow data c).2.
Proof.
  destruct (validate_span_spec utcnow data c) as (c' & r & -> & _ & Hr).
  destruct r as [[[?|] [?|]]|?]; cbn; tauto.
Qed.

Lemma validate_trace_outcome (data : TraceCreate.t) (c : calls) :
  validator_outcome (validate_trace utcnow data c).2.
Proof.
  destruct (validate_trace_spec utcnow data c) as (c' & r & -> & _ & Hr).
  destruct r as [[[?|] [?|]]|?]; cbn; tauto.
Qed.

(** X22.  Each of the four validators either returns a model and no error,
    or returns no model and an error message that is not empty, or raises
    [TypeError] or [OverflowError]: never both a model and an error, never
    neither, and no other exception. *)
Theorem validators_return_model_or_error (c : calls) :
  (∀ data, validator_outcome (validate_log_entry utcnow uuid4 data c).2) ∧
  (∀ data, validator_outcome (validate_metric_data_point utcnow uuid4 data c).2) ∧
  (∀ data, validator_outcome (validate_span utcnow data c).2) ∧
  (∀ data, validator_outcome (validate_trace utcnow data c).2).
Proof.
  repeat split; intros data.
  - apply validate_log_entry_outcome.
  - apply validate_metric_data_point_outcome.
  - apply validate_span_outcome.
  - apply validate_trace_outcome.
Qed.

(** X23.  [validate_log_entry] returns a log entry exactly for a request
    with a naive timestamp between seven days before and five minutes after
    the clock, a service name that [validate_service_name] accepts and a
    message of 1 to 65536 characters: every run that returns an entry is on
    such a request, and on every such request the run returns the entry
    that has the fields of the request and the next identifier, with no
    error, after one reading of the clock and one identifier.  The clock is
    assumed to be in range. *)
Theorem validate_log_entry_accepts (data : LogEntryCreate.t) (c : calls) :
  clock_in_range utcnow →
  (∀ log,
     (∃ c' error, validate_log_entry utcnow uuid4 data c = (c', Ok (Some log, error))) ↔
     acceptable_log (utcnow (utcnow_calls c)) data ∧
     log = log_model (uuid4 (uuid4_calls c)) data) ∧
  (acceptable_log (utcnow (utcnow_calls c)) data →
   validate_log_entry utcnow uuid4 data c
     = (mk_calls (S (utcnow_calls c)) (S (uuid4_calls c)),
        Ok (Some (log_model (uuid4 (uuid4_calls c)) data), None))).
Proof.
  intros Hclock. split; [|by apply validate_log_entry_acceptable].
  intros log. split.
  - intros (c' & error & Heq).
    destruct (validate_log_entry_spec utcnow uuid4 data c) as (c1 & r & Heq' & _ & Hr).
    rewrite Heq in Heq'. injection Heq' as <- <-.
    destruct error; [done|]. by destruct Hr as (_ & Hacceptable & ->).
  - intros [Hacceptable ->]. eexists _, _. by apply validate_log_entry_acceptable.
Qed.

(** X24.  [validate_metric_data_point] returns a data point exactly for a
    request with a naive timestamp between seven days before and five
    minutes after the clock, a service name that [validate_service_name]
    accepts, a metric name of 1 to 256 characters and a value that is
    neither NaN nor infinite: every run that returns a point is on such a
    request, and on every such request the run returns the point that has
    the fields of the request and the next identifier, with no error.  The
    clock is assumed to be in range. *)
Theorem validate_metric_data_point_accepts (data : MetricDataPointCreate.t) (c : calls) :
  clock_in_range utcnow →
  (∀ metric,
     (∃ c' error,
        validate_metric_data_point utcnow uuid4 data c = (c', Ok (Some metric, error))) ↔
     acceptable_metric (utcnow (utcnow_calls c)) data ∧
     metric = metric_model (uuid4 (uuid4_calls c)) data) ∧
  (acceptable_metric (utcnow (utcnow_calls c)) data →
   validate_metric_data_point utcnow uuid4 data c
     = (mk_calls (S (utcnow_calls c)) (S (uuid4_calls c)),
        Ok (Some (metric_model (uuid4 (uuid4_calls c)) data), None))).
Proof.
  intros Hclock. split; [|by apply validate_metric_data_point_acceptable].
  intros metric. split.
  - intros (c' & error & Heq).
    destruct (validate_metric_data_point_spec utcnow uuid4 data c)
      as (c1 & r & Heq' & _ & Hr).
    rewrite Heq in Heq'. injection Heq' as <- <-.
    destruct error; [done|]. by destruct Hr as (_ & Hacceptable & ->).
  - intros [Hacceptable ->]. eexists _, _.
    by apply validate_metric_data_point_acceptable.
Qed.

(** X25.  [validate_trace] returns a trace exactly for a request with an id,
    at least one span, and spans that all carry the id of the trace and pass
    [validate_span] (naive start and end within the window of the clock,
    end not before start, an accepted service name, a span id): every run
    that returns a trace is on such a request, and on every such request
    the run returns [Trace(trace_id, spans)], with no error, after two
    readings of the clock per span and no identifier.  That trace has one
    span per span of the request, in order, each with the id of the trace
    and an end not before its start.  The clock is assumed to be in
    range. *)
Theorem validate_trace_accepts (data : TraceCreate.t) (c : calls) :
  clock_in_range utcnow →
  let built :=
    Trace.new (TraceCreate.trace_id data) (span_model <$> TraceCreate.spans data) in
  (∀ trace,
     (∃ c' error, validate_trace utcnow data c = (c', Ok (Some trace, error))) ↔
     acceptable_trace utcnow (utcnow_calls c) data ∧ trace = built) ∧
  (acceptable_trace utcnow (utcnow_calls c) data →
   validate_trace utcnow data c
     = (mk_calls (utcnow_calls c + 2 * length (TraceCreate.spans data)) (uuid4_calls c),
        Ok (Some built, None)) ∧
   Trace.trace_id built = TraceCreate.trace_id data ∧
   Trace.spans built = span_model <$> TraceCreate.spans data ∧
   Trace.spans built ≠ [] ∧
   Forall (λ span, Span.trace_id span = Trace.trace_id built ∧
                   Span.start_time span ≤ Span.end_time span)
     (Trace.spans built)).
Proof.
  intros Hclock built. split.
  - intros trace. split.
    + intros (c' & error & Heq).
      destruct (validate_trace_spec utcnow data c) as (c1 & r & Heq' & _ & Hr).
      rewrite Heq in Heq'. injection Heq' as <- <-.
      destruct error; [done|]. by destruct Hr as (_ & Hacceptable & ->).
    + intros [Hacceptable ->]. eexists _, _. by apply validate_trace_acceptable.
  - intros Hacceptable. split; [by apply validate_trace_acceptable|].
    destruct Hacceptable as (Hid & Hspans & Hall).
    assert (span_model <$> TraceCreate.spans data ≠ [])
      by (by destruct (TraceCreate.spans data)).
    subst built. rewrite new_fields by done. cbn [Trace.trace_id Trace.spans].
    split; [done|]. split; [done|]. split; [done|].
    rewrite Forall_fmap, Forall_lookup. intros k span_data Hk.
    destruct (Hall k span_data Hk) as [(_ & _ & Horder & _) Hsame]. by split.
Qed.
End validators_accept.

Section validate_batch.
Import Validators.
Context {D A : Type} (validate : D → M (option A * option fstring)) (label : string).

Lemma validate_batch_from_spec (accepts : D → A → Prop) (items : list D) :
  (∀ data c,
     match (validate data c).2 with
     | Ok (Some x, None) => accepts data x
     | Ok (None, Some error) => str_truthy (Some error) = true
     | Ok _ => False
     | Err _ => True
     end) →
  ∀ idx result c c' result',
    validate_batch_from validate label idx items result c = (c', Ok result') →
    ∃ accepted models new_errors,
      sublist accepted items ∧
      Forall2 accepts accepted models ∧
      valid_items result' = valid_items result ++ (Some <$> models) ∧
      errors result' = errors result ++ new_errors ∧
      (length models + length new_errors = length items)%nat ∧
      Forall (λ error, ∃ k rest,
                (idx ≤ k < idx + length items)%nat ∧
                error = [Lit label; Fmt_int k; Lit ": "] ++ rest) new_errors.
Proof.
  intros Hvalidate. induction items as [|data items IH];
    intros idx result c c' result' Hrun.
  { injection Hrun as <- <-. exists [], [], []. by rewrite !app_nil_r. }
  cbn [validate_batch_from] in Hrun. unfold mbind, M_bind in Hrun.
  specialize (Hvalidate data c).
  destruct (validate data c) as [c1 [[[x|] [error|]]|e]]; cbn [snd] in Hvalidate;
    try done.
  - cbn [str_truthy] in Hrun.
    apply IH in Hrun as (accepted & models & new_errors & Hsub & Hall & Hvalid
                         & Herrors & Hlength & Hindices).
    cbn [valid_items errors] in *.
    exists (data :: accepted), (x :: models), new_errors.
    split; [by constructor|]. split; [by constructor|].
    split; [by rewrite Hvalid, <-(assoc_L (++))|]. split; [done|].
    split; [cbn [length]; lia|].
    eapply Forall_impl; [exact Hindices|]. intros error' (k & rest & Hk & ->).
    exists k, rest. split; [cbn [length]; lia|done].
  - rewrite Hvalidate in Hrun.
    apply IH in Hrun as (accepted & models & new_errors & Hsub & Hall & Hvalid
                         & Herrors & Hlength & Hindices).
    cbn [valid_items errors] in *.
    exists accepted, models, (([Lit label; Fmt_int idx; Lit ": "] ++ error) :: new_errors).
    split; [by constructor|]. split; [done|]. split; [done|].
    split; [by rewrite Herrors, <-(assoc_L (++))|].
    split; [cbn [length]; lia|].
    constructor; [exists idx, error; split; [cbn [length]; lia|done]|].
    eapply Forall_impl; [exact Hindices|]. intros error' (k & rest & Hk & ->).
    exists k, rest. split; [cbn [length]; lia|done].
Qed.

Lemma validate_batch_from_returns (items : list D) :
  (∀ data, data ∈ items → ∀ c, ∃ c' r, validate data c = (c', Ok r)) →
  ∀ idx result c,
    ∃ c' result', validate_batch_from validate label idx items result c = (c', Ok result').
Proof.
  induction items as [|data items IH]; intros Hreturns idx result c;
    [by eexists _, _|].
  cbn [validate_batch_from]. unfold mbind, M_bind.
  destruct (Hreturns data (list_elem_of_here _ _) c) as (c1 & [item error] & ->).
  apply IH. intros data' Hin. apply Hreturns. by apply list_elem_of_further.
Qed.

Lemma validate_batch_from_raises (e : pyexn) (items : list D) :
  (∀ data, data ∈ items →
     ∀ c, ∃ c' r, validate data c = (c', r) ∧ ((∃ x, r = Ok x) ∨ r = Err e)) →
  (∃ data, data ∈ items ∧ ∀ c, ∃ c', validate data c = (c', Err e)) →
  ∀ idx result c,
    ∃ c', validate_batch_from validate label idx items result c = (c', Err e).
Proof.
  induction items as [|data items IH]; intros Hitems (bad & Hin & Hbad) idx result c.
  { by apply elem_of_nil in Hin. }
  cbn [validate_batch_from]. unfold mbind, M_bind.
  apply elem_of_cons in Hin as [->|Hin].
  { destruct (Hbad c) as (c' & ->). by eexists. }
  destruct (Hitems data (list_elem_of_here _ _) c)
    as (c1 & r & -> & [[[item error] ->] | ->]); [|by eexists].
  apply IH; [|by exists bad].
  intros data' Hin'. apply Hitems. by apply list_elem_of_further.
Qed.
End validate_batch.

Section batches_and_handlers.
Import Validators Routes.
Context (settings : Settings.t) (utcnow : nat → datetime) (uuid4 : nat → string).

Lemma validate_log_entry_on_naive (data : LogEntryCreate.t) (t : datetime) (c : calls) :
  clock_in_range utcnow → LogEntryCreate.timestamp data = Naive t →
  ∃ c' r, validate_log_entry utcnow uuid4 data c = (c', Ok r).
Proof.
  intros Hclock Ht. destruct (Hclock (utcnow_calls c)) as [Hlow Hhigh].
  unfold validate_log_entry, mbind, M_bind. rewrite validate_timestamp_eq, Ht.
  cbn zeta. unfold days, minutes in *. rewrite !decide_True by lia.
  destruct (validate_service_name (LogEntryCreate.service_name data)) as [valid error].
  unfold generate_id.
  repeat case_decide; cbn [negb]; try (by eexists _, _);
    destruct valid; cbn [negb]; try (by eexists _, _);
    case_bool_decide; try (by eexists _, _);
    case_decide; by eexists _, _.
Qed.

Lemma validate_log_entry_on_aware (data : LogEntryCreate.t) (t : datetime)
    (utcoffset : timedelta) (c : calls) :
  clock_in_range utcnow → LogEntryCreate.timestamp data = Aware t utcoffset →
  validate_log_entry utcnow uuid4 data c
    = (mk_calls (S (utcnow_calls c)) (uuid4_calls c), Err TypeError).
Proof.
  intros Hclock Ht. destruct (Hclock (utcnow_calls c)) as [Hlow Hhigh].
  unfold validate_log_entry, mbind, M_bind. rewrite validate_timestamp_eq, Ht.
  cbn zeta. unfold days, minutes in *. by rewrite !decide_True by lia.
Qed.

(** X26.  [validate_log_batch] on requests with naive timestamps returns a
    result in which every request is counted once, as valid or as an error.
    The valid items are the models of accepted requests, in the order of
    the batch, and none of them is [None]; each error message starts with
    [Log k: ] for an index [k] of the batch.  The clock is assumed to be in
    range. *)
Theorem validate_log_batch_partitions (logs : list LogEntryCreate.t) (c : calls) :
  clock_in_range utcnow →
  Forall (λ data, ∃ t, LogEntryCreate.timestamp data = Naive t) logs →
  ∃ c' result accepted models,
    validate_log_batch utcnow uuid4 logs c = (c', Ok result) ∧
    (success_count result + error_count result = length logs)%nat ∧
    valid_items result = Some <$> models ∧
    sublist accepted logs ∧
    Forall2 (λ data log, ∃ now id, acceptable_log now data ∧ log = log_model id data)
      accepted models ∧
    Forall (λ error, ∃ k rest,
              (k < length logs)%nat ∧ error = [Lit "Log "; Fmt_int k; Lit ": "] ++ rest)
      (errors result).
Proof.
  intros Hclock Hnaive. unfold validate_log_batch.
  destruct (validate_batch_from_returns (validate_log_entry utcnow uuid4) "Log " logs)
    with (idx := 0%nat) (result := mk_result (A := LogEntry.t) [] []) (c := c)
    as (c' & result & Hrun).
  { intros data Hin c0. rewrite Forall_forall in Hnaive.
    destruct (Hnaive data Hin) as [t Ht]. by apply (validate_log_entry_on_naive data t). }
  apply (validate_batch_from_spec _ _
           (λ data log, ∃ now id, acceptable_log now data ∧ log = log_model id data))
    in Hrun as Hspec.
  - destruct Hspec as (accepted & models & new_errors & Hsub & Hall & Hvalid & Herrors
                       & Hlength & Hindices).
    cbn [valid_items errors app] in *.
    exists c', result, accepted, models. split; [done|].
    unfold success_count, error_count. rewrite Hvalid, Herrors, length_fmap.
    repeat split; try done.
    eapply Forall_impl; [exact Hindices|]. intros error (k & rest & Hk & ->).
    exists k, rest. split; [lia|done].
  - intros data c0.
    destruct (validate_log_entry_spec utcnow uuid4 data c0) as (c1 & r & -> & _ & Hr).
    destruct r as [[[?|] [?|]]|?]; cbn; try tauto.
    destruct Hr as (_ & ? & ->). by eexists _, _.
Qed.

Lemma some_aware_raises (logs : list LogEntryCreate.t) (c : calls) :
  clock_in_range utcnow →
  (∃ data t utcoffset, data ∈ logs ∧ LogEntryCreate.timestamp data = Aware t utcoffset) →
  ∃ c', validate_log_batch utcnow uuid4 logs c = (c', Err TypeError).
Proof.
  intros Hclock (bad & t & o & Hin & Hbad). unfold validate_log_batch.
  apply validate_batch_from_raises.
  - intros data _ c0. destruct (LogEntryCreate.timestamp data) as [t'|t' o'] eqn:Ht.
    + destruct (validate_log_entry_on_naive data t' c0) as (c' & r & ->); [done..|].
      eexists _, _. split; [done|]. left. by eexists.
    + rewrite (validate_log_entry_on_aware data t' o') by done.
      eexists _, _. split; [done|]. by right.
  - exists bad. split; [done|]. intros c0.
    rewrite (validate_log_entry_on_aware bad t o) by done. by eexists.
Qed.

(** X27.  One request whose timestamp is aware of its time zone fails the
    whole batch: [validate_log_batch] raises [TypeError], whatever the other
    requests are, and so does [ingest_logs_batch], which leaves the store as
    it was (a new, empty one if there was none): no log of the batch is
    stored.  The clock is assumed to be in range. *)
Theorem aware_timestamp_fails_the_whole_batch (logs : list LogEntryCreate.t)
    (p : process) :
  clock_in_range utcnow →
  (∃ data t utcoffset, data ∈ logs ∧ LogEntryCreate.timestamp data = Aware t utcoffset) →
  (∃ c', validate_log_batch utcnow uuid4 logs (made p) = (c', Err TypeError)) ∧
  (∀ store,
     get_telemetry_store settings (_telemetry_store p) = (Some store, Returned store) →
     ∃ c', ingest_logs_batch settings utcnow uuid4 logs p
             = (mk_process (Some store) c', Err TypeError)).
Proof.
  intros Hclock Haware.
  destruct (some_aware_raises logs (made p) Hclock Haware) as [c' Hraise].
  split; [by exists c'|]. intros store Hstore. exists c'.
  unfold ingest_logs_batch, ingest_batch. by rewrite Hstore, Hraise.
Qed.

Lemma add_logs_batch_counter (logs : list LogEntry.t) :
  ∀ (self self' : TelemetryStore.t) (ids : list string),
    TelemetryStore.add_logs_batch self logs = (self', Returned ids) →
    TelemetryStore.logs_ingested (TelemetryStore._stats self')
      = TelemetryStore.logs_ingested (TelemetryStore._stats self)
        + Z.of_nat (length logs).
Proof.
  induction logs as [|log logs IH]; intros self self' ids Hrun.
  { injection Hrun as <- _. cbn. lia. }
  cbn [TelemetryStore.add_logs_batch] in Hrun.
  pose proof (add_log_frame self log) as Hframe. cbv zeta in Hframe.
  destruct (TelemetryStore.add_log self log) as [self1 [log_id|e]]; [|done].
  cbn [fst] in Hframe.
  destruct (TelemetryStore.add_logs_batch self1 logs) as [self2 [ids'|e]] eqn:Hrest;
    [|done].
  injection Hrun as <- _. apply IH in Hrest. rewrite Hrest.
  destruct Hframe as (_ & _ & _ & _ & _ & _ & _ & _ & ->). cbn. lia.
Qed.

Lemma before_none_Some {X : Type} (l : list X) : before_none (Some <$> l) = l.
Proof. induction l as [|x l IH]; [done|]. cbn. by rewrite IH. Qed.

Lemma forallb_is_Some {X : Type} (l : list X) :
  forallb (λ item, bool_decide (is_Some item)) (Some <$> l) = true.
Proof. induction l as [|x l IH]; [done|]. cbn. by rewrite IH. Qed.

Lemma add_items_Some {X B : Type}
    (add_batch : TelemetryStore.t → list X → TelemetryStore.t * outcome B)
    (store : TelemetryStore.t) (models : list X) :
  add_items add_batch store (Some <$> models) =
    match add_batch store models with
    | (store, Raised e) => (store, Err (Exn e))
    | (store, Returned b) => (store, Ok b)
    end.
Proof.
  unfold add_items. rewrite before_none_Some, forallb_is_Some.
  by destruct (add_batch store models) as [? [?|?]].
Qed.

(** What [validate_batch_from] returns from an empty result holds models
    only, one per request that is not counted as an error. *)
Lemma validate_batch_valid_items {D A : Type}
    (validate : D → M (option A * option fstring)) (label : string) (items : list D)
    (c c' : calls) (result : ValidationResult A) :
  (∀ data c, validator_outcome (validate data c).2) →
  validate_batch_from validate label 0 items (mk_result [] []) c = (c', Ok result) →
  ∃ models, valid_items result = Some <$> models ∧
            (length models + length (errors result) = length items)%nat.
Proof.
  intros Hvalidate Hrun.
  apply (validate_batch_from_spec _ _ (λ _ _, True)) in Hrun
    as (accepted & models & new_errors & _ & _ & Hvalid & Herrors & Hlength & _).
  - exists models. cbn in Hvalid, Herrors. by rewrite Herrors.
  - intros data c0. specialize (Hvalidate data c0).
    by destruct (validate data c0).2 as [[[?|] [?|]]|?].
Qed.

(** X28.  When [ingest_logs_batch] responds, the two counts of the response
    add up to the size of the batch, the response lists the first ten error
    messages at most, [success] tells whether at least one log was
    ingested (it is false for an empty batch), and the counter
    [logs_ingested] of the store has grown by [ingested_count]. *)
Theorem ingest_logs_batch_response (batch : list LogEntryCreate.t) (p p' : process)
    (response : IngestResponse.t) :
  ingest_logs_batch settings utcnow uuid4 batch p = (p', Ok response) →
  IngestResponse.ingested_count response + IngestResponse.failed_count response
    = Z.of_nat (length batch) ∧
  Z.of_nat (length (IngestResponse.errors response))
    = Z.min 10 (IngestResponse.failed_count response) ∧
  (IngestResponse.success response = true ↔ 0 < IngestResponse.ingested_count response) ∧
  ∃ store store',
    get_telemetry_store settings (_telemetry_store p) = (Some store, Returned store) ∧
    _telemetry_store p' = Some store' ∧
    TelemetryStore.logs_ingested (TelemetryStore._stats store')
      = TelemetryStore.logs_ingested (TelemetryStore._stats store)
        + IngestResponse.ingested_count response.
Proof.
  unfold ingest_logs_batch, ingest_batch. intros Hrun.
  assert (Hstore : ∃ store,
            get_telemetry_store settings (_telemetry_store p)
              = (Some store, Returned store)).
  { revert Hrun. unfold get_telemetry_store.
    destruct (_telemetry_store p); [by eexists|].
    by destruct (TelemetryStore.__init__ _ _ _ _ _); [eexists|]. }
  destruct Hstore as [store Hstore]. rewrite Hstore in Hrun.
  destruct (validate_log_batch utcnow uuid4 batch (made p)) as [c [result|e]] eqn:Hbatch;
    [|done].
  destruct (validate_batch_valid_items _ _ _ _ _ _
              (validate_log_entry_outcome utcnow uuid4) Hbatch)
    as (models & Hvalid & Hlength).
  assert (Hresponse : ∀ store',
            TelemetryStore.logs_ingested (TelemetryStore._stats store')
              = TelemetryStore.logs_ingested (TelemetryStore._stats store)
                + Z.of_nat (length models) →
            (mk_process (Some store') c, batch_response result) = (p', response) →
            IngestResponse.ingested_count response + IngestResponse.failed_count response
              = Z.of_nat (length batch) ∧
            Z.of_nat (length (IngestResponse.errors response))
              = Z.min 10 (IngestResponse.failed_count response) ∧
            (IngestResponse.success response = true
             ↔ 0 < IngestResponse.ingested_count response) ∧
            ∃ store0 store1,
              get_telemetry_store settings (_telemetry_store p)
                = (Some store0, Returned store0) ∧
              _telemetry_store p' = Some store1 ∧
              TelemetryStore.logs_ingested (TelemetryStore._stats store1)
                = TelemetryStore.logs_ingested (TelemetryStore._stats store0)
                  + IngestResponse.ingested_count response).
  { intros store' Hcounter [= <- <-]. unfold batch_response, success_count, error_count.
    cbn [IngestResponse.ingested_count IngestResponse.failed_count
         IngestResponse.errors IngestResponse.success _telemetry_store].
    rewrite Hvalid, length_fmap, length_take.
    split; [lia|]. split; [lia|].
    split; [rewrite bool_decide_eq_true; lia|]. by exists store, store'. }
  rewrite Hvalid, add_items_Some in Hrun. destruct models as [|model models].
  - cbn [fmap list_fmap] in Hrun. apply (Hresponse store); [cbn; lia|congruence].
  - cbn [fmap list_fmap] in Hrun.
    destruct (TelemetryStore.add_logs_batch store (model :: models))
      as [store' [ids|e]] eqn:Hadd; [|done].
    apply (Hresponse store'); [|congruence].
    by apply add_logs_batch_counter in Hadd.
Qed.

Lemma ingest_one_exceptions {D A : Type} (validate : D → M (option A * option fstring))
    (add : TelemetryStore.t → A → TelemetryStore.t * outcome string)
    (data : D) (p : process) :
  (∀ data c, validator_outcome (validate data c).2) →
  (ingest_one settings validate add data p).2 ≠ Err AttributeError.
Proof.
  intros Hvalidate. unfold ingest_one.
  destruct (get_telemetry_store _ _) as [variable [store|e]]; [|done].
  specialize (Hvalidate data (made p)).
  destruct (validate data (made p)) as [c [[[x|] [error|]]|e]]; cbn [snd] in *;
    try done.
  - cbn [str_truthy add_item]. by destruct (add store x) as [store' [?|?]].
  - by rewrite Hvalidate.
  - by destruct Hvalidate as [->| ->].
Qed.

Lemma ingest_batch_exceptions {D A : Type}
    (validate : D → M (option A * option fstring)) (label : string)
    (add_batch : TelemetryStore.t → list A → TelemetryStore.t * outcome (list string))
    (batch : list D) (p : process) :
  (∀ data c, validator_outcome (validate data c).2) →
  (ingest_batch settings
     (λ items, validate_batch_from validate label 0 items (mk_result [] []))
     add_batch batch p).2 ≠ Err AttributeError.
Proof.
  intros Hvalidate. unfold ingest_batch.
  destruct (get_telemetry_store _ _) as [variable [store|e]]; [|done].
  destruct (validate_batch_from _ _ _ _ _ _) as [c [result|e]] eqn:Hbatch.
  - destruct (validate_batch_valid_items _ _ _ _ _ _ Hvalidate Hbatch)
      as (models & -> & _).
    rewrite add_items_Some.
    destruct models as [|model models]; [done|]. cbn [fmap list_fmap].
    by destruct (add_batch store (model :: models)) as [store' [?|?]].
  - cbn [snd]. intros [= ->]. revert Hbatch. generalize (mk_result (A := A) [] []).
    generalize 0%nat (made p). induction batch as [|data batch IH];
      intros idx c0 result Hrun; [done|].
    cbn [validate_batch_from] in Hrun. unfold mbind, M_bind in Hrun.
    specialize (Hvalidate data c0).
    destruct (validate data c0) as [c1 [[item error]|e]]; cbn [snd] in *.
    + by eapply IH.
    + injection Hrun as _ ->. by destruct Hvalidate.
Qed.

(** X29.  None of the six ingestion handlers raises [AttributeError]: what
    a validator hands to the store is never [None]. *)
Theorem handlers_never_pass_None_to_the_store (p : process) :
  (∀ data, (ingest_log settings utcnow uuid4 data p).2 ≠ Err AttributeError) ∧
  (∀ data, (ingest_metric settings utcnow uuid4 data p).2 ≠ Err AttributeError) ∧
  (∀ data, (ingest_trace settings utcnow data p).2 ≠ Err AttributeError) ∧
  (∀ batch, (ingest_logs_batch settings utcnow uuid4 batch p).2 ≠ Err AttributeError) ∧
  (∀ batch, (ingest_metrics_batch settings utcnow uuid4 batch p).2 ≠ Err AttributeError) ∧
  (∀ batch, (ingest_traces_batch settings utcnow batch p).2 ≠ Err AttributeError).
Proof.
  repeat split; intros data.
  - apply ingest_one_exceptions, validate_log_entry_outcome.
  - apply ingest_one_exceptions, validate_metric_data_point_outcome.
  - apply ingest_one_exceptions, validate_trace_outcome.
  - apply (ingest_batch_exceptions (validate_log_entry utcnow uuid4)),
      validate_log_entry_outcome.
  - apply (ingest_batch_exceptions (validate_metric_data_point utcnow uuid4)),
      validate_metric_data_point_outcome.
  - apply (ingest_batch_exceptions (validate_trace utcnow)), validate_trace_outcome.
Qed.
End batches_and_handlers.

(** ** The properties of the validators and handlers at the example requests *)

Section validation_examples.
Import Validators Routes.

Lemma example_clock_in_range : clock_in_range example_utcnow.
Proof. intros n. split; by vm_compute. Qed.

Example service_name_may_end_in_a_newline :
  validate_service_name ("api" +:+ newline) = (true, None).
Proof. by vm_compute. Qed.

Lemma validate_timestamp_window_witness :
  validate_timestamp example_utcnow (Aware example_now 0) (mk_calls 0 0)
    = (mk_calls 1 0, Err TypeError).
Proof.
  assert (Hlow : days 7 ≤ example_utcnow 0) by (by vm_compute).
  assert (Hhigh : example_utcnow 0 + minutes 5 ≤ datetime_max) by (by vm_compute).
  exact (proj2 (validate_timestamp_window example_utcnow (mk_calls 0 0) Hlow Hhigh)
           example_now 0).
Defined.

Lemma good_log_acceptable : acceptable_log example_now good_log.
Proof.
  split; [exists example_now; split; [reflexivity|by vm_compute]|].
  split; [by vm_compute|]. split; [discriminate|by vm_compute].
Qed.

Lemma validate_log_entry_accepts_witness :
  validate_log_entry example_utcnow example_uuid4 good_log (mk_calls 0 0)
    = (mk_calls 1 1, Ok (Some (log_model "a" good_log), None)) ∧
  ∃ c' error,
    validate_log_entry example_utcnow example_uuid4 good_log (mk_calls 0 0)
      = (c', Ok (Some (log_model "a" good_log), error)).
Proof.
  destruct (validate_log_entry_accepts example_utcnow example_uuid4 good_log
              (mk_calls 0 0) example_clock_in_range) as [Hiff Hrun].
  split; [exact (Hrun good_log_acceptable)|].
  exact (proj2 (Hiff (log_model "a" good_log)) (conj good_log_acceptable eq_refl)).
Defined.

Lemma good_metric_acceptable : acceptable_metric example_now good_metric.
Proof.
  split; [exists example_now; split; [reflexivity|by vm_compute]|].
  split; [by vm_compute|]. split; [discriminate|].
  split; [by vm_compute|]. split; by vm_compute.
Qed.

Lemma validate_metric_data_point_accepts_witness :
  validate_metric_data_point example_utcnow example_uuid4 good_metric (mk_calls 0 0)
    = (mk_calls 1 1, Ok (Some (metric_model "a" good_metric), None)) ∧
  ∃ c' error,
    validate_metric_data_point example_utcnow example_uuid4 good_metric (mk_calls 0 0)
      = (c', Ok (Some (metric_model "a" good_metric), error)).
Proof.
  destruct (validate_metric_data_point_accepts example_utcnow example_uuid4 good_metric
              (mk_calls 0 0) example_clock_in_range) as [Hiff Hrun].
  split; [exact (Hrun good_metric_acceptable)|].
  exact (proj2 (Hiff (metric_model "a" good_metric))
           (conj good_metric_acceptable eq_refl)).
Defined.

Lemma good_trace_acceptable : acceptable_trace example_utcnow 0 good_trace.
Proof.
  split; [discriminate|]. split; [discriminate|].
  intros [|k] span_data Hk; [|done]. injection Hk as <-. split; [|reflexivity].
  split; [eexists; split; [reflexivity|by vm_compute]|].
  split; [eexists; split; [reflexivity|by vm_compute]|].
  split; [by vm_compute|]. split; [by vm_compute|]. split; discriminate.
Qed.

Lemma validate_trace_accepts_witness :
  validate_trace example_utcnow good_trace (mk_calls 0 0)
    = (mk_calls 2 0, Ok (Some (Trace.new "t1" [span_model good_span]), None)) ∧
  ∃ c' error,
    validate_trace example_utcnow good_trace (mk_calls 0 0)
      = (c', Ok (Some (Trace.new "t1" [span_model good_span]), error)).
Proof.
  destruct (validate_trace_accepts example_utcnow good_trace (mk_calls 0 0)
              example_clock_in_range) as [Hiff Hrun].
  split; [exact (proj1 (Hrun good_trace_acceptable))|].
  exact (proj2 (Hiff (Trace.new "t1" [span_model good_span]))
           (conj good_trace_acceptable eq_refl)).
Defined.

Lemma validate_log_batch_partitions_witness :
  ∃ c' result,
    validate_log_batch example_utcnow example_uuid4 [good_log; stale_log; good_log]
      (mk_calls 0 0) = (c', Ok result) ∧
    (success_count result + error_count result = 3)%nat.
Proof.
  assert (Hnaive : Forall (λ data, ∃ t, LogEntryCreate.timestamp data = Naive t)
                     [good_log; stale_log; good_log])
    by (repeat constructor; by eexists).
  destruct (validate_log_batch_partitions example_utcnow example_uuid4
              [good_log; stale_log; good_log] (mk_calls 0 0)
              example_clock_in_range Hnaive)
    as (c' & result & _ & _ & Hrun & Hcount & _).
  by exists c', result.
Defined.

Lemma aware_timestamp_fails_the_whole_batch_witness :
  ∃ c', validate_log_batch example_utcnow example_uuid4 [good_log; aware_log]
          (mk_calls 0 0) = (c', Err TypeError).
Proof.
  assert (Haware : ∃ data t utcoffset,
            data ∈ [good_log; aware_log] ∧
            LogEntryCreate.timestamp data = Aware t utcoffset).
  { exists aware_log, example_now, 0. split; [|reflexivity].
    apply list_elem_of_further, list_elem_of_here. }
  exact (proj1 (aware_timestamp_fails_the_whole_batch Settings.defaults example_utcnow
                  example_uuid4 [good_log; aware_log] new_process
                  example_clock_in_range Haware)).
Defined.

Lemma ingest_logs_batch_response_witness :
  ∃ response,
    (ingest_logs_batch Settings.defaults example_utcnow example_uuid4
       [good_log; stale_log] new_process).2 = Ok response ∧
    IngestResponse.ingested_count response + IngestResponse.failed_count response = 2.
Proof.
  destruct (ingest_logs_batch Settings.defaults example_utcnow example_uuid4
              [good_log; stale_log] new_process) as [p' [response|e]] eqn:Hrun.
  - exists response. split; [reflexivity|].
    exact (proj1 (ingest_logs_batch_response Settings.defaults example_utcnow
                    example_uuid4 [good_log; stale_log] new_process p' response Hrun)).
  - exfalso. vm_compute in Hrun. discriminate Hrun.
Defined.
End validation_examples.
